(** * Fintrace relationship engine: a shallow embedding and its properties

    The development follows the Go packages of the backend:
    - [GoStrings]   the functions of package [strings] and the two regexps
                    the service uses, on byte strings;
    - [Domain]      package [domain];
    - [Service]     package [service]: attribute normalisation, the
                    relationship service and the bulk ingestor;
    - [Graph]       package [graph]: the client contract, the in-memory
                    client, and a property-graph store that executes the
                    Cypher statements of the repository;
    - [Repository]  package [repository].
    - [Listing]     the list and export functions of the repository and
                    the service, against a scripted client.

    Part I holds the definitions, Part II the lemmas and the theorems. *)

From Stdlib Require Import ZArith Ascii String Floats.PrimFloat Numbers.Cyclic.Int63.Uint63.
From Stdlib Require Floats.SpecFloat Floats.FloatOps Floats.FloatAxioms.
From stdpp Require Import base decidable option list strings pretty.

Set Warnings "-register-all,-inexact-float".

Open Scope string_scope.
Open Scope list_scope.

(* ===================================================================== *)
(** * Part I: definitions                                                 *)
(* ===================================================================== *)

(** ** Go runtime pieces the service relies on

    [crypto/sha256], [time] formatting and parsing and [encoding/json] are
    library code; the engine is stated over any implementation of them. *)

(** [time.Time], as nanoseconds since the zero time (January 1, year 1,
    00:00:00 UTC), so that [IsZero] is a comparison with 0 and [UTC] keeps
    the instant. *)
Definition Time := Z.

Definition IsZero (t : Time) : bool := Z.eqb t 0.
Definition UTC (t : Time) : Time := t.

(** Layouts of package [time] used by the code. *)
Definition DateOnly : string := "2006-01-02".
Definition RFC3339 : string := "2006-01-02T15:04:05Z07:00".
Definition RFC3339Nano : string := "2006-01-02T15:04:05.999999999Z07:00".

(** ** Strings *)

Module GoStrings.

Definition byte_in (lo hi : nat) (c : ascii) : bool :=
  let n := nat_of_ascii c in Nat.leb lo n && Nat.leb n hi.

(** [unicode.IsSpace] on the ASCII range: tab, newline, vertical tab, form
    feed, carriage return and space. Bytes above 127 are left alone: the
    model is exact on ASCII input. *)
Definition isSpace (c : ascii) : bool :=
  byte_in 9 13 c || Nat.eqb (nat_of_ascii c) 32.

(** The class [\s] of Go's regexp syntax: tab, newline, form feed,
    carriage return and space (no vertical tab). *)
Definition isReSpace (c : ascii) : bool :=
  let n := nat_of_ascii c in
  Nat.eqb n 9 || Nat.eqb n 10 || Nat.eqb n 12 || Nat.eqb n 13 || Nat.eqb n 32.

(** The class [\d]: the ASCII digits. *)
Definition isDigit (c : ascii) : bool := byte_in 48 57 c.

Definition lowerByte (c : ascii) : ascii :=
  if byte_in 65 90 c then ascii_of_nat (nat_of_ascii c + 32) else c.

(** [strings.ToLower], exact on ASCII input. *)
Fixpoint ToLower (s : string) : string :=
  match s with
  | EmptyString => EmptyString
  | String c r => String (lowerByte c) (ToLower r)
  end.

Fixpoint TrimLeftSpace (s : string) : string :=
  match s with
  | EmptyString => EmptyString
  | String c r => if isSpace c then TrimLeftSpace r else s
  end.

Fixpoint TrimRightSpace (s : string) : string :=
  match s with
  | EmptyString => EmptyString
  | String c r =>
      match TrimRightSpace r with
      | EmptyString => if isSpace c then EmptyString else String c EmptyString
      | r' => String c r'
      end
  end.

(** [strings.TrimSpace], exact on ASCII input. *)
Definition TrimSpace (s : string) : string := TrimRightSpace (TrimLeftSpace s).

(** [strings.HasPrefix]. *)
Definition HasPrefix (s p : string) : bool := String.prefix p s.

(** [s[n:]] for a byte offset within the string. *)
Fixpoint sliceFrom (n : nat) (s : string) : string :=
  match n, s with
  | O, _ => s
  | S n', String _ r => sliceFrom n' r
  | S _, EmptyString => EmptyString
  end.

(** [strings.Join]. *)
Fixpoint Join (elems : list string) (sep : string) : string :=
  match elems with
  | [] => ""
  | [x] => x
  | x :: rest => x +:+ sep +:+ Join rest sep
  end.

Fixpoint TrimLeftCut (cut : ascii) (s : string) : string :=
  match s with
  | EmptyString => EmptyString
  | String c r => if Ascii.eqb c cut then TrimLeftCut cut r else s
  end.

Fixpoint TrimRightCut (cut : ascii) (s : string) : string :=
  match s with
  | EmptyString => EmptyString
  | String c r =>
      match TrimRightCut cut r with
      | EmptyString => if Ascii.eqb c cut then EmptyString else String c EmptyString
      | r' => String c r'
      end
  end.

(** [strings.Trim(s, cutset)] for a cutset of one byte. *)
Definition Trim (s : string) (cut : ascii) : string :=
  TrimRightCut cut (TrimLeftCut cut s).

Fixpoint filterBytes (keep : ascii -> bool) (s : string) : string :=
  match s with
  | EmptyString => EmptyString
  | String c r => if keep c then String c (filterBytes keep r) else filterBytes keep r
  end.

(** [nonDigitRegex.ReplaceAllString(s, "")] with [nonDigitRegex = \D+]:
    every maximal run of non-digits is deleted, the digits stay in order. *)
Definition removeNonDigits (s : string) : string := filterBytes isDigit s.

(** [whitespaceRegex.ReplaceAllString(s, " ")] with [whitespaceRegex = \s+]:
    every maximal run of [\s] bytes becomes one space. [inRun] tells that
    the previous byte belonged to a run already replaced. *)
Fixpoint collapseSpaces (inRun : bool) (s : string) : string :=
  match s with
  | EmptyString => EmptyString
  | String c r =>
      if isReSpace c
      then (if inRun then collapseSpaces true r else String " " (collapseSpaces true r))
      else String c (collapseSpaces false r)
  end.

Fixpoint contains (c : ascii) (s : string) : bool :=
  match s with
  | EmptyString => false
  | String d r => Ascii.eqb d c || contains c r
  end.

End GoStrings.

(** ** Errors

    Go [error] values: the two sentinels of package [context], an
    [errors.New]/[fmt.Errorf] message, an [fmt.Errorf] with [%w] that wraps
    a cause, and the service's [*TaskError]. *)

Inductive error : Type :=
| context_Canceled
| context_DeadlineExceeded
| errorString (msg : string)
| wrapError (prefix : string) (cause : error)
| TaskError (Errors : list error).

(** [errors.Is(err, context.Canceled) || errors.Is(err,
    context.DeadlineExceeded)]: [errors.Is] compares and follows [Unwrap];
    a [*TaskError] has no [Unwrap] method and is not a sentinel. *)
Fixpoint isCancellation (err : error) : bool :=
  match err with
  | context_Canceled => true
  | context_DeadlineExceeded => true
  | errorString _ => false
  | wrapError _ cause => isCancellation cause
  | TaskError _ => false
  end.

(** [err.Error()]; the [*TaskError] case is the method of worker.go. *)
Fixpoint Error (err : error) : string :=
  match err with
  | context_Canceled => "context canceled"
  | context_DeadlineExceeded => "context deadline exceeded"
  | errorString msg => msg
  | wrapError prefix cause => prefix +:+ Error cause
  | TaskError errs =>
      match errs with
      | [] => "no errors"
      | [e] => Error e
      | _ => fold_left (fun msg e => msg +:+ " " +:+ Error e +:+ ";") errs "multiple errors:"
      end
  end.

(** ** Dynamic values

    [any]: what a query parameter map or a result record holds. *)

Inductive value : Type :=
| VNull
| VString (s : string)
| VFloat (f : float)
| VInt (n : Z)
| VTime (t : Time)
| VList (items : list value)
| VMap (fields : list (string * value)).

(** A Go [map[string]any], as an association list read at its first
    binding; a missing key reads as [nil]. *)
Definition Props := list (string * value).

Fixpoint get (key : string) (m : Props) : value :=
  match m with
  | [] => VNull
  | (k, v) :: rest => if String.eqb k key then v else get key rest
  end.

Fixpoint has (key : string) (m : Props) : bool :=
  match m with
  | [] => false
  | (k, _) :: rest => String.eqb k key || has key rest
  end.

(** [m[key] = v]. *)
Fixpoint put (key : string) (v : value) (m : Props) : Props :=
  match m with
  | [] => [(key, v)]
  | (k, w) :: rest => if String.eqb k key then (k, v) :: rest else (k, w) :: put key v rest
  end.

(** The library functions the engine calls and this development does not
    implement. *)
Class GoLib := {
  (** [hex.EncodeToString(sha256.Sum256([]byte(value)))] *)
  sha256_hex : string -> string;
  (** [t.Format(layout)] *)
  time_Format : Time -> string -> string;
  (** [time.Parse(layout, s)], [None] on a parse error *)
  time_Parse : string -> string -> option Time;
  (** [json.Marshal] of a metadata map, [None] on an error *)
  json_Marshal : Props -> option string;
}.

(** ** Package domain *)

Module Domain.

Record Address := {
  Line1 : string; Line2 : string; City : string;
  State : string; PostalCode : string; Country : string }.

Record Attribute := {
  Type_ : string;
  Value : string;
  RawValue : string;
  ConfidenceScore : float }.

Record PaymentMethod := {
  pm_ID : string;
  pm_MethodType : string;
  pm_Provider : string;
  pm_Masked : string;
  pm_Fingerprint : string;
  pm_FirstUsedAt : option Time;
  pm_LastUsedAt : option Time }.

Record User := {
  u_ID : string;
  u_FullName : string;
  u_Email : string;
  u_Phone : string;
  u_Address : Address;
  u_DateOfBirth : option Time;
  u_KYCStatus : string;
  u_RiskScore : float;
  u_Attributes : list Attribute;
  u_PaymentMethods : list PaymentMethod;
  u_CreatedAt : Time;
  u_UpdatedAt : Time }.

Record Transaction := {
  t_ID : string;
  t_SenderUserID : string;
  t_ReceiverUserID : string;
  t_Amount : float;
  t_Currency : string;
  t_Type : string;
  t_Status : string;
  t_Channel : string;
  t_IPAddress : string;
  t_DeviceID : string;
  t_PaymentMethodID : string;
  t_Timestamp : Time;
  t_Metadata : Props;
  t_CreatedAt : Time;
  t_UpdatedAt : Time }.

Record DirectUserLink := {
  dl_UserID : string;
  dl_LinkType : string;
  dl_Direction : string;
  dl_TransactionID : string;
  dl_Amount : float;
  dl_Currency : string;
  dl_Timestamp : option Time }.

Record UserTransactionLink := {
  ut_TransactionID : string;
  ut_Role : string;
  ut_Amount : float;
  ut_Currency : string;
  ut_Timestamp : option Time }.

Record SharedAttributeLink := {
  sa_AttributeType : string;
  sa_AttributeHash : string;
  sa_UserIDs : list string }.

Record UserRelationships := {
  ur_UserID : string;
  ur_DirectLinks : list DirectUserLink;
  ur_Transactions : list UserTransactionLink;
  ur_SharedAttributes : list SharedAttributeLink }.

Record TransactionUserLink := {
  tu_UserID : string;
  tu_Role : string;
  tu_Amount : float;
  tu_Currency : string;
  tu_Direction : string }.

Record LinkedTransaction := {
  lt_TransactionID : string;
  lt_LinkType : string;
  lt_AttributeHash : string;
  lt_Score : float;
  lt_LastUpdated : option Time }.

Record TransactionRelationships := {
  tr_TransactionID : string;
  tr_Users : list TransactionUserLink;
  tr_LinkedTransactions : list LinkedTransaction }.

Record PathNode := {
  pn_ID : string; pn_Type : string; pn_Label : string; pn_Weight : float }.

Record PathEdge := {
  pe_Type : string; pe_Source : string; pe_Target : string;
  pe_Label : string; pe_Weight : float }.

Record ShortestPath := {
  sp_SourceUserID : string;
  sp_TargetUserID : string;
  sp_Nodes : list PathNode;
  sp_Edges : list PathEdge;
  sp_Hops : Z }.

(** The zero values returned next to an error. *)
Definition zeroUserRelationships : UserRelationships :=
  {| ur_UserID := ""; ur_DirectLinks := []; ur_Transactions := [];
     ur_SharedAttributes := [] |}.
Definition zeroTransactionRelationships : TransactionRelationships :=
  {| tr_TransactionID := ""; tr_Users := []; tr_LinkedTransactions := [] |}.
Definition zeroShortestPath : ShortestPath :=
  {| sp_SourceUserID := ""; sp_TargetUserID := ""; sp_Nodes := [];
     sp_Edges := []; sp_Hops := 0 |}.

End Domain.

(** ** Package service: inputs and attribute normalisation *)

Module Service.
Import GoStrings.

Record AddressInput := {
  Line1 : string; Line2 : string; City : string;
  State : string; PostalCode : string; Country : string }.

Record PaymentMethodInput := {
  pmi_ID : string;
  pmi_MethodType : string;
  pmi_Provider : string;
  pmi_Masked : string;
  pmi_Fingerprint : string;
  pmi_FirstUsedAt : option Time;
  pmi_LastUsedAt : option Time }.

Record AttributeInput := {
  ai_Type : string;
  ai_Value : string;
  ai_RawValue : string;
  ai_ConfidenceScore : float }.

Record UserInput := {
  ui_ID : string;
  ui_FullName : string;
  ui_Email : string;
  ui_Phone : string;
  ui_Address : AddressInput;
  ui_DateOfBirth : option Time;
  ui_KYCStatus : string;
  ui_RiskScore : float;
  ui_PaymentMethods : list PaymentMethodInput;
  ui_Attributes : list AttributeInput;
  ui_CreatedAt : option Time;
  ui_UpdatedAt : option Time }.

Record TransactionInput := {
  ti_ID : string;
  ti_SenderUserID : string;
  ti_ReceiverUserID : string;
  ti_Amount : float;
  ti_Currency : string;
  ti_Type : string;
  ti_Status : string;
  ti_Channel : string;
  ti_IPAddress : string;
  ti_DeviceID : string;
  ti_PaymentMethodID : string;
  ti_Timestamp : Time;
  ti_Metadata : Props;
  ti_CreatedAt : option Time;
  ti_UpdatedAt : option Time }.

Definition ToDomainAddress (a : AddressInput) : Domain.Address :=
  {| Domain.Line1 := Line1 a; Domain.Line2 := Line2 a; Domain.City := City a;
     Domain.State := State a; Domain.PostalCode := PostalCode a;
     Domain.Country := Country a |}.

Definition AttributeTypeEmail : string := "EMAIL".
Definition AttributeTypePhone : string := "PHONE".
Definition AttributeTypeAddress : string := "ADDRESS".
Definition AttributeTypeIPAddress : string := "IP".
Definition AttributeTypeDevice : string := "DEVICE".
Definition AttributeTypePayment : string := "PAYMENT_METHOD".
Definition defaultConfidenceScore : float := 1%float.

Definition normalizeEmail (email : string) : string :=
  TrimSpace (ToLower email).

Definition normalizePhone (phone : string) : string :=
  let phone := TrimSpace phone in
  let phone := removeNonDigits phone in
  if String.eqb phone "" then ""
  else
    let phone := if HasPrefix phone "00" then sliceFrom 2 phone else phone in
    let phone := if negb (HasPrefix phone "+") then "+" +:+ phone else phone in
    phone.

Definition normalizeAddress (addr : AddressInput) : string :=
  let components :=
    [ ToLower (TrimSpace (Line1 addr));
      ToLower (TrimSpace (Line2 addr));
      ToLower (TrimSpace (City addr));
      ToLower (TrimSpace (State addr));
      ToLower (TrimSpace (PostalCode addr));
      ToLower (TrimSpace (Country addr)) ] in
  Join components "|".

Definition sanitizeString (v : string) : string :=
  TrimSpace (collapseSpaces false v).

Definition mkAttribute (ty v raw : string) (conf : float) : Domain.Attribute :=
  {| Domain.Type_ := ty; Domain.Value := v; Domain.RawValue := raw;
     Domain.ConfidenceScore := conf |}.

Definition convertCustomAttributes (attrs : list AttributeInput) : list Domain.Attribute :=
  fold_left
    (fun result attr =>
       if String.eqb (ai_Type attr) "" || String.eqb (ai_Value attr) "" then result
       else
         let conf := ai_ConfidenceScore attr in
         let conf := if PrimFloat.eqb conf 0 then defaultConfidenceScore else conf in
         result ++ [mkAttribute (ai_Type attr) (ai_Value attr) (ai_RawValue attr) conf])
    attrs [].

Section Generator.
Context `{GoLib}.

Definition hashValue (v : string) : string := sha256_hex v.

(** The payment-method loop of [FromUser]: [seen] is the map
    [seenPaymentIdentifiers], [attrs] the slice built so far. *)
Fixpoint paymentAttributes (pms : list PaymentMethodInput) (seen : list string)
  (attrs : list Domain.Attribute) : list Domain.Attribute :=
  match pms with
  | [] => attrs
  | pm :: rest =>
      let identifier := TrimSpace (pmi_Fingerprint pm) in
      let identifier := if String.eqb identifier "" then TrimSpace (pmi_ID pm) else identifier in
      if String.eqb identifier "" then paymentAttributes rest seen attrs
      else if existsb (String.eqb identifier) seen then paymentAttributes rest seen attrs
      else paymentAttributes rest (identifier :: seen)
             (attrs ++ [mkAttribute AttributeTypePayment (hashValue identifier) identifier 0.95%float])
  end.

Definition FromUser (input : UserInput) : list Domain.Attribute :=
  let attrs := [] in
  let email := normalizeEmail (ui_Email input) in
  let attrs :=
    if negb (String.eqb email "")
    then attrs ++ [mkAttribute AttributeTypeEmail (hashValue email) email defaultConfidenceScore]
    else attrs in
  let phone := normalizePhone (ui_Phone input) in
  let attrs :=
    if negb (String.eqb phone "")
    then attrs ++ [mkAttribute AttributeTypePhone (hashValue phone) phone defaultConfidenceScore]
    else attrs in
  let addr := normalizeAddress (ui_Address input) in
  let attrs :=
    if negb (String.eqb (Trim addr "|") "")
    then attrs ++ [mkAttribute AttributeTypeAddress (hashValue addr) addr 0.9%float]
    else attrs in
  paymentAttributes (ui_PaymentMethods input) [] attrs.

Definition FromTransaction (input : TransactionInput) : list Domain.Attribute :=
  let attrs := [] in
  let ip := TrimSpace (ti_IPAddress input) in
  let attrs :=
    if negb (String.eqb ip "")
    then attrs ++ [mkAttribute AttributeTypeIPAddress (hashValue ip) ip 0.85%float]
    else attrs in
  let device := TrimSpace (ti_DeviceID input) in
  let attrs :=
    if negb (String.eqb device "")
    then attrs ++ [mkAttribute AttributeTypeDevice (hashValue device) device 0.9%float]
    else attrs in
  let pm := TrimSpace (ti_PaymentMethodID input) in
  let attrs :=
    if negb (String.eqb pm "")
    then attrs ++ [mkAttribute AttributeTypePayment (hashValue pm) pm 0.9%float]
    else attrs in
  attrs ++ [mkAttribute "TX_DAY_BUCKET"
              (hashValue (time_Format (UTC (ti_Timestamp input)) DateOnly))
              (time_Format (UTC (ti_Timestamp input)) RFC3339)
              0.5%float].

(** The [domain.User] that [UpsertUser] builds and hands to the
    repository; [now] is [s.nowFn().UTC()]. *)
Definition userOf (now : Time) (input : UserInput) : Domain.User :=
  let createdAt := match ui_CreatedAt input with Some t => UTC t | None => now end in
  let updatedAt := match ui_UpdatedAt input with Some t => UTC t | None => now end in
  let paymentMethods :=
    map (fun pm =>
           {| Domain.pm_ID := pmi_ID pm;
              Domain.pm_MethodType := pmi_MethodType pm;
              Domain.pm_Provider := pmi_Provider pm;
              Domain.pm_Masked := pmi_Masked pm;
              Domain.pm_Fingerprint := pmi_Fingerprint pm;
              Domain.pm_FirstUsedAt := pmi_FirstUsedAt pm;
              Domain.pm_LastUsedAt := pmi_LastUsedAt pm |})
        (ui_PaymentMethods input) in
  let attrs := FromUser input in
  let attrs :=
    if Nat.ltb 0 (length (ui_Attributes input))
    then attrs ++ convertCustomAttributes (ui_Attributes input)
    else attrs in
  {| Domain.u_ID := ui_ID input;
     Domain.u_FullName := sanitizeString (ui_FullName input);
     Domain.u_Email := normalizeEmail (ui_Email input);
     Domain.u_Phone := normalizePhone (ui_Phone input);
     Domain.u_Address := ToDomainAddress (ui_Address input);
     Domain.u_DateOfBirth := ui_DateOfBirth input;
     Domain.u_KYCStatus := ui_KYCStatus input;
     Domain.u_RiskScore := ui_RiskScore input;
     Domain.u_Attributes := attrs;
     Domain.u_PaymentMethods := paymentMethods;
     Domain.u_CreatedAt := createdAt;
     Domain.u_UpdatedAt := updatedAt |}.

(** The [domain.Transaction] that [UpsertTransaction] builds. *)
Definition transactionOf (now : Time) (input : TransactionInput) : Domain.Transaction :=
  let createdAt := match ti_CreatedAt input with Some t => UTC t | None => now end in
  let updatedAt := match ti_UpdatedAt input with Some t => UTC t | None => now end in
  {| Domain.t_ID := ti_ID input;
     Domain.t_SenderUserID := ti_SenderUserID input;
     Domain.t_ReceiverUserID := ti_ReceiverUserID input;
     Domain.t_Amount := ti_Amount input;
     Domain.t_Currency := ti_Currency input;
     Domain.t_Type := ti_Type input;
     Domain.t_Status := ti_Status input;
     Domain.t_Channel := ti_Channel input;
     Domain.t_IPAddress := ti_IPAddress input;
     Domain.t_DeviceID := ti_DeviceID input;
     Domain.t_PaymentMethodID := ti_PaymentMethodID input;
     Domain.t_Timestamp := UTC (ti_Timestamp input);
     Domain.t_Metadata := ti_Metadata input;
     Domain.t_CreatedAt := createdAt;
     Domain.t_UpdatedAt := updatedAt |}.

End Generator.
End Service.

(** ** Package graph: the client contract *)

Module Graph.

(** [graph.Record] is a [map[string]any]; [graph.Result] a list of them. *)
Record Result := { Records : list Props }.

Definition noResult : Result := {| Records := [] |}.

(** The Cypher statements of the repository, each named as the constant
    that holds its text. *)
Inductive Cypher : Type :=
| upsertUserCypher
| upsertTransactionCypher
| userDirectLinksCypher
| userTransactionsCypher
| userSharedAttributesCypher
| transactionUsersCypher
| transactionLinkedCypher
| shortestPathCypher.

(** A computation against a [graph.Client]: it returns, or calls
    [ExecuteRead] or [ExecuteWrite] with a statement and its parameter map
    and goes on with the [(Result, error)] the client answers. *)
Inductive Prog (A : Type) : Type :=
| Ret (a : A)
| ExecuteRead (cypher : Cypher) (params : Props) (k : Result * option error -> Prog A)
| ExecuteWrite (cypher : Cypher) (params : Props) (k : Result * option error -> Prog A).

Arguments Ret {A} a.
Arguments ExecuteRead {A} cypher params k.
Arguments ExecuteWrite {A} cypher params k.

Fixpoint bind {A B : Type} (p : Prog A) (f : A -> Prog B) : Prog B :=
  match p with
  | Ret a => f a
  | ExecuteRead c ps k => ExecuteRead c ps (fun r => bind (k r) f)
  | ExecuteWrite c ps k => ExecuteWrite c ps (fun r => bind (k r) f)
  end.

(** A program that only reads: no [ExecuteWrite] on any path, whatever the
    client answers. *)
Inductive ReadOnly {A : Type} : Prog A -> Prop :=
| ReadOnly_Ret (a : A) : ReadOnly (Ret a)
| ReadOnly_Read (c : Cypher) (ps : Props) (k : Result * option error -> Prog A) :
    (forall r, ReadOnly (k r)) -> ReadOnly (ExecuteRead c ps k).

(** A program that never calls the client. *)
Definition NoStoreCall {A : Type} (p : Prog A) : Prop := exists a, p = Ret a.

(** The interface [graph.Client], over the client's state. *)
Class Client (C : Type) := {
  clientExecuteWrite : Cypher -> Props -> C -> (Result * option error) * C;
  clientExecuteRead : Cypher -> Props -> C -> (Result * option error) * C;
}.

(** Running a program against a client. *)
Fixpoint run {C : Type} `{Client C} {A : Type} (p : Prog A) (c : C) : A * C :=
  match p with
  | Ret a => (a, c)
  | ExecuteRead cy ps k => let '(r, c') := clientExecuteRead cy ps c in run (k r) c'
  | ExecuteWrite cy ps k => let '(r, c') := clientExecuteWrite cy ps c in run (k r) c'
  end.

(** *** The in-memory client of the unit tests *)

Record ExecutedQuery := { Query : Cypher; Params : Props }.

Record MemoryClient := {
  writeCalls : list ExecutedQuery;
  readCalls : list ExecutedQuery;
  readResults : list Result;
  writeResults : list Result;
  err : option error;
  connectivity : option error }.

Definition NewMemoryClient : MemoryClient :=
  {| writeCalls := []; readCalls := []; readResults := []; writeResults := [];
     err := None; connectivity := None |}.

Definition MemoryClient_ExecuteWrite (cypher : Cypher) (params : Props) (m : MemoryClient)
  : (Result * option error) * MemoryClient :=
  match err m with
  | Some e => ((noResult, Some e), m)
  | None =>
      let calls := writeCalls m ++ [{| Query := cypher; Params := params |}] in
      match writeResults m with
      | [] =>
          ((noResult, None),
           {| writeCalls := calls; readCalls := readCalls m; readResults := readResults m;
              writeResults := []; err := err m; connectivity := connectivity m |})
      | res :: rest =>
          ((res, None),
           {| writeCalls := calls; readCalls := readCalls m; readResults := readResults m;
              writeResults := rest; err := err m; connectivity := connectivity m |})
      end
  end.

Definition MemoryClient_ExecuteRead (cypher : Cypher) (params : Props) (m : MemoryClient)
  : (Result * option error) * MemoryClient :=
  match err m with
  | Some e => ((noResult, Some e), m)
  | None =>
      let calls := readCalls m ++ [{| Query := cypher; Params := params |}] in
      match readResults m with
      | [] =>
          ((noResult, None),
           {| writeCalls := writeCalls m; readCalls := calls; readResults := [];
              writeResults := writeResults m; err := err m; connectivity := connectivity m |})
      | res :: rest =>
          ((res, None),
           {| writeCalls := writeCalls m; readCalls := calls; readResults := rest;
              writeResults := writeResults m; err := err m; connectivity := connectivity m |})
      end
  end.

#[global] Instance MemoryClient_Client : Client MemoryClient :=
  {| clientExecuteWrite := MemoryClient_ExecuteWrite;
     clientExecuteRead := MemoryClient_ExecuteRead |}.

End Graph.

(** ** Package repository *)

Module Repository.
Import Graph.

Section WithGoLib.
Context `{GoLib}.

Definition formatTime (t : Time) : string :=
  if IsZero t then "" else time_Format (UTC t) RFC3339Nano.

Definition formatTimePtr (t : option Time) : string :=
  match t with
  | None => ""
  | Some t' => if IsZero t' then "" else formatTime t'
  end.

Definition serializeMetadata (metadata : Props) : option string := json_Marshal metadata.

Definition userProperties (u : Domain.User) : Props :=
  let props :=
    [ ("fullName", VString (Domain.u_FullName u));
      ("email", VString (Domain.u_Email u));
      ("phone", VString (Domain.u_Phone u));
      ("kycStatus", VString (Domain.u_KYCStatus u));
      ("riskScore", VFloat (Domain.u_RiskScore u));
      ("updatedAt", VString (formatTime (Domain.u_UpdatedAt u))) ] in
  let props :=
    if negb (IsZero (Domain.u_CreatedAt u))
    then put "createdAt" (VString (formatTime (Domain.u_CreatedAt u))) props
    else props in
  let props :=
    match Domain.u_DateOfBirth u with
    | Some dob =>
        if negb (IsZero dob) then put "dateOfBirth" (VString (formatTime dob)) props else props
    | None => props
    end in
  let a := Domain.u_Address u in
  let props := put "addressLine1" (VString (Domain.Line1 a)) props in
  let props := put "addressLine2" (VString (Domain.Line2 a)) props in
  let props := put "addressCity" (VString (Domain.City a)) props in
  let props := put "addressState" (VString (Domain.State a)) props in
  let props := put "addressPostalCode" (VString (Domain.PostalCode a)) props in
  let props := put "addressCountry" (VString (Domain.Country a)) props in
  props.

Definition paymentMethodParams (methods : list Domain.PaymentMethod) : list value :=
  map (fun pm =>
         VMap [ ("id", VString (Domain.pm_ID pm));
                ("props", VMap [ ("methodType", VString (Domain.pm_MethodType pm));
                                 ("provider", VString (Domain.pm_Provider pm));
                                 ("masked", VString (Domain.pm_Masked pm));
                                 ("fingerprint", VString (Domain.pm_Fingerprint pm)) ]);
                ("firstUsedAt", VString (formatTimePtr (Domain.pm_FirstUsedAt pm)));
                ("lastUsedAt", VString (formatTimePtr (Domain.pm_LastUsedAt pm))) ])
      methods.

Definition attributeParam (attr : Domain.Attribute) : value :=
  VMap [ ("type", VString (Domain.Type_ attr));
         ("value", VString (Domain.Value attr));
         ("rawValue", VString (Domain.RawValue attr));
         ("confidence", VFloat (Domain.ConfidenceScore attr));
         ("score", VFloat (Domain.ConfidenceScore attr)) ].

Definition attributeParams (attrs : list Domain.Attribute) : list value :=
  map attributeParam attrs.

Definition transactionProperties (tx : Domain.Transaction) : Props :=
  let props :=
    [ ("amount", VFloat (Domain.t_Amount tx));
      ("currency", VString (Domain.t_Currency tx));
      ("type", VString (Domain.t_Type tx));
      ("status", VString (Domain.t_Status tx));
      ("channel", VString (Domain.t_Channel tx));
      ("ipAddress", VString (Domain.t_IPAddress tx));
      ("deviceId", VString (Domain.t_DeviceID tx));
      ("paymentMethodId", VString (Domain.t_PaymentMethodID tx));
      ("timestamp", VString (formatTime (Domain.t_Timestamp tx)));
      ("updatedAt", VString (formatTime (Domain.t_UpdatedAt tx))) ] in
  let props :=
    if Nat.ltb 0 (length (Domain.t_Metadata tx))
    then match serializeMetadata (Domain.t_Metadata tx) with
         | Some serialized => put "metadataJson" (VString serialized) props
         | None => props
         end
    else props in
  if negb (IsZero (Domain.t_CreatedAt tx))
  then put "createdAt" (VString (formatTime (Domain.t_CreatedAt tx))) props
  else props.

(** [toString]: a string, or a [fmt.Stringer] (a time value prints in the
    layout of [Time.String]); anything else gives the empty string. *)
Definition toString (v : value) : string :=
  match v with
  | VString s => s
  | VTime t => time_Format t "2006-01-02 15:04:05.999999999 -0700 MST"
  | _ => ""
  end.

(** [float64(v)] for an integer of 64 bits; the least one has no
    opposite among the 63-bit integers and is converted on its own. *)
Definition floatOfInt (n : Z) : float :=
  if Z.eqb n (- 2 ^ 63) then (-9223372036854775808)%float
  else if Z.ltb n 0 then PrimFloat.opp (PrimFloat.of_uint63 (Uint63.of_Z (Z.opp n)))
  else PrimFloat.of_uint63 (Uint63.of_Z n).

Definition toFloat64 (v : value) : float :=
  match v with
  | VFloat f => f
  | VInt n => floatOfInt n
  | _ => 0%float
  end.

Definition toTimePtr (v : value) : option Time :=
  match v with
  | VTime t => Some t
  | VString s =>
      if String.eqb s "" then None
      else match time_Parse RFC3339Nano s with
           | Some parsed => Some parsed
           | None => time_Parse RFC3339 s
           end
  | _ => None
  end.

(** The parameter map of [UpsertUser]. *)
Definition upsertUserParams (user : Domain.User) : Props :=
  [ ("userId", VString (Domain.u_ID user));
    ("props", VMap (userProperties user));
    ("attributes", VList (attributeParams (Domain.u_Attributes user)));
    ("paymentMethods", VList (paymentMethodParams (Domain.u_PaymentMethods user))) ].

(** [UpsertUser] ensures a user node exists with the latest metadata and
    attribute edges. *)
Definition UpsertUser (user : Domain.User) : Prog (option error) :=
  if String.eqb (Domain.u_ID user) "" then Ret (Some (errorString "user id is required"))
  else
    let params := upsertUserParams user in
    ExecuteWrite upsertUserCypher params (fun r =>
      match snd r with
      | Some e => Ret (Some (wrapError ("upsert user " +:+ Domain.u_ID user +:+ ": ") e))
      | None => Ret None
      end).

(** The parameter map of [UpsertTransaction]. *)
Definition upsertTransactionParams (tx : Domain.Transaction)
  (attributes : list Domain.Attribute) : Props :=
  [ ("transactionId", VString (Domain.t_ID tx));
    ("senderId", VString (Domain.t_SenderUserID tx));
    ("receiverId", VString (Domain.t_ReceiverUserID tx));
    ("amount", VFloat (Domain.t_Amount tx));
    ("currency", VString (Domain.t_Currency tx));
    ("timestamp", VString (formatTime (Domain.t_Timestamp tx)));
    ("props", VMap (transactionProperties tx));
    ("attributes", VList (attributeParams attributes));
    ("paymentMethodId", VString (Domain.t_PaymentMethodID tx)) ].

(** [UpsertTransaction] ensures a transaction node exists and all
    relationships are refreshed. *)
Definition UpsertTransaction (tx : Domain.Transaction) (attributes : list Domain.Attribute)
  : Prog (option error) :=
  if String.eqb (Domain.t_ID tx) "" then Ret (Some (errorString "transaction id is required"))
  else if String.eqb (Domain.t_SenderUserID tx) "" || String.eqb (Domain.t_ReceiverUserID tx) ""
  then Ret (Some (errorString "both sender and receiver user IDs are required"))
  else
    let params := upsertTransactionParams tx attributes in
    ExecuteWrite upsertTransactionCypher params (fun r =>
      match snd r with
      | Some e => Ret (Some (wrapError ("upsert transaction " +:+ Domain.t_ID tx +:+ ": ") e))
      | None => Ret None
      end).

Definition fetchUserDirectLinks (userID : string) (rel : Domain.UserRelationships)
  : Prog (Domain.UserRelationships * option error) :=
  ExecuteRead userDirectLinksCypher [("userId", VString userID)] (fun r =>
    match snd r with
    | Some e => Ret (rel, Some (wrapError "fetch user direct links: " e))
    | None =>
        let links :=
          map (fun record =>
                 {| Domain.dl_UserID := toString (get "peerId" record);
                    Domain.dl_LinkType := toString (get "linkType" record);
                    Domain.dl_Direction := toString (get "direction" record);
                    Domain.dl_TransactionID := toString (get "transactionId" record);
                    Domain.dl_Amount := toFloat64 (get "amount" record);
                    Domain.dl_Currency := toString (get "currency" record);
                    Domain.dl_Timestamp := toTimePtr (get "timestamp" record) |})
              (Records (fst r)) in
        Ret ({| Domain.ur_UserID := Domain.ur_UserID rel;
                Domain.ur_DirectLinks := Domain.ur_DirectLinks rel ++ links;
                Domain.ur_Transactions := Domain.ur_Transactions rel;
                Domain.ur_SharedAttributes := Domain.ur_SharedAttributes rel |}, None)
    end).

Definition fetchUserTransactions (userID : string) (rel : Domain.UserRelationships)
  : Prog (Domain.UserRelationships * option error) :=
  ExecuteRead userTransactionsCypher [("userId", VString userID)] (fun r =>
    match snd r with
    | Some e => Ret (rel, Some (wrapError "fetch user transactions: " e))
    | None =>
        let links :=
          map (fun record =>
                 {| Domain.ut_TransactionID := toString (get "transactionId" record);
                    Domain.ut_Role := toString (get "role" record);
                    Domain.ut_Amount := toFloat64 (get "amount" record);
                    Domain.ut_Currency := toString (get "currency" record);
                    Domain.ut_Timestamp := toTimePtr (get "timestamp" record) |})
              (Records (fst r)) in
        Ret ({| Domain.ur_UserID := Domain.ur_UserID rel;
                Domain.ur_DirectLinks := Domain.ur_DirectLinks rel;
                Domain.ur_Transactions := Domain.ur_Transactions rel ++ links;
                Domain.ur_SharedAttributes := Domain.ur_SharedAttributes rel |}, None)
    end).

Definition fetchUserSharedAttributes (userID : string) (rel : Domain.UserRelationships)
  : Prog (Domain.UserRelationships * option error) :=
  ExecuteRead userSharedAttributesCypher [("userId", VString userID)] (fun r =>
    match snd r with
    | Some e => Ret (rel, Some (wrapError "fetch shared attributes: " e))
    | None =>
        let links :=
          omap (fun record =>
                  match get "userIds" record with
                  | VList usersRaw =>
                      let userIDs :=
                        filter (fun s => s <> "") (map toString usersRaw) in
                      Some {| Domain.sa_AttributeType := toString (get "attributeType" record);
                              Domain.sa_AttributeHash := toString (get "attributeHash" record);
                              Domain.sa_UserIDs := userIDs |}
                  | _ => None
                  end)
               (Records (fst r)) in
        Ret ({| Domain.ur_UserID := Domain.ur_UserID rel;
                Domain.ur_DirectLinks := Domain.ur_DirectLinks rel;
                Domain.ur_Transactions := Domain.ur_Transactions rel;
                Domain.ur_SharedAttributes := Domain.ur_SharedAttributes rel ++ links |}, None)
    end).

(** [FetchUserRelationships] returns a consolidated view of a user's
    relationships. *)
Definition FetchUserRelationships (userID : string)
  : Prog (Domain.UserRelationships * option error) :=
  if String.eqb userID "" then Ret (Domain.zeroUserRelationships, Some (errorString "user id is required"))
  else
    let relationships :=
      {| Domain.ur_UserID := userID; Domain.ur_DirectLinks := [];
         Domain.ur_Transactions := []; Domain.ur_SharedAttributes := [] |} in
    bind (fetchUserDirectLinks userID relationships) (fun r1 =>
      match snd r1 with
      | Some e => Ret (Domain.zeroUserRelationships, Some e)
      | None =>
          bind (fetchUserTransactions userID (fst r1)) (fun r2 =>
            match snd r2 with
            | Some e => Ret (Domain.zeroUserRelationships, Some e)
            | None =>
                bind (fetchUserSharedAttributes userID (fst r2)) (fun r3 =>
                  match snd r3 with
                  | Some e => Ret (Domain.zeroUserRelationships, Some e)
                  | None => Ret (fst r3, None)
                  end)
            end)
      end).

Definition fetchTransactionUsers (txID : string) (rel : Domain.TransactionRelationships)
  : Prog (Domain.TransactionRelationships * option error) :=
  ExecuteRead transactionUsersCypher [("transactionId", VString txID)] (fun r =>
    match snd r with
    | Some e => Ret (rel, Some (wrapError "fetch transaction users: " e))
    | None =>
        let users :=
          map (fun record =>
                 {| Domain.tu_UserID := toString (get "userId" record);
                    Domain.tu_Role := toString (get "role" record);
                    Domain.tu_Amount := toFloat64 (get "amount" record);
                    Domain.tu_Currency := toString (get "currency" record);
                    Domain.tu_Direction := toString (get "direction" record) |})
              (Records (fst r)) in
        Ret ({| Domain.tr_TransactionID := Domain.tr_TransactionID rel;
                Domain.tr_Users := Domain.tr_Users rel ++ users;
                Domain.tr_LinkedTransactions := Domain.tr_LinkedTransactions rel |}, None)
    end).

Definition linkedTransactionOf (record : Props) : Domain.LinkedTransaction :=
  {| Domain.lt_TransactionID := toString (get "otherTransactionId" record);
     Domain.lt_LinkType := toString (get "linkType" record);
     Domain.lt_AttributeHash := toString (get "attributeHash" record);
     Domain.lt_Score := toFloat64 (get "score" record);
     Domain.lt_LastUpdated := toTimePtr (get "updatedAt" record) |}.

Definition fetchLinkedTransactions (txID : string) (rel : Domain.TransactionRelationships)
  : Prog (Domain.TransactionRelationships * option error) :=
  ExecuteRead transactionLinkedCypher [("transactionId", VString txID)] (fun r =>
    match snd r with
    | Some e => Ret (rel, Some (wrapError "fetch linked transactions: " e))
    | None =>
        Ret ({| Domain.tr_TransactionID := Domain.tr_TransactionID rel;
                Domain.tr_Users := Domain.tr_Users rel;
                Domain.tr_LinkedTransactions :=
                  Domain.tr_LinkedTransactions rel ++ map linkedTransactionOf (Records (fst r)) |},
             None)
    end).

(** [FetchTransactionRelationships] returns relationships for a given
    transaction. *)
Definition FetchTransactionRelationships (txID : string)
  : Prog (Domain.TransactionRelationships * option error) :=
  if String.eqb txID ""
  then Ret (Domain.zeroTransactionRelationships, Some (errorString "transaction id is required"))
  else
    let result :=
      {| Domain.tr_TransactionID := txID; Domain.tr_Users := [];
         Domain.tr_LinkedTransactions := [] |} in
    bind (fetchTransactionUsers txID result) (fun r1 =>
      match snd r1 with
      | Some e => Ret (Domain.zeroTransactionRelationships, Some e)
      | None =>
          bind (fetchLinkedTransactions txID (fst r1)) (fun r2 =>
            match snd r2 with
            | Some e => Ret (Domain.zeroTransactionRelationships, Some e)
            | None => Ret (fst r2, None)
            end)
      end).

Definition pathNodeOf (n : value) : option Domain.PathNode :=
  match n with
  | VMap nodeMap =>
      Some {| Domain.pn_ID := toString (get "id" nodeMap);
              Domain.pn_Type := toString (get "type" nodeMap);
              Domain.pn_Label := toString (get "label" nodeMap);
              Domain.pn_Weight := toFloat64 (get "weight" nodeMap) |}
  | _ => None
  end.

Definition pathEdgeOf (e : value) : option Domain.PathEdge :=
  match e with
  | VMap edgeMap =>
      Some {| Domain.pe_Type := toString (get "type" edgeMap);
              Domain.pe_Source := toString (get "sourceId" edgeMap);
              Domain.pe_Target := toString (get "targetId" edgeMap);
              Domain.pe_Label := toString (get "label" edgeMap);
              Domain.pe_Weight := toFloat64 (get "weight" edgeMap) |}
  | _ => None
  end.

(** [ShortestPathBetweenUsers] finds the shortest path between two users
    if one exists. *)
Definition ShortestPathBetweenUsers (sourceID targetID : string)
  : Prog (Domain.ShortestPath * option error) :=
  if String.eqb sourceID "" || String.eqb targetID ""
  then Ret (Domain.zeroShortestPath, Some (errorString "source and target user IDs are required"))
  else if String.eqb sourceID targetID
  then Ret ({| Domain.sp_SourceUserID := sourceID;
               Domain.sp_TargetUserID := targetID;
               Domain.sp_Nodes :=
                 [ {| Domain.pn_ID := sourceID; Domain.pn_Type := "User";
                      Domain.pn_Label := sourceID; Domain.pn_Weight := 0%float |} ];
               Domain.sp_Edges := [];
               Domain.sp_Hops := 0 |}, None)
  else
    let params := [ ("sourceId", VString sourceID); ("targetId", VString targetID) ] in
    ExecuteRead shortestPathCypher params (fun r =>
      match snd r with
      | Some e => Ret (Domain.zeroShortestPath, Some (wrapError "shortest path query: " e))
      | None =>
          match Records (fst r) with
          | [] =>
              Ret ({| Domain.sp_SourceUserID := sourceID; Domain.sp_TargetUserID := targetID;
                      Domain.sp_Nodes := []; Domain.sp_Edges := []; Domain.sp_Hops := 0 |}, None)
          | record :: _ =>
              let nodes :=
                match get "nodes" record with
                | VList nodesRaw => omap pathNodeOf nodesRaw
                | _ => []
                end in
              let edges :=
                match get "edges" record with
                | VList edgesRaw => omap pathEdgeOf edgesRaw
                | _ => []
                end in
              let hops :=
                if has "hops" record
                then match get "hops" record with VInt v => v | _ => 0%Z end
                else 0%Z in
              Ret ({| Domain.sp_SourceUserID := sourceID; Domain.sp_TargetUserID := targetID;
                      Domain.sp_Nodes := nodes; Domain.sp_Edges := edges;
                      Domain.sp_Hops := hops |}, None)
          end
      end).

End WithGoLib.
End Repository.

(** ** The graph store

    The database behind the Bolt driver, as far as the repository's
    statements can tell: a property graph, and what each statement does to
    it. Nodes are created by [MERGE] on their business key only, so a node
    is identified by its label and key; a relationship by its type, its end
    nodes and the properties of its [MERGE] pattern. No [SET] of the
    statements writes a key property. *)

Module Store.
Import Graph.

Inductive NodeId : Type :=
| NUser (userId : string)
| NTransaction (transactionId : string)
| NAttribute (attributeType value : string)
| NPaymentMethod (paymentMethodId : string).

#[global] Instance NodeId_eq_dec : EqDecision NodeId.
Proof. solve_decision. Defined.

Inductive RelType : Type :=
| SENT_TO | RECEIVED_FROM | HAS_ATTRIBUTE | PARTICIPATED_IN
| LINKED_TO | USES_PAYMENT_METHOD | PAYMENT_METHOD_RELATES.

#[global] Instance RelType_eq_dec : EqDecision RelType.
Proof. solve_decision. Defined.

Record RelId := {
  rtype : RelType;
  rsrc : NodeId;
  rdst : NodeId;
  rkey : list (string * string) }.

#[global] Instance RelId_eq_dec : EqDecision RelId.
Proof. solve_decision. Defined.

Record PropertyGraph := {
  nodes : list (NodeId * Props);
  rels : list (RelId * Props) }.

Definition emptyGraph : PropertyGraph := {| nodes := []; rels := [] |}.

Definition nodeIds (g : PropertyGraph) : list NodeId := map fst (nodes g).
Definition relIds (g : PropertyGraph) : list RelId := map fst (rels g).

Definition nodeCount (g : PropertyGraph) : nat := length (nodes g).
Definition relCount (g : PropertyGraph) : nat := length (rels g).

(** *** Clauses *)

Inductive Op : Type :=
| MergeNode (n : NodeId)               (* MERGE (n:Label {key}) *)
| SetNode (n : NodeId) (kvs : Props)   (* SET n.k = v, ... / SET n += map *)
| MergeRel (r : RelId)                 (* MERGE (a)-[r:TYPE {key}]->(b) *)
| SetRel (r : RelId) (kvs : Props).    (* SET r.k = v, ... *)

Definition assign (kvs old : Props) : Props :=
  fold_left (fun m kv => put (fst kv) (snd kv) m) kvs old.

Definition applyOp (op : Op) (g : PropertyGraph) : PropertyGraph :=
  match op with
  | MergeNode n =>
      if decide (n ∈ nodeIds g) then g
      else {| nodes := nodes g ++ [(n, [])]; rels := rels g |}
  | SetNode n kvs =>
      {| nodes := map (fun e => if decide (fst e = n) then (fst e, assign kvs (snd e)) else e)
                      (nodes g);
         rels := rels g |}
  | MergeRel r =>
      if decide (r ∈ relIds g) then g
      else {| nodes := nodes g; rels := rels g ++ [(r, [])] |}
  | SetRel r kvs =>
      {| nodes := nodes g;
         rels := map (fun e => if decide (fst e = r) then (fst e, assign kvs (snd e)) else e)
                     (rels g) |}
  end.

Definition runOps (ops : list Op) (g : PropertyGraph) : PropertyGraph :=
  fold_left (fun g op => applyOp op g) ops g.

(** *** Reading parameters and properties *)

Definition str (v : value) : string := match v with VString s => s | _ => "" end.
Definition items (v : value) : list value := match v with VList l => l | _ => [] end.
Definition fields (v : value) : Props := match v with VMap m => m | _ => [] end.

Definition typeName (t : RelType) : string :=
  match t with
  | SENT_TO => "SENT_TO"
  | RECEIVED_FROM => "RECEIVED_FROM"
  | HAS_ATTRIBUTE => "HAS_ATTRIBUTE"
  | PARTICIPATED_IN => "PARTICIPATED_IN"
  | LINKED_TO => "LINKED_TO"
  | USES_PAYMENT_METHOD => "USES_PAYMENT_METHOD"
  | PAYMENT_METHOD_RELATES => "PAYMENT_METHOD_RELATES"
  end.

Definition labelName (n : NodeId) : string :=
  match n with
  | NUser _ => "User"
  | NTransaction _ => "Transaction"
  | NAttribute _ _ => "Attribute"
  | NPaymentMethod _ => "PaymentMethod"
  end.

Definition keyProps (n : NodeId) : list (string * string) :=
  match n with
  | NUser u => [("userId", u)]
  | NTransaction t => [("transactionId", t)]
  | NAttribute ty v => [("attributeType", ty); ("value", v)]
  | NPaymentMethod p => [("paymentMethodId", p)]
  end.

Fixpoint keyGet (key : string) (kvs : list (string * string)) : option string :=
  match kvs with
  | [] => None
  | (k, v) :: rest => if String.eqb k key then Some v else keyGet key rest
  end.

Definition propsOfNode (g : PropertyGraph) (n : NodeId) : Props :=
  match find (fun e => bool_decide (fst e = n)) (nodes g) with
  | Some e => snd e
  | None => []
  end.

(** [n.key] *)
Definition nodeProp (g : PropertyGraph) (n : NodeId) (key : string) : value :=
  match keyGet key (keyProps n) with
  | Some s => VString s
  | None => get key (propsOfNode g n)
  end.

(** [r.key] *)
Definition relProp (r : RelId * Props) (key : string) : value :=
  match keyGet key (rkey (fst r)) with
  | Some s => VString s
  | None => get key (snd r)
  end.

Fixpoint coalesce (vs : list value) : value :=
  match vs with
  | [] => VNull
  | VNull :: rest => coalesce rest
  | v :: _ => v
  end.

Definition mkRel (t : RelType) (a b : NodeId) (key : list (string * string)) : RelId :=
  {| rtype := t; rsrc := a; rdst := b; rkey := key |}.

(** *** upsertUserCypher
<<
MERGE (u:User {userId: $userId})
SET u += $props
WITH u
FOREACH (attr IN $attributes |
    MERGE (a:Attribute {attributeType: attr.type, value: attr.value})
    SET a.rawValue = attr.rawValue
    MERGE (u)-[ha:HAS_ATTRIBUTE]->(a)
    SET ha.confidenceScore = attr.confidence )
FOREACH (pm IN $paymentMethods |
    MERGE (p:PaymentMethod {paymentMethodId: pm.id})
    SET p += pm.props
    MERGE (u)-[upm:USES_PAYMENT_METHOD]->(p)
    SET upm.firstUsedAt = pm.firstUsedAt
    SET upm.lastUsedAt = pm.lastUsedAt )
RETURN u.userId AS userId
>> *)

Definition attributeNode (attr : Props) : NodeId :=
  NAttribute (str (get "type" attr)) (str (get "value" attr)).

Definition userAttributeOps (u : NodeId) (attr : Props) : list Op :=
  let a := attributeNode attr in
  let ha := mkRel HAS_ATTRIBUTE u a [] in
  [ MergeNode a;
    SetNode a [("rawValue", get "rawValue" attr)];
    MergeRel ha;
    SetRel ha [("confidenceScore", get "confidence" attr)] ].

Definition userPaymentMethodOps (u : NodeId) (pm : Props) : list Op :=
  let p := NPaymentMethod (str (get "id" pm)) in
  let upm := mkRel USES_PAYMENT_METHOD u p [] in
  [ MergeNode p;
    SetNode p (fields (get "props" pm));
    MergeRel upm;
    SetRel upm [("firstUsedAt", get "firstUsedAt" pm)];
    SetRel upm [("lastUsedAt", get "lastUsedAt" pm)] ].

Definition upsertUserOps (params : Props) : list Op :=
  let u := NUser (str (get "userId" params)) in
  [ MergeNode u; SetNode u (fields (get "props" params)) ]
  ++ flat_map (fun attr => userAttributeOps u (fields attr)) (items (get "attributes" params))
  ++ flat_map (fun pm => userPaymentMethodOps u (fields pm)) (items (get "paymentMethods" params)).

Definition execUpsertUser (params : Props) (g : PropertyGraph) : PropertyGraph * list Props :=
  (runOps (upsertUserOps params) g, [ [("userId", get "userId" params)] ]).

(** *** upsertTransactionCypher
<<
MATCH (sender:User {userId: $senderId})
MATCH (receiver:User {userId: $receiverId})
MERGE (t:Transaction {transactionId: $transactionId})
SET t += $props
MERGE (sender)-[ps:PARTICIPATED_IN {transactionId: $transactionId, role: 'SENDER'}]->(t)
SET ps.amount = $amount, ps.currency = $currency, ps.timestamp = $timestamp
MERGE (receiver)-[pr:PARTICIPATED_IN {transactionId: $transactionId, role: 'RECEIVER'}]->(t)
SET pr.amount = $amount, pr.currency = $currency, pr.timestamp = $timestamp
MERGE (sender)-[st:SENT_TO {transactionId: $transactionId}]->(receiver)
SET st.amount = $amount, st.currency = $currency, st.timestamp = $timestamp
MERGE (receiver)-[rt:RECEIVED_FROM {transactionId: $transactionId}]->(sender)
SET rt.amount = $amount, rt.currency = $currency, rt.timestamp = $timestamp
FOREACH (attr IN $attributes |
    MERGE (a:Attribute {attributeType: attr.type, value: attr.value})
    SET a.rawValue = attr.rawValue
    MERGE (t)-[hta:HAS_ATTRIBUTE]->(a)
    SET hta.origin = 'TRANSACTION' )
WITH t, $attributes AS attrs
UNWIND attrs AS attr
MATCH (a:Attribute {attributeType: attr.type, value: attr.value})
OPTIONAL MATCH (other:Transaction)-[:HAS_ATTRIBUTE]->(a)
WHERE other.transactionId <> $transactionId
WITH t, attr, collect(DISTINCT other) AS others
UNWIND others AS otherTx
MERGE (t)-[lt:LINKED_TO {attributeHash: attr.value, linkType: attr.type}]->(otherTx)
SET lt.score = attr.score, lt.updatedAt = datetime()
WITH DISTINCT t, $paymentMethodId AS pmId
OPTIONAL MATCH (pm:PaymentMethod {paymentMethodId: pmId})
FOREACH (_ IN CASE WHEN pmId = '' OR pm IS NULL THEN [] ELSE [1] END |
    MERGE (t)-[pmr:PAYMENT_METHOD_RELATES]->(pm)
    SET pmr.role = 'SENDER' )
RETURN t.transactionId AS transactionId
>>
    The two [MATCH] clauses give no row when a user node is missing, and
    then nothing below them runs: the statement succeeds with no record.
    After the second [UNWIND] there is one row per attribute and other
    transaction holding it; with no such row, the clauses from
    [WITH DISTINCT] on run on no row either. Rows of equal attribute maps
    are grouped by the [WITH]; merging and setting the same relationship
    once more gives the same graph, so the rows are taken one by one. *)

Definition transactionAttributeOps (t : NodeId) (attr : Props) : list Op :=
  let a := attributeNode attr in
  let hta := mkRel HAS_ATTRIBUTE t a [] in
  [ MergeNode a;
    SetNode a [("rawValue", get "rawValue" attr)];
    MergeRel hta;
    SetRel hta [("origin", VString "TRANSACTION")] ].

Definition upsertTransactionOps (params : Props) : list Op :=
  let tid := str (get "transactionId" params) in
  let sender := NUser (str (get "senderId" params)) in
  let receiver := NUser (str (get "receiverId" params)) in
  let t := NTransaction tid in
  let money :=
    [ ("amount", get "amount" params);
      ("currency", get "currency" params);
      ("timestamp", get "timestamp" params) ] in
  let ps := mkRel PARTICIPATED_IN sender t [("transactionId", tid); ("role", "SENDER")] in
  let pr := mkRel PARTICIPATED_IN receiver t [("transactionId", tid); ("role", "RECEIVER")] in
  let st := mkRel SENT_TO sender receiver [("transactionId", tid)] in
  let rt := mkRel RECEIVED_FROM receiver sender [("transactionId", tid)] in
  [ MergeNode t; SetNode t (fields (get "props" params));
    MergeRel ps; SetRel ps money;
    MergeRel pr; SetRel pr money;
    MergeRel st; SetRel st money;
    MergeRel rt; SetRel rt money ]
  ++ flat_map (fun attr => transactionAttributeOps t (fields attr))
              (items (get "attributes" params)).

(** [collect(DISTINCT other)] for one attribute: the transactions other
    than [tid] with a [HAS_ATTRIBUTE] relationship to the attribute node. *)
Definition othersWith (tid : string) (a : NodeId) (rs : list RelId) : list string :=
  remove_dups
    (flat_map (fun r =>
                 match rsrc r with
                 | NTransaction other =>
                     if bool_decide (rtype r = HAS_ATTRIBUTE) && bool_decide (rdst r = a)
                        && negb (String.eqb other tid)
                     then [other] else []
                 | _ => []
                 end) rs).

(** The rows after [UNWIND others AS otherTx]. *)
Definition linkRows (tid : string) (attrs : list Props) (rs : list RelId)
  : list (Props * string) :=
  flat_map (fun attr => map (fun other => (attr, other)) (othersWith tid (attributeNode attr) rs))
           attrs.

Definition linkOps (now : Time) (tid : string) (row : Props * string) : list Op :=
  let attr := fst row in
  let lt := mkRel LINKED_TO (NTransaction tid) (NTransaction (snd row))
                  [ ("attributeHash", str (get "value" attr));
                    ("linkType", str (get "type" attr)) ] in
  [ MergeRel lt; SetRel lt [("score", get "score" attr); ("updatedAt", VTime now)] ].

Definition paymentMethodOps (tid pmId : string) (g : PropertyGraph) : list Op :=
  let pmr := mkRel PAYMENT_METHOD_RELATES (NTransaction tid) (NPaymentMethod pmId) [] in
  if String.eqb pmId "" || negb (bool_decide (NPaymentMethod pmId ∈ nodeIds g)) then []
  else [ MergeRel pmr; SetRel pmr [("role", VString "SENDER")] ].

Definition execUpsertTransaction (now : Time) (params : Props) (g : PropertyGraph)
  : PropertyGraph * list Props :=
  let tid := str (get "transactionId" params) in
  let sender := NUser (str (get "senderId" params)) in
  let receiver := NUser (str (get "receiverId" params)) in
  if bool_decide (sender ∈ nodeIds g) && bool_decide (receiver ∈ nodeIds g)
  then
    let g1 := runOps (upsertTransactionOps params) g in
    let rows := linkRows tid (map fields (items (get "attributes" params))) (relIds g1) in
    let g2 := runOps (flat_map (linkOps now tid) rows) g1 in
    match rows with
    | [] => (g2, [])
    | _ :: _ =>
        let pmId := str (get "paymentMethodId" params) in
        (runOps (paymentMethodOps tid pmId g2) g2, [ [("transactionId", VString tid)] ])
    end
  else (g, []).

(** *** The read statements *)

(** [userDirectLinksCypher]:
<<
MATCH (u:User {userId: $userId})-[r:SENT_TO|RECEIVED_FROM]->(peer:User)
RETURN peer.userId AS peerId, type(r) AS linkType,
       CASE WHEN type(r) = 'SENT_TO' THEN 'OUTBOUND' ELSE 'INBOUND' END AS direction,
       r.transactionId AS transactionId, r.amount AS amount,
       r.currency AS currency, r.timestamp AS timestamp
>> *)
Definition evalUserDirectLinks (params : Props) (g : PropertyGraph) : list Props :=
  let u := NUser (str (get "userId" params)) in
  flat_map (fun r =>
    match rdst (fst r) with
    | NUser peer =>
        if bool_decide (rsrc (fst r) = u)
           && (bool_decide (rtype (fst r) = SENT_TO) || bool_decide (rtype (fst r) = RECEIVED_FROM))
        then [ [ ("peerId", VString peer);
                 ("linkType", VString (typeName (rtype (fst r))));
                 ("direction",
                  VString (if bool_decide (rtype (fst r) = SENT_TO) then "OUTBOUND" else "INBOUND"));
                 ("transactionId", relProp r "transactionId");
                 ("amount", relProp r "amount");
                 ("currency", relProp r "currency");
                 ("timestamp", relProp r "timestamp") ] ]
        else []
    | _ => []
    end) (rels g).

(** [userTransactionsCypher]:
<<
MATCH (u:User {userId: $userId})-[rel:PARTICIPATED_IN]->(t:Transaction)
RETURN t.transactionId AS transactionId, rel.role AS role, t.amount AS amount,
       t.currency AS currency, t.timestamp AS timestamp
>> *)
Definition evalUserTransactions (params : Props) (g : PropertyGraph) : list Props :=
  let u := NUser (str (get "userId" params)) in
  flat_map (fun r =>
    match rdst (fst r) with
    | NTransaction tid =>
        if bool_decide (rsrc (fst r) = u) && bool_decide (rtype (fst r) = PARTICIPATED_IN)
        then [ [ ("transactionId", VString tid);
                 ("role", relProp r "role");
                 ("amount", nodeProp g (NTransaction tid) "amount");
                 ("currency", nodeProp g (NTransaction tid) "currency");
                 ("timestamp", nodeProp g (NTransaction tid) "timestamp") ] ]
        else []
    | _ => []
    end) (rels g).

(** [userSharedAttributesCypher]:
<<
MATCH (u:User {userId: $userId})-[:HAS_ATTRIBUTE]->(a:Attribute)<-[:HAS_ATTRIBUTE]-(other:User)
WHERE other.userId <> $userId
RETURN a.attributeType AS attributeType, a.value AS attributeHash,
       collect(DISTINCT other.userId) AS userIds
>>
    One record per attribute of the user that some other user holds. *)
Definition usersWith (uid : string) (a : NodeId) (rs : list RelId) : list string :=
  remove_dups
    (flat_map (fun r =>
                 match rsrc r with
                 | NUser other =>
                     if bool_decide (rtype r = HAS_ATTRIBUTE) && bool_decide (rdst r = a)
                        && negb (String.eqb other uid)
                     then [other] else []
                 | _ => []
                 end) rs).

Definition evalUserSharedAttributes (params : Props) (g : PropertyGraph) : list Props :=
  let uid := str (get "userId" params) in
  let mine :=
    remove_dups
      (flat_map (fun r =>
                   match rdst r with
                   | NAttribute ty v =>
                       if bool_decide (rsrc r = NUser uid) && bool_decide (rtype r = HAS_ATTRIBUTE)
                       then [(ty, v)] else []
                   | _ => []
                   end) (relIds g)) in
  flat_map (fun a =>
    match usersWith uid (NAttribute (fst a) (snd a)) (relIds g) with
    | [] => []
    | others =>
        [ [ ("attributeType", VString (fst a));
            ("attributeHash", VString (snd a));
            ("userIds", VList (map VString others)) ] ]
    end) mine.

(** [transactionUsersCypher]:
<<
MATCH (t:Transaction {transactionId: $transactionId})<-[rel:PARTICIPATED_IN]-(user:User)
RETURN user.userId AS userId, rel.role AS role, rel.amount AS amount,
       rel.currency AS currency,
       CASE WHEN rel.role = 'SENDER' THEN 'OUTBOUND' ELSE 'INBOUND' END AS direction
>> *)
Definition evalTransactionUsers (params : Props) (g : PropertyGraph) : list Props :=
  let t := NTransaction (str (get "transactionId" params)) in
  flat_map (fun r =>
    match rsrc (fst r) with
    | NUser uid =>
        if bool_decide (rdst (fst r) = t) && bool_decide (rtype (fst r) = PARTICIPATED_IN)
        then [ [ ("userId", VString uid);
                 ("role", relProp r "role");
                 ("amount", relProp r "amount");
                 ("currency", relProp r "currency");
                 ("direction",
                  VString (if String.eqb (str (relProp r "role")) "SENDER"
                           then "OUTBOUND" else "INBOUND")) ] ]
        else []
    | _ => []
    end) (rels g).

(** [transactionLinkedCypher]:
<<
MATCH (t:Transaction {transactionId: $transactionId})-[link:LINKED_TO]->(other:Transaction)
RETURN other.transactionId AS otherTransactionId, link.linkType AS linkType,
       link.attributeHash AS attributeHash, link.score AS score,
       link.updatedAt AS updatedAt
>> *)
Definition evalTransactionLinked (params : Props) (g : PropertyGraph) : list Props :=
  let t := NTransaction (str (get "transactionId" params)) in
  flat_map (fun r =>
    match rdst (fst r) with
    | NTransaction other =>
        if bool_decide (rsrc (fst r) = t) && bool_decide (rtype (fst r) = LINKED_TO)
        then [ [ ("otherTransactionId", VString other);
                 ("linkType", relProp r "linkType");
                 ("attributeHash", relProp r "attributeHash");
                 ("score", relProp r "score");
                 ("updatedAt", relProp r "updatedAt") ] ]
        else []
    | _ => []
    end) (rels g).

(** [shortestPathCypher]:
<<
MATCH (source:User {userId: $sourceId}), (target:User {userId: $targetId})
MATCH path = shortestPath((source)-[:SENT_TO|RECEIVED_FROM|HAS_ATTRIBUTE|PARTICIPATED_IN
                                     |LINKED_TO|USES_PAYMENT_METHOD|PAYMENT_METHOD_RELATES*..6]-(target))
RETURN [n IN nodes(path) | { id: coalesce(n.userId, n.transactionId, n.paymentMethodId, n.value, ...),
                             label: coalesce(n.userId, n.transactionId, n.attributeType,
                                             n.paymentMethodId, n.value),
                             type: head(labels(n)), weight: 1.0 }] AS nodes,
       [rel IN relationships(path) | { type: type(rel), sourceId: ..., targetId: ...,
                                       label: type(rel), weight: 1.0 }] AS edges,
       length(path) AS hops
>>
    The pattern names every relationship type of the graph and no
    direction. Which of several shortest paths comes back is the store's
    choice; this one takes the first in the order of the relationships. *)
Definition incident (rs : list RelId) (n : NodeId) : list (RelId * NodeId) :=
  flat_map (fun r =>
              (if bool_decide (rsrc r = n) then [(r, rdst r)] else [])
              ++ (if bool_decide (rdst r = n) then [(r, rsrc r)] else [])) rs.

Fixpoint pathsOfLength (rs : list RelId) (k : nat) (from target : NodeId) (used : list RelId)
  : list (list (RelId * NodeId)) :=
  match k with
  | O => if bool_decide (from = target) then [[]] else []
  | S k' =>
      flat_map (fun step =>
                  if bool_decide (fst step ∈ used) then []
                  else map (cons step) (pathsOfLength rs k' (snd step) target (fst step :: used)))
               (incident rs from)
  end.

Definition shortestPath (rs : list RelId) (source target : NodeId)
  : option (list (RelId * NodeId)) :=
  head (flat_map (fun k => pathsOfLength rs k source target []) (seq 1 6)).

Definition pathId (g : PropertyGraph) (n : NodeId) : value :=
  coalesce [ nodeProp g n "userId"; nodeProp g n "transactionId";
             nodeProp g n "paymentMethodId"; nodeProp g n "value" ].

Definition pathNodeMap (g : PropertyGraph) (n : NodeId) : value :=
  VMap [ ("id", pathId g n);
         ("label", coalesce [ nodeProp g n "userId"; nodeProp g n "transactionId";
                              nodeProp g n "attributeType"; nodeProp g n "paymentMethodId";
                              nodeProp g n "value" ]);
         ("type", VString (labelName n));
         ("weight", VFloat 1%float) ].

Definition pathEdgeMap (g : PropertyGraph) (r : RelId) : value :=
  VMap [ ("type", VString (typeName (rtype r)));
         ("sourceId", pathId g (rsrc r));
         ("targetId", pathId g (rdst r));
         ("label", VString (typeName (rtype r)));
         ("weight", VFloat 1%float) ].

Definition evalShortestPath (params : Props) (g : PropertyGraph) : list Props :=
  let source := NUser (str (get "sourceId" params)) in
  let target := NUser (str (get "targetId" params)) in
  if bool_decide (source ∈ nodeIds g) && bool_decide (target ∈ nodeIds g)
  then match shortestPath (relIds g) source target with
       | Some path =>
           [ [ ("nodes", VList (map (pathNodeMap g) (source :: map snd path)));
               ("edges", VList (map (fun step => pathEdgeMap g (fst step)) path));
               ("hops", VInt (Z.of_nat (length path))) ] ]
       | None => []
       end
  else [].

(** *** The store as a client

    [failure] is what the driver reports instead of running a statement
    (connectivity lost, context done); [clock] is the store's
    [datetime()]. A read session runs the read statements and refuses the
    two upserts; a write session runs any statement. *)

Record GraphStore := {
  graph : PropertyGraph;
  failure : option error;
  clock : Time }.

Definition evalRead (cypher : Cypher) (params : Props) (g : PropertyGraph)
  : option (list Props) :=
  match cypher with
  | upsertUserCypher | upsertTransactionCypher => None
  | userDirectLinksCypher => Some (evalUserDirectLinks params g)
  | userTransactionsCypher => Some (evalUserTransactions params g)
  | userSharedAttributesCypher => Some (evalUserSharedAttributes params g)
  | transactionUsersCypher => Some (evalTransactionUsers params g)
  | transactionLinkedCypher => Some (evalTransactionLinked params g)
  | shortestPathCypher => Some (evalShortestPath params g)
  end.

Definition execWrite (now : Time) (cypher : Cypher) (params : Props) (g : PropertyGraph)
  : PropertyGraph * list Props :=
  match cypher with
  | upsertUserCypher => execUpsertUser params g
  | upsertTransactionCypher => execUpsertTransaction now params g
  | _ => (g, default [] (evalRead cypher params g))
  end.

Definition GraphStore_ExecuteWrite (cypher : Cypher) (params : Props) (s : GraphStore)
  : (Result * option error) * GraphStore :=
  match failure s with
  | Some e => ((noResult, Some e), s)
  | None =>
      let '(g', records) := execWrite (clock s) cypher params (graph s) in
      (({| Records := records |}, None),
       {| graph := g'; failure := failure s; clock := clock s |})
  end.

Definition GraphStore_ExecuteRead (cypher : Cypher) (params : Props) (s : GraphStore)
  : (Result * option error) * GraphStore :=
  match failure s with
  | Some e => ((noResult, Some e), s)
  | None =>
      match evalRead cypher params (graph s) with
      | Some records => (({| Records := records |}, None), s)
      | None => ((noResult, Some (errorString "writing in read access mode not allowed")), s)
      end
  end.

#[global] Instance GraphStore_Client : Client GraphStore :=
  {| clientExecuteWrite := GraphStore_ExecuteWrite;
     clientExecuteRead := GraphStore_ExecuteRead |}.

End Store.

(** ** Package service: the relationship service

    [now] stands for [s.nowFn().UTC()]; the repository behind the
    [GraphRepository] interface is [repository.Repository]. *)

Module RelationshipService.
Import Graph.

Section WithGoLib.
Context `{GoLib}.

(** [UpsertUser] ingests a user payload, derives attributes, and persists
    graph mutations. *)
Definition UpsertUser (now : Time) (input : Service.UserInput) : Prog (option error) :=
  if String.eqb (Service.ui_ID input) "" then Ret (Some (errorString "user ID is required"))
  else Repository.UpsertUser (Service.userOf now input).

(** [UpsertTransaction] ingests a transaction payload, deriving edges and
    attributes before persisting. *)
Definition UpsertTransaction (now : Time) (input : Service.TransactionInput)
  : Prog (option error) :=
  if String.eqb (Service.ti_ID input) ""
  then Ret (Some (errorString "transaction ID is required"))
  else if String.eqb (Service.ti_SenderUserID input) ""
          || String.eqb (Service.ti_ReceiverUserID input) ""
  then Ret (Some (errorString "sender and receiver user IDs are required"))
  else
    let tx := Service.transactionOf now input in
    let attrs := Service.FromTransaction input in
    Repository.UpsertTransaction tx attrs.


Definition GetTransactionRelationships (txID : string) :=
  Repository.FetchTransactionRelationships txID.

Definition GetShortestPathBetweenUsers (sourceID targetID : string)
  : Prog (Domain.ShortestPath * option error) :=
  let sourceID := Service.sanitizeString sourceID in
  let targetID := Service.sanitizeString targetID in
  if String.eqb sourceID "" || String.eqb targetID ""
  then Ret (Domain.zeroShortestPath,
            Some (errorString "sourceUserId and targetUserId are required"))
  else Repository.ShortestPathBetweenUsers sourceID targetID.

End WithGoLib.
End RelationshipService.

(** ** Package service: the bulk ingestor

    [run] starts [workers] goroutines that receive indices from the
    unbuffered [indexCh], call [workerFn] and send a non-nil error to
    [errCh], whose buffer holds [total] errors, so that a send never
    blocks. The main goroutine offers the indices in order, each in a
    [select] against [ctx.Done()], closes [indexCh], waits for the workers
    and reads [errCh].

    The interleaving of the goroutines, the moment the context is done and
    the case a [select] takes when two are ready are not decided by the
    program: a run is driven by a schedule, a list of events, and an event
    the program cannot take at that point makes the schedule invalid. The
    store is the one resource the workers share; a call of [workerFn] is one
    step on it. *)

Module BulkIngestor.

Inductive Worker : Type :=
| Idle                      (* blocked in [for idx := range indexCh] *)
| Busy (idx : nat)          (* received [idx], about to call [workerFn(idx)] *)
| Reporting (err : error)   (* [workerFn] returned [err], at the [select] *)
| Returned.                 (* left by [case <-ctx.Done(): return] *)

Inductive Event : Type :=
| CtxDone                         (* the context is cancelled or its deadline passes *)
| Dispatch (w : nat)              (* [case indexCh <- i], received by worker [w] *)
| Break                           (* [case <-ctx.Done(): break Loop] *)
| Work (w : nat)                  (* worker [w] runs [workerFn(idx)] *)
| Report (w : nat) (sent : bool). (* worker [w]: [case errCh <- err] or [case <-ctx.Done()] *)

Record Pool (S : Type) := {
  next : nat;                     (* the loop variable [i] *)
  broke : bool;                   (* [break Loop] was taken *)
  ctxDone : bool;                 (* [ctx.Done()] is closed *)
  workers : list Worker;
  errCh : list (option error);
  attempted : list nat;           (* indices [workerFn] has been called on *)
  store : S }.

Arguments next {S} _.
Arguments broke {S} _.
Arguments ctxDone {S} _.
Arguments workers {S} _.
Arguments errCh {S} _.
Arguments attempted {S} _.
Arguments store {S} _.


(** [asError] on the collected errors. *)
Definition asError (errs : list error) : option error :=
  match errs with
  | [] => None
  | _ => Some (TaskError errs)
  end.

(** The loop over the closed [errCh]; [taskErr] is [taskErr.Errors]. *)
Fixpoint collect (ch : list (option error)) (taskErr : list error) : option error :=
  match ch with
  | [] => asError taskErr
  | None :: rest => collect rest taskErr
  | Some err :: rest =>
      if isCancellation err then Some err
      else collect rest (taskErr ++ [err])
  end.

Section Run.
Context {S : Type}.
Variable total : nat.
Variable workerFn : bool -> nat -> S -> option error * S.

Definition initial (nworkers : nat) (s : S) : Pool S :=
  {| next := 0; broke := false; ctxDone := false; workers := replicate nworkers Idle;
     errCh := []; attempted := []; store := s |}.

Definition setWorker (p : Pool S) (w : nat) (st : Worker) : list Worker :=
  <[w := st]> (workers p).

Definition step (e : Event) (p : Pool S) : option (Pool S) :=
  match e with
  | CtxDone =>
      Some {| next := next p; broke := broke p; ctxDone := true; workers := workers p;
              errCh := errCh p; attempted := attempted p; store := store p |}
  | Dispatch w =>
      match workers p !! w with
      | Some Idle =>
          if negb (broke p) && Nat.ltb (next p) total
          then Some {| next := Datatypes.S (next p); broke := broke p; ctxDone := ctxDone p;
                       workers := setWorker p w (Busy (next p));
                       errCh := errCh p; attempted := attempted p; store := store p |}
          else None
      | _ => None
      end
  | Break =>
      if ctxDone p && negb (broke p) && Nat.ltb (next p) total
      then Some {| next := next p; broke := true; ctxDone := ctxDone p; workers := workers p;
                   errCh := errCh p; attempted := attempted p; store := store p |}
      else None
  | Work w =>
      match workers p !! w with
      | Some (Busy idx) =>
          let '(err, s') := workerFn (ctxDone p) idx (store p) in
          Some {| next := next p; broke := broke p; ctxDone := ctxDone p;
                  workers := setWorker p w (match err with Some e => Reporting e | None => Idle end);
                  errCh := errCh p; attempted := attempted p ++ [idx]; store := s' |}
      | _ => None
      end
  | Report w sent =>
      match workers p !! w with
      | Some (Reporting e) =>
          if sent
          then Some {| next := next p; broke := broke p; ctxDone := ctxDone p;
                       workers := setWorker p w Idle;
                       errCh := errCh p ++ [Some e]; attempted := attempted p; store := store p |}
          else if ctxDone p
          then Some {| next := next p; broke := broke p; ctxDone := ctxDone p;
                       workers := setWorker p w Returned;
                       errCh := errCh p; attempted := attempted p; store := store p |}
          else None
      | _ => None
      end
  end.

Fixpoint steps (sched : list Event) (p : Pool S) : option (Pool S) :=
  match sched with
  | [] => Some p
  | e :: rest =>
      match step e p with
      | Some p' => steps rest p'
      | None => None
      end
  end.

Definition resting (w : Worker) : bool :=
  match w with
  | Idle | Returned => true
  | Busy _ | Reporting _ => false
  end.

(** The loop is over and [wg.Wait()] returns: every index was offered or
    the loop was left, and no worker holds work. *)
Definition finished (p : Pool S) : bool :=
  (broke p || Nat.eqb (next p) total) && forallb resting (workers p).

(** [run] under a schedule: the error it returns and the store it leaves,
    or [None] when the schedule is not one of its complete runs. *)
Definition run (nworkers : nat) (sched : list Event) (s : S) : option (option error * S) :=
  if Nat.eqb total 0 then Some (None, s)
  else
    match steps sched (initial nworkers s) with
    | Some p => if finished p then Some (collect (errCh p) [], store p) else None
    | None => None
    end.

End Run.

Section Ingest.
Context `{GoLib} {C : Type} `{Graph.Client C}.

(** [IngestUsers] processes the provided user inputs concurrently. *)
Definition IngestUsers (nworkers : nat) (now : Time) (users : list Service.UserInput)
  (sched : list Event) (c : C) : option (option error * C) :=
  run (length users)
      (fun _ idx c =>
         match users !! idx with
         | Some u => Graph.run (RelationshipService.UpsertUser now u) c
         | None => (None, c)
         end)
      nworkers sched c.


End Ingest.
End BulkIngestor.

(** ** Vocabulary of the statements *)

(** The six components [normalizeAddress] joins. *)
Definition addressComponents (addr : Service.AddressInput) : list string :=
  [ GoStrings.ToLower (GoStrings.TrimSpace (Service.Line1 addr));
    GoStrings.ToLower (GoStrings.TrimSpace (Service.Line2 addr));
    GoStrings.ToLower (GoStrings.TrimSpace (Service.City addr));
    GoStrings.ToLower (GoStrings.TrimSpace (Service.State addr));
    GoStrings.ToLower (GoStrings.TrimSpace (Service.PostalCode addr));
    GoStrings.ToLower (GoStrings.TrimSpace (Service.Country addr)) ].

(** No component before the last one holds the delimiter. *)
Definition delimiterFree (addr : Service.AddressInput) : Prop :=
  Forall (fun c => GoStrings.contains "|" c = false) (take 5 (addressComponents addr)).


(** The trivial path of [ShortestPathBetweenUsers]. *)
Definition trivialPath (u : string) : Domain.ShortestPath :=
  {| Domain.sp_SourceUserID := u;
     Domain.sp_TargetUserID := u;
     Domain.sp_Nodes :=
       [ {| Domain.pn_ID := u; Domain.pn_Type := "User"; Domain.pn_Label := u;
            Domain.pn_Weight := 0%float |} ];
     Domain.sp_Edges := [];
     Domain.sp_Hops := 0 |}.

(** A program leaves the graph store as it found it, and the in-memory
    client with the write calls it had. *)
Definition StoreUnchanged {A : Type} (p : Graph.Prog A) : Prop :=
  forall s : Store.GraphStore, snd (Graph.run p s) = s.

Definition NoWriteCall {A : Type} (p : Graph.Prog A) : Prop :=
  forall m : Graph.MemoryClient,
    Graph.writeCalls (snd (Graph.run p m)) = Graph.writeCalls m.

(** The identities a list of clauses merges: what [MERGE] adds to a list
    of identities when it is not there yet. *)
Definition mergeId {A : Type} `{EqDecision A} (l : list A) (x : A) : list A :=
  if decide (x ∈ l) then l else l ++ [x].

Definition mergeAll {A : Type} `{EqDecision A} (xs l : list A) : list A :=
  fold_left mergeId xs l.

Definition nodeTargets (ops : list Store.Op) : list Store.NodeId :=
  omap (fun op => match op with Store.MergeNode n => Some n | _ => None end) ops.

Definition relTargets (ops : list Store.Op) : list Store.RelId :=
  omap (fun op => match op with Store.MergeRel r => Some r | _ => None end) ops.

(** The nodes and relationships the upsert statements name. *)
Definition attrNodeOf (a : Domain.Attribute) : Store.NodeId :=
  Store.NAttribute (Domain.Type_ a) (Domain.Value a).

Definition hasAttribute (owner : Store.NodeId) (a : Domain.Attribute) : Store.RelId :=
  Store.mkRel Store.HAS_ATTRIBUTE owner (attrNodeOf a) [].

Definition linkedTo (t other : string) (a : Domain.Attribute) : Store.RelId :=
  Store.mkRel Store.LINKED_TO (Store.NTransaction t) (Store.NTransaction other)
    [ ("attributeHash", Domain.Value a); ("linkType", Domain.Type_ a) ].

(** Two parameter maps of [upsertTransactionCypher] that name the same
    transaction, users, attributes and payment method; the properties they
    set may differ. *)
Definition sameKeys (p1 p2 : Props) : Prop :=
  get "transactionId" p1 = get "transactionId" p2
  /\ get "senderId" p1 = get "senderId" p2
  /\ get "receiverId" p1 = get "receiverId" p2
  /\ get "attributes" p1 = get "attributes" p2
  /\ get "paymentMethodId" p1 = get "paymentMethodId" p2.

(** A fetched result holds a link to [other] of type [linkType]. *)
Definition returnsLink (result : Domain.TransactionRelationships * option error)
  (other linkType : string) : Prop :=
  snd result = None
  /\ exists link, link ∈ Domain.tr_LinkedTransactions (fst result)
                  /\ Domain.lt_TransactionID link = other
                  /\ Domain.lt_LinkType link = linkType.


(** The indices the workers hold, and the errors they are about to
    report. *)
Definition busyIdx (ws : list BulkIngestor.Worker) : list nat :=
  omap (fun w => match w with BulkIngestor.Busy i => Some i | _ => None end) ws.

Definition reporting (ws : list BulkIngestor.Worker) : list error :=
  omap (fun w => match w with BulkIngestor.Reporting e => Some e | _ => None end) ws.

(** The context is not cancelled during the run. *)
Definition neverCancelled (sched : list BulkIngestor.Event) : Prop :=
  Forall (fun e => e <> BulkIngestor.CtxDone) sched.

(** The validation of the service's upserts, which comes before any call
    of the repository. *)
Definition userVerdict (u : Service.UserInput) : option error :=
  if String.eqb (Service.ui_ID u) "" then Some (errorString "user ID is required") else None.


(** What holds of the pool at every point of a run whose context is never
    cancelled: [verdict] is the error each item meets, [Inv] what the store
    keeps satisfying, [Post i] what the attempt on item [i] leaves in it. *)
Definition steady {S : Type} (total : nat) (verdict : nat -> option error)
  (Inv : S -> Prop) (Post : nat -> S -> Prop) (p : BulkIngestor.Pool S) : Prop :=
  BulkIngestor.ctxDone p = false
  /\ BulkIngestor.broke p = false
  /\ BulkIngestor.next p <= total
  /\ Inv (BulkIngestor.store p)
  /\ BulkIngestor.attempted p ++ busyIdx (BulkIngestor.workers p) ≡ₚ seq 0 (BulkIngestor.next p)
  /\ (exists errs,
        BulkIngestor.errCh p = map Some errs
        /\ errs ++ reporting (BulkIngestor.workers p)
           ≡ₚ omap verdict (BulkIngestor.attempted p))
  /\ (forall i, i ∈ BulkIngestor.attempted p -> verdict i = None ->
       Post i (BulkIngestor.store p)).

(** The required business keys of an item are missing; an item is
    persisted when the store holds its node; the users a transaction names
    are in the store. *)
Definition userKeysMissing (u : Service.UserInput) : Prop :=
  Service.ui_ID u = "".

Definition transactionKeysMissing (tx : Service.TransactionInput) : Prop :=
  Service.ti_ID tx = "" \/ Service.ti_SenderUserID tx = ""
  \/ Service.ti_ReceiverUserID tx = "".

#[global] Instance userKeysMissing_dec (u : Service.UserInput) :
  Decision (userKeysMissing u).
Proof. unfold userKeysMissing. apply _. Defined.

#[global] Instance transactionKeysMissing_dec (tx : Service.TransactionInput) :
  Decision (transactionKeysMissing tx).
Proof. unfold transactionKeysMissing. apply _. Defined.




(** ** Sample data for the closed statements

    A stand-in for the library functions: an injective tag in place of
    SHA-256, and times printed as their day number or their instant. *)

Module Sample.

Definition nanosPerDay : Z := 86400000000000.

Definition lib : GoLib :=
  {| sha256_hex := fun s => "sha256:" +:+ s;
     time_Format := fun t layout =>
       if String.eqb layout DateOnly then "day " +:+ pretty (t / nanosPerDay)%Z
       else "instant " +:+ pretty t;
     time_Parse := fun _ _ => None;
     json_Marshal := fun _ => Some "{}" |}.

Definition noAddress : Service.AddressInput :=
  {| Service.Line1 := ""; Service.Line2 := ""; Service.City := "";
     Service.State := ""; Service.PostalCode := ""; Service.Country := "" |}.

Definition user (id phone : string) (custom : list Service.AttributeInput)
  : Service.UserInput :=
  {| Service.ui_ID := id; Service.ui_FullName := "Jane Doe";
     Service.ui_Email := ""; Service.ui_Phone := phone;
     Service.ui_Address := noAddress; Service.ui_DateOfBirth := None;
     Service.ui_KYCStatus := "VERIFIED"; Service.ui_RiskScore := 0.3%float;
     Service.ui_PaymentMethods := []; Service.ui_Attributes := custom;
     Service.ui_CreatedAt := None; Service.ui_UpdatedAt := None |}.

Definition transaction (id sender receiver ip : string) (timestamp : Time)
  : Service.TransactionInput :=
  {| Service.ti_ID := id; Service.ti_SenderUserID := sender;
     Service.ti_ReceiverUserID := receiver; Service.ti_Amount := 100%float;
     Service.ti_Currency := "USD"; Service.ti_Type := "TRANSFER";
     Service.ti_Status := "COMPLETED"; Service.ti_Channel := "WEB";
     Service.ti_IPAddress := ip; Service.ti_DeviceID := "";
     Service.ti_PaymentMethodID := ""; Service.ti_Timestamp := timestamp;
     Service.ti_Metadata := []; Service.ti_CreatedAt := None;
     Service.ti_UpdatedAt := None |}.

(** Two addresses whose six components differ and whose canonical strings
    are equal. *)
Definition addressA : Service.AddressInput :=
  {| Service.Line1 := "a|b"; Service.Line2 := ""; Service.City := "";
     Service.State := ""; Service.PostalCode := ""; Service.Country := "" |}.

Definition addressB : Service.AddressInput :=
  {| Service.Line1 := "a"; Service.Line2 := "b"; Service.City := "";
     Service.State := ""; Service.PostalCode := ""; Service.Country := "|" |}.

Definition emptyStore : Store.GraphStore :=
  {| Store.graph := Store.emptyGraph; Store.failure := None; Store.clock := 0%Z |}.

(** A store with the users [USR-1] and [USR-2]; two transfers between
    them from the same IP address, on different days. *)
Definition twoUsers : Store.GraphStore :=
  snd (Graph.run (RelationshipService.UpsertUser (H := lib) 0%Z (user "USR-2" "" []))
         (snd (Graph.run (RelationshipService.UpsertUser (H := lib) 0%Z (user "USR-1" "" []))
                 emptyStore))).

Definition tx1 : Service.TransactionInput :=
  transaction "TX-1" "USR-1" "USR-2" "203.0.113.24" nanosPerDay.

Definition tx2 : Service.TransactionInput :=
  transaction "TX-2" "USR-2" "USR-1" " 203.0.113.24 " (3 * nanosPerDay)%Z.

Definition afterBoth : Store.GraphStore :=
  snd (Graph.run (RelationshipService.UpsertTransaction (H := lib) 0%Z tx2)
         (snd (Graph.run (RelationshipService.UpsertTransaction (H := lib) 0%Z tx1) twoUsers))).


(** A store whose driver answers every call with the error of a cancelled
    context. *)
Definition cancelledStore : Store.GraphStore :=
  {| Store.graph := Store.emptyGraph; Store.failure := Some context_Canceled;
     Store.clock := 0%Z |}.

(** A batch of users and a batch of transfers, each with one item whose
    ID is missing. *)
Definition userBatch : list Service.UserInput :=
  [ user "USR-1" "" []; user "" "" [] ].


End Sample.


(** ** Vocabulary of the further properties *)

(** The errors read from the closed [errCh]: its non-nil entries. *)
Definition received (ch : list (option error)) : list error := omap id ch.

(** What holds of the pool at every point of every run, cancelled or not:
    the indices handed out are the first [next] ones, each is held by one
    worker or was attempted once, and every error on [errCh] or about to
    be sent comes from an attempt. *)
Definition accounted {S : Type} (total : nat) (p : BulkIngestor.Pool S) : Prop :=
  BulkIngestor.next p <= total
  /\ NoDup (BulkIngestor.attempted p ++ busyIdx (BulkIngestor.workers p))
  /\ (forall i, i ∈ BulkIngestor.attempted p ++ busyIdx (BulkIngestor.workers p) ->
                i < BulkIngestor.next p)
  /\ length (BulkIngestor.errCh p) + length (reporting (BulkIngestor.workers p))
     <= length (BulkIngestor.attempted p).

(** Every error on [errCh] or about to be sent satisfies [P]. *)
Definition errorsAll {S : Type} (P : error -> Prop) (p : BulkIngestor.Pool S) : Prop :=
  Forall P (received (BulkIngestor.errCh p))
  /\ Forall P (reporting (BulkIngestor.workers p)).

(** The error [UpsertUser] has for an item when the store fails with
    [cause]. *)
Definition userFailure (cause : error) (u : Service.UserInput) : error :=
  if String.eqb (Service.ui_ID u) "" then errorString "user ID is required"
  else wrapError ("upsert user " +:+ Service.ui_ID u +:+ ": ") cause.

(** The nodes and relationships the upsert of a user names. *)
Definition userNodes `{GoLib} (now : Time) (u : Service.UserInput) : list Store.NodeId :=
  nodeTargets (Store.upsertUserOps (Repository.upsertUserParams (Service.userOf now u))).

Definition userRels `{GoLib} (now : Time) (u : Service.UserInput) : list Store.RelId :=
  relTargets (Store.upsertUserOps (Repository.upsertUserParams (Service.userOf now u))).

(** The relationship [r] is in the graph and its property [k] reads [v],
    on every copy of it a graph may hold. *)
Definition relHolds (g : Store.PropertyGraph) (r : Store.RelId) (k : string) (v : value)
  : Prop :=
  r ∈ Store.relIds g /\ forall props, (r, props) ∈ Store.rels g -> get k props = v.

(** The clause does not write the property [k] of [r]. *)
Definition keeps (r : Store.RelId) (k : string) (op : Store.Op) : Prop :=
  match op with
  | Store.SetRel r' kvs => r' <> r \/ has k kvs = false
  | _ => True
  end.

(** The relationships [upsertTransactionCypher] merges between a
    transaction and its two users. *)
Definition participates (u tid role : string) : Store.RelId :=
  Store.mkRel Store.PARTICIPATED_IN (Store.NUser u) (Store.NTransaction tid)
    [ ("transactionId", tid); ("role", role) ].

Definition sentTo (sender receiver tid : string) : Store.RelId :=
  Store.mkRel Store.SENT_TO (Store.NUser sender) (Store.NUser receiver) [ ("transactionId", tid) ].

Definition receivedFrom (receiver sender tid : string) : Store.RelId :=
  Store.mkRel Store.RECEIVED_FROM (Store.NUser receiver) (Store.NUser sender)
    [ ("transactionId", tid) ].

(** A record of [userSharedAttributesCypher] whose [userIds] is a list:
    the others are skipped by [fetchUserSharedAttributes]. *)
Definition hasUserList (record : Props) : bool :=
  match get "userIds" record with
  | VList _ => true
  | _ => false
  end.

(** Every byte of the string satisfies [p]. *)
Fixpoint allBytes (p : ascii -> bool) (s : string) : bool :=
  match s with
  | EmptyString => true
  | String c r => p c && allBytes p r
  end.

(** An input in the range on which [strings.ToLower] and
    [strings.TrimSpace] are modelled exactly. *)
Definition isASCII (s : string) : bool :=
  allBytes (fun c => Nat.ltb (nat_of_ascii c) 128) s.

(** The digits [normalizePhone] keeps: all of them, less one leading
    [00]. *)
Definition phoneDigits (phone : string) : string :=
  let digits := GoStrings.removeNonDigits phone in
  if GoStrings.HasPrefix digits "00" then GoStrings.sliceFrom 2 digits else digits.



(** The identifier [FromUser] takes from a payment method: its trimmed
    fingerprint, or its trimmed ID when there is no fingerprint. *)
Definition paymentIdentifier (pm : Service.PaymentMethodInput) : string :=
  let identifier := GoStrings.TrimSpace (Service.pmi_Fingerprint pm) in
  if String.eqb identifier "" then GoStrings.TrimSpace (Service.pmi_ID pm) else identifier.

(** The attribute [FromUser] makes of a payment identifier. *)
Definition paymentAttribute `{GoLib} (identifier : string) : Domain.Attribute :=
  Service.mkAttribute Service.AttributeTypePayment (Service.hashValue identifier) identifier
                      0.95%float.

(** What identifies an attribute among those of one input: its type and
    its raw value. *)
Definition attributeKey (a : Domain.Attribute) : string * string :=
  (Domain.Type_ a, Domain.RawValue a).

(** An attribute as [FromUser] builds them: a raw value that is not empty,
    its hash as value, one of the four types. *)
Definition generated `{GoLib} (a : Domain.Attribute) : Prop :=
  Domain.RawValue a <> ""
  /\ Domain.Value a = Service.hashValue (Domain.RawValue a)
  /\ Domain.Type_ a ∈ [ Service.AttributeTypeEmail; Service.AttributeTypePhone;
                        Service.AttributeTypeAddress; Service.AttributeTypePayment ].


(** ** Listing and export

    The read side of the repository and the service that the list and
    export endpoints use. A query text is [fmt.Sprintf] of a template with
    the filter clause, a constant, and an [ORDER BY] clause; a statement is
    named as its template, with the order clause it was given. *)

Module Listing.
Import GoStrings.

(** Go's [int] and [int64]: 64 bits, two's complement. *)
Definition wrapInt (z : Z) : Z := ((z + 2 ^ 63) mod 2 ^ 64 - 2 ^ 63)%Z.

Definition isInt (z : Z) : Prop := (- 2 ^ 63 <= z < 2 ^ 63)%Z.

(** [math.Ceil], and the conversion [int64(f)] of a float, which the
    language leaves to the implementation outside the range of [int64]. *)
Class GoMath := {
  math_Ceil : float -> float;
  int64_of_float : float -> Z;
}.

Definition upperByte (c : ascii) : ascii :=
  if byte_in 97 122 c then ascii_of_nat (nat_of_ascii c - 32) else c.

(** [strings.ToUpper], exact on ASCII input. *)
Fixpoint ToUpper (s : string) : string :=
  match s with
  | EmptyString => EmptyString
  | String c r => String (upperByte c) (ToUpper r)
  end.

(** [strings.EqualFold], exact on ASCII input. *)
Definition EqualFold (s t : string) : bool := String.eqb (ToLower s) (ToLower t).

(** [strings.TrimPrefix]. *)
Definition TrimPrefix (s p : string) : string :=
  if HasPrefix s p then sliceFrom (String.length p) s else s.

Record UserSummary := {
  us_ID : string; us_FullName : string; us_Email : string; us_Phone : string;
  us_KYCStatus : string; us_RiskScore : float; us_CreatedAt : Time; us_UpdatedAt : Time }.

Record TransactionSummary := {
  ts_ID : string; ts_SenderUserID : string; ts_ReceiverUserID : string;
  ts_Amount : float; ts_Currency : string; ts_Type : string; ts_Status : string;
  ts_Channel : string; ts_Timestamp : Time; ts_CreatedAt : Time; ts_UpdatedAt : Time }.

Record UserListResult := { ul_Items : list UserSummary; ul_Total : Z }.
Record TransactionListResult := { tl_Items : list TransactionSummary; tl_Total : Z }.

Definition zeroUserListResult : UserListResult := {| ul_Items := []; ul_Total := 0 |}.
Definition zeroTransactionListResult : TransactionListResult :=
  {| tl_Items := []; tl_Total := 0 |}.

Record ListUsersOptions := {
  uo_Offset : Z; uo_Limit : Z; uo_KYCStatus : string; uo_RiskMin : float; uo_RiskMax : float;
  uo_Search : string; uo_Country : string; uo_City : string; uo_EmailDomain : string;
  uo_SortField : string; uo_SortOrder : string }.

Record ListTransactionsOptions := {
  to_Offset : Z; to_Limit : Z; to_UserID : string; to_Status : string; to_Type : string;
  to_MinAmount : float; to_MaxAmount : float; to_Search : string;
  to_StartTs : option Time; to_EndTs : option Time; to_Channel : string;
  to_SortField : string; to_SortOrder : string }.

(** The statements, named as their templates; the argument is the text
    put after [ORDER BY]. *)
Inductive Statement : Type :=
| listUsersCypher (orderClause : string)
| countUsersCypher
| listTransactionsCypher (orderClause : string)
| countTransactionsCypher
| exportUsersCypher
| exportTransactionsCypher.

(** A computation that only calls [ExecuteRead]. *)
Inductive Reads (A : Type) : Type :=
| Done (a : A)
| Read (statement : Statement) (params : Props) (k : Graph.Result * option error -> Reads A).

Arguments Done {A} a.
Arguments Read {A} statement params k.

(** Running it against a client that answers the reads from a script, in
    order, and with an empty result and no error once the script is used
    up, as the in-memory client does: the value returned and the calls
    made. *)
Fixpoint runReads {A : Type} (p : Reads A) (script : list (Graph.Result * option error))
  : A * list (Statement * Props) :=
  match p with
  | Done a => (a, [])
  | Read statement params k =>
      let answer := match script with [] => (Graph.noResult, None) | r :: _ => r end in
      let '(a, calls) := runReads (k answer) (tail script) in
      (a, (statement, params) :: calls)
  end.

Fixpoint andThen {A B : Type} (p : Reads A) (f : A -> Reads B) : Reads B :=
  match p with
  | Done a => f a
  | Read statement params k => Read statement params (fun r => andThen (k r) f)
  end.

Definition userOrderClause (field order : string) : string :=
  let dir := if EqualFold order "DESC" then "DESC" else "ASC" in
  let field := ToLower field in
  if String.eqb field "fullname" then "toLower(u.fullName) " +:+ dir
  else if String.eqb field "riskscore" then "coalesce(u.riskScore, 0.0) " +:+ dir
  else if String.eqb field "createdat" then "datetime(u.createdAt) " +:+ dir
  else if String.eqb field "updatedat" then "datetime(u.updatedAt) " +:+ dir
  else "u.userId " +:+ dir.

Definition transactionOrderClause (field order : string) : string :=
  let dir := if EqualFold order "ASC" then "ASC" else "DESC" in
  let field := ToLower field in
  if String.eqb field "amount" then "coalesce(t.amount, 0.0) " +:+ dir
  else if String.eqb field "status" then "toUpper(t.status) " +:+ dir
  else if String.eqb field "type" then "toUpper(t.type) " +:+ dir
  else if String.eqb field "channel" then "toUpper(t.channel) " +:+ dir
  else if String.eqb field "timestamp" then "datetime(t.timestamp) " +:+ dir
  else if String.eqb field "createdat" then "datetime(t.createdAt) " +:+ dir
  else if String.eqb field "updatedat" then "datetime(t.updatedAt) " +:+ dir
  else if String.eqb field "transactionid" then "t.transactionId " +:+ dir
  else "datetime(t.timestamp) " +:+ dir.

(** [limit] and [offset] as both list functions bound them. *)
Definition boundLimit (limit : Z) : Z :=
  let limit := if Z.leb limit 0 then 50%Z else limit in
  if Z.ltb 200 limit then 200%Z else limit.

Definition boundOffset (offset : Z) : Z := if Z.ltb offset 0 then 0%Z else offset.

Section WithLibraries.
Context `{GoLib} `{GoMath}.

Definition timeOr (v : value) : Time :=
  match Repository.toTimePtr v with
  | Some t => t
  | None => 0%Z
  end.

Definition userSummaryOf (record : Props) : UserSummary :=
  {| us_ID := Repository.toString (get "userId" record);
     us_FullName := Repository.toString (get "fullName" record);
     us_Email := Repository.toString (get "email" record);
     us_Phone := Repository.toString (get "phone" record);
     us_KYCStatus := Repository.toString (get "kycStatus" record);
     us_RiskScore := Repository.toFloat64 (get "riskScore" record);
     us_CreatedAt := timeOr (get "createdAt" record);
     us_UpdatedAt := timeOr (get "updatedAt" record) |}.

Definition transactionSummaryOf (record : Props) : TransactionSummary :=
  {| ts_ID := Repository.toString (get "transactionId" record);
     ts_SenderUserID := Repository.toString (get "senderId" record);
     ts_ReceiverUserID := Repository.toString (get "receiverId" record);
     ts_Amount := Repository.toFloat64 (get "amount" record);
     ts_Currency := Repository.toString (get "currency" record);
     ts_Type := Repository.toString (get "type" record);
     ts_Status := Repository.toString (get "status" record);
     ts_Channel := Repository.toString (get "channel" record);
     ts_Timestamp := timeOr (get "timestamp" record);
     ts_CreatedAt := timeOr (get "createdAt" record);
     ts_UpdatedAt := timeOr (get "updatedAt" record) |}.

(** The [total] of a count result: the first record's, when it is an
    integer or a float. *)
Definition totalOf (countRes : Graph.Result) : Z :=
  match Graph.Records countRes with
  | [] => 0%Z
  | record :: _ =>
      match get "total" record with
      | VInt v => v
      | VFloat v => int64_of_float v
      | _ => 0%Z
      end
  end.

Definition listUsersParams (opts : ListUsersOptions) : Props :=
  let limit := boundLimit (uo_Limit opts) in
  let offset := boundOffset (uo_Offset opts) in
  let search := ToLower (TrimSpace (uo_Search opts)) in
  let country := ToLower (TrimSpace (uo_Country opts)) in
  let city := ToLower (TrimSpace (uo_City opts)) in
  let emailDomain := TrimSpace (uo_EmailDomain opts) in
  let emailDomain :=
    if negb (String.eqb emailDomain "") then "@" +:+ ToLower (TrimPrefix emailDomain "@")
    else emailDomain in
  [ ("kycStatus", VString (ToUpper (TrimSpace (uo_KYCStatus opts))));
    ("riskMin", VFloat (uo_RiskMin opts));
    ("riskMax", VFloat (uo_RiskMax opts));
    ("search", VString search);
    ("country", VString country);
    ("city", VString city);
    ("emailDomain", VString emailDomain);
    ("skip", VInt offset);
    ("limit", VInt limit) ].

(** [ListUsers] returns paginated users matching provided filters. *)
Definition ListUsers (opts : ListUsersOptions) : Reads (UserListResult * option error) :=
  let params := listUsersParams opts in
  Read (listUsersCypher (userOrderClause (uo_SortField opts) (uo_SortOrder opts))) params
    (fun res =>
       match snd res with
       | Some e => Done (zeroUserListResult, Some (wrapError "list users query: " e))
       | None =>
           let users := map userSummaryOf (Graph.Records (fst res)) in
           Read countUsersCypher params (fun countRes =>
             match snd countRes with
             | Some e => Done (zeroUserListResult, Some (wrapError "count users query: " e))
             | None => Done ({| ul_Items := users; ul_Total := totalOf (fst countRes) |}, None)
             end)
       end).

Definition stampOf (t : option Time) : string :=
  match t with
  | Some t' => if negb (IsZero t') then time_Format (UTC t') RFC3339 else ""
  | None => ""
  end.

Definition listTransactionsParams (opts : ListTransactionsOptions) : Props :=
  let limit := boundLimit (to_Limit opts) in
  let offset := boundOffset (to_Offset opts) in
  let search := ToLower (TrimSpace (to_Search opts)) in
  [ ("userId", VString (TrimSpace (to_UserID opts)));
    ("status", VString (ToUpper (TrimSpace (to_Status opts))));
    ("type", VString (ToUpper (TrimSpace (to_Type opts))));
    ("minAmount", VFloat (to_MinAmount opts));
    ("maxAmount", VFloat (to_MaxAmount opts));
    ("search", VString search);
    ("skip", VInt offset);
    ("limit", VInt limit);
    ("startTs", VString (stampOf (to_StartTs opts)));
    ("endTs", VString (stampOf (to_EndTs opts)));
    ("channel", VString (ToUpper (TrimSpace (to_Channel opts)))) ].

(** [ListTransactions] returns paginated transactions matching provided
    filters. *)
Definition ListTransactions (opts : ListTransactionsOptions)
  : Reads (TransactionListResult * option error) :=
  let params := listTransactionsParams opts in
  Read (listTransactionsCypher
          (transactionOrderClause (to_SortField opts) (to_SortOrder opts))) params
    (fun res =>
       match snd res with
       | Some e =>
           Done (zeroTransactionListResult, Some (wrapError "list transactions query: " e))
       | None =>
           let txs := map transactionSummaryOf (Graph.Records (fst res)) in
           Read countTransactionsCypher params (fun countRes =>
             match snd countRes with
             | Some e =>
                 Done (zeroTransactionListResult,
                       Some (wrapError "count transactions query: " e))
             | None => Done ({| tl_Items := txs; tl_Total := totalOf (fst countRes) |}, None)
             end)
       end).

(** [ExportUsers] returns all users for export purposes. *)
Definition ExportUsers : Reads (list UserSummary * option error) :=
  Read exportUsersCypher [] (fun res =>
    match snd res with
    | Some e => Done ([], Some (wrapError "export users query: " e))
    | None => Done (map userSummaryOf (Graph.Records (fst res)), None)
    end).

(** [ExportTransactions] returns all transactions for export purposes. *)
Definition ExportTransactions : Reads (list TransactionSummary * option error) :=
  Read exportTransactionsCypher [] (fun res =>
    match snd res with
    | Some e => Done ([], Some (wrapError "export transactions query: " e))
    | None => Done (map transactionSummaryOf (Graph.Records (fst res)), None)
    end).

(** *** The service *)

Record PaginationMeta := {
  Page : Z; PageSize : Z; TotalItems : Z; TotalPages : Z }.

Record UsersPage := { up_Items : list UserSummary; up_Pagination : PaginationMeta }.
Record TransactionsPage := {
  tp_Items : list TransactionSummary; tp_Pagination : PaginationMeta }.

Definition zeroPaginationMeta : PaginationMeta :=
  {| Page := 0; PageSize := 0; TotalItems := 0; TotalPages := 0 |}.

Record ListUsersParams := {
  lu_Page : Z; lu_PageSize : Z; lu_Search : string; lu_KYCStatus : string;
  lu_RiskMin : option float; lu_RiskMax : option float; lu_Country : string;
  lu_City : string; lu_EmailDomain : string; lu_SortField : string; lu_SortOrder : string }.

Record ListTransactionsParams := {
  lt_Page : Z; lt_PageSize : Z; lt_Search : string; lt_UserID : string; lt_Status : string;
  lt_Type : string; lt_MinAmount : option float; lt_MaxAmount : option float;
  lt_StartTime : option Time; lt_EndTime : option Time; lt_Channel : string;
  lt_SortField : string; lt_SortOrder : string }.

Definition normalizePagination (page pageSize : Z) : Z * Z :=
  let page := if Z.leb page 0 then 1%Z else page in
  let pageSize := if Z.leb pageSize 0 then 50%Z else pageSize in
  let pageSize := if Z.ltb 200 pageSize then 200%Z else pageSize in
  (page, pageSize).

Definition buildPaginationMeta (page pageSize total : Z) : PaginationMeta :=
  let totalPages :=
    if Z.ltb 0 pageSize
    then
      let totalPages :=
        int64_of_float
          (math_Ceil (PrimFloat.div (Repository.floatOfInt total)
                                    (Repository.floatOfInt pageSize))) in
      if Z.ltb 0 total && Z.eqb totalPages 0 then 1%Z else totalPages
    else 0%Z in
  {| Page := page; PageSize := pageSize; TotalItems := total; TotalPages := totalPages |}.

Definition clampFloat (v lo hi : float) : float :=
  if PrimFloat.ltb v lo then lo
  else if PrimFloat.ltb lo hi && PrimFloat.ltb hi v then hi
  else v.

Definition usersOptionsOf (params : ListUsersParams) : ListUsersOptions :=
  let '(page, pageSize) := normalizePagination (lu_Page params) (lu_PageSize params) in
  let offset := wrapInt ((page - 1) * pageSize) in
  let riskMin :=
    match lu_RiskMin params with
    | Some v => clampFloat v 0 1
    | None => 0%float
    end in
  let riskMax :=
    match lu_RiskMax params with
    | Some v =>
        let riskMax := clampFloat v 0 1 in
        if PrimFloat.ltb 0 riskMax && PrimFloat.ltb riskMax riskMin then riskMin else riskMax
    | None => 0%float
    end in
  {| uo_Offset := offset; uo_Limit := pageSize; uo_KYCStatus := lu_KYCStatus params;
     uo_RiskMin := riskMin; uo_RiskMax := riskMax; uo_Search := lu_Search params;
     uo_Country := lu_Country params; uo_City := lu_City params;
     uo_EmailDomain := lu_EmailDomain params; uo_SortField := lu_SortField params;
     uo_SortOrder := lu_SortOrder params |}.

(** [RelationshipService.ListUsers] retrieves paginated users matching
    provided filters. *)
Definition ServiceListUsers (params : ListUsersParams) : Reads (UsersPage * option error) :=
  let '(page, pageSize) := normalizePagination (lu_Page params) (lu_PageSize params) in
  andThen (ListUsers (usersOptionsOf params)) (fun out =>
    Done match snd out with
         | Some e => ({| up_Items := []; up_Pagination := zeroPaginationMeta |}, Some e)
         | None =>
             ({| up_Items := ul_Items (fst out);
                 up_Pagination := buildPaginationMeta page pageSize (ul_Total (fst out)) |},
              None)
         end).

Definition transactionsOptionsOf (params : ListTransactionsParams) : ListTransactionsOptions :=
  let '(page, pageSize) := normalizePagination (lt_Page params) (lt_PageSize params) in
  let offset := wrapInt ((page - 1) * pageSize) in
  let minAmount :=
    match lt_MinAmount params with
    | Some v => if PrimFloat.ltb 0 v then v else 0%float
    | None => 0%float
    end in
  let maxAmount :=
    match lt_MaxAmount params with
    | Some v =>
        if PrimFloat.ltb 0 v
        then if PrimFloat.ltb 0 v && PrimFloat.ltb v minAmount then minAmount else v
        else 0%float
    | None => 0%float
    end in
  {| to_Offset := offset; to_Limit := pageSize; to_UserID := lt_UserID params;
     to_Status := lt_Status params; to_Type := lt_Type params;
     to_MinAmount := minAmount; to_MaxAmount := maxAmount; to_Search := lt_Search params;
     to_StartTs := lt_StartTime params; to_EndTs := lt_EndTime params;
     to_Channel := lt_Channel params; to_SortField := lt_SortField params;
     to_SortOrder := lt_SortOrder params |}.

(** [RelationshipService.ListTransactions] retrieves paginated
    transactions matching filters. *)
Definition ServiceListTransactions (params : ListTransactionsParams)
  : Reads (TransactionsPage * option error) :=
  let '(page, pageSize) := normalizePagination (lt_Page params) (lt_PageSize params) in
  andThen (ListTransactions (transactionsOptionsOf params)) (fun out =>
    Done match snd out with
         | Some e => ({| tp_Items := []; tp_Pagination := zeroPaginationMeta |}, Some e)
         | None =>
             ({| tp_Items := tl_Items (fst out);
                 tp_Pagination := buildPaginationMeta page pageSize (tl_Total (fst out)) |},
              None)
         end).

(** [RelationshipService.ExportUsers] and [ExportTransactions]. *)
Definition ServiceExportUsers : Reads (list UserSummary * option error) := ExportUsers.

Definition ServiceExportTransactions : Reads (list TransactionSummary * option error) :=
  ExportTransactions.

End WithLibraries.
End Listing.

(** The sort clauses the list statements can carry. *)
Definition userOrderClauses : list string :=
  [ "toLower(u.fullName) ASC"; "toLower(u.fullName) DESC";
    "coalesce(u.riskScore, 0.0) ASC"; "coalesce(u.riskScore, 0.0) DESC";
    "datetime(u.createdAt) ASC"; "datetime(u.createdAt) DESC";
    "datetime(u.updatedAt) ASC"; "datetime(u.updatedAt) DESC";
    "u.userId ASC"; "u.userId DESC" ].

Definition transactionOrderClauses : list string :=
  [ "coalesce(t.amount, 0.0) ASC"; "coalesce(t.amount, 0.0) DESC";
    "toUpper(t.status) ASC"; "toUpper(t.status) DESC";
    "toUpper(t.type) ASC"; "toUpper(t.type) DESC";
    "toUpper(t.channel) ASC"; "toUpper(t.channel) DESC";
    "datetime(t.timestamp) ASC"; "datetime(t.timestamp) DESC";
    "datetime(t.createdAt) ASC"; "datetime(t.createdAt) DESC";
    "datetime(t.updatedAt) ASC"; "datetime(t.updatedAt) DESC";
    "t.transactionId ASC"; "t.transactionId DESC" ].

(** The order clause of a list statement; no other statement has one. *)
Definition orderClauseOf (statement : Listing.Statement) : option string :=
  match statement with
  | Listing.listUsersCypher clause | Listing.listTransactionsCypher clause => Some clause
  | _ => None
  end.

(** The [skip] and [limit] a call carries are within the bounds of the
    list functions. *)
Definition boundedPage (params : Props) : Prop :=
  exists skip limit,
    get "skip" params = VInt skip /\ get "limit" params = VInt limit
    /\ (0 <= skip < 2 ^ 63)%Z /\ (1 <= limit <= 200)%Z.


(** A float that is a number, and one that lies between 0 and 1. *)
Definition isNumber (f : float) : Prop := PrimFloat.eqb f f = true.

Definition inUnit (f : float) : Prop :=
  PrimFloat.leb 0 f = true /\ PrimFloat.leb f 1 = true.

Definition numberOrNone (f : option float) : Prop :=
  match f with
  | Some v => isNumber v
  | None => True
  end.

(** ** Vocabulary of the links between transactions *)

(** The graph holds a [LINKED_TO] relationship from the transaction [t]
    to the transaction [other]. *)
Definition linksTo (g : Store.PropertyGraph) (t other : string) : bool :=
  existsb (fun r => bool_decide (Store.rtype r = Store.LINKED_TO)
                    && bool_decide (Store.rsrc r = Store.NTransaction t)
                    && bool_decide (Store.rdst r = Store.NTransaction other))
          (Store.relIds g).

(** The graph holds a [HAS_ATTRIBUTE] relationship from the transaction
    [t]. *)
Definition holdsAttribute (g : Store.PropertyGraph) (t : string) : bool :=
  existsb (fun r => bool_decide (Store.rtype r = Store.HAS_ATTRIBUTE)
                    && bool_decide (Store.rsrc r = Store.NTransaction t))
          (Store.relIds g).

(** ** Vocabulary of completion *)






(** ** Inputs in the range of the string model

    [strings.TrimSpace] and [strings.ToLower] are modelled on ASCII input:
    the statements about what [FromUser] and [FromTransaction] make of a
    string are about inputs whose trimmed or lowered fields are ASCII. *)
Definition asciiAddress (addr : Service.AddressInput) : bool :=
  forallb isASCII
    [ Service.Line1 addr; Service.Line2 addr; Service.City addr;
      Service.State addr; Service.PostalCode addr; Service.Country addr ].

Definition asciiUser (input : Service.UserInput) : bool :=
  isASCII (Service.ui_Email input)
  && asciiAddress (Service.ui_Address input)
  && forallb (fun pm => isASCII (Service.pmi_Fingerprint pm) && isASCII (Service.pmi_ID pm))
             (Service.ui_PaymentMethods input).

(** ** Sample data for the further properties *)

Module Cases.
Import BulkIngestor.

(** An error of the driver that is no cancellation, and a store that
    holds the two users and answers every call with it. *)
Definition unavailable : error := errorString "ServiceUnavailable".

Definition failingStore : Store.GraphStore :=
  {| Store.graph := Store.graph Sample.twoUsers; Store.failure := Some unavailable;
     Store.clock := 0%Z |}.

(** The function [IngestUsers] hands to [run] for [Sample.userBatch]. *)
Definition userWorker (done : bool) (idx : nat) (c : Store.GraphStore)
  : option error * Store.GraphStore :=
  match Sample.userBatch !! idx with
  | Some u => Graph.run (RelationshipService.UpsertUser (H := Sample.lib) 0%Z u) c
  | None => (None, c)
  end.

(** Runs of a batch of two items whose second fails: with one worker, with
    two workers that take the items in the other order, with a store that
    fails the first item too, and cancelled after the first item. *)
Definition oneWorker : list Event :=
  [Dispatch 0; Work 0; Dispatch 0; Work 0; Report 0 true].

Definition twoWorkers : list Event :=
  [Dispatch 1; Dispatch 0; Work 0; Work 1; Report 0 true].


Definition cancelledAfterFirst : list Event :=
  [Dispatch 0; Work 0; CtxDone; Break].

(** Two users who gave the same phone number, written in two ways. *)
Definition alice : Service.UserInput := Sample.user "USR-1" "+1 (555) 0100" [].



(** A transfer on the day of [Sample.tx1], an hour later, with nothing
    else in common. *)
Definition tx3 : Service.TransactionInput :=
  Sample.transaction "TX-3" "USR-2" "USR-1" "198.51.100.7"
    (Sample.nanosPerDay + 3600000000000)%Z.

(** Three canned read results: one direct link, no transaction, and two
    records of shared attributes of which the second has no list of user
    IDs; and an in-memory client that holds them. *)
Definition oneLink : Graph.Result :=
  {| Graph.Records := [ [ ("userId", VString "USR-2"); ("linkType", VString "SENT_TO") ] ] |}.

Definition twoShared : Graph.Result :=
  {| Graph.Records :=
       [ [ ("attributeType", VString "PHONE"); ("userIds", VList [VString "USR-2"]) ];
         [ ("attributeType", VString "EMAIL") ] ] |}.

Definition canned : Graph.MemoryClient :=
  {| Graph.writeCalls := []; Graph.readCalls := [];
     Graph.readResults := [ oneLink; Graph.noResult; twoShared ];
     Graph.writeResults := []; Graph.err := None; Graph.connectivity := None |}.

(** A request for page 0 with 500 items a page, a minimum risk above 1 and
    a maximum below the minimum. *)
Definition riskParams : Listing.ListUsersParams :=
  {| Listing.lu_Page := 0; Listing.lu_PageSize := 500; Listing.lu_Search := "";
     Listing.lu_KYCStatus := ""; Listing.lu_RiskMin := Some 1.5%float;
     Listing.lu_RiskMax := Some 0.25%float; Listing.lu_Country := "";
     Listing.lu_City := ""; Listing.lu_EmailDomain := ""; Listing.lu_SortField := "";
     Listing.lu_SortOrder := "" |}.

(** Two items with one ID and two names. *)
Definition named (id name : string) : Service.UserInput :=
  {| Service.ui_ID := id; Service.ui_FullName := name;
     Service.ui_Email := ""; Service.ui_Phone := "";
     Service.ui_Address := Sample.noAddress; Service.ui_DateOfBirth := None;
     Service.ui_KYCStatus := "VERIFIED"; Service.ui_RiskScore := 0.3%float;
     Service.ui_PaymentMethods := []; Service.ui_Attributes := [];
     Service.ui_CreatedAt := None; Service.ui_UpdatedAt := None |}.

Definition sameId : list Service.UserInput := [ named "USR-1" "Alice"; named "USR-1" "Bob" ].

(** Two spellings of one address, and a user with it: an email, and
    three payment methods of which two have the same fingerprint and the
    third has an ID only. *)
Definition homeA : Service.AddressInput :=
  {| Service.Line1 := "  12 Main St "; Service.Line2 := ""; Service.City := "Paris";
     Service.State := ""; Service.PostalCode := "75001"; Service.Country := "FR" |}.

Definition homeB : Service.AddressInput :=
  {| Service.Line1 := "12 MAIN ST"; Service.Line2 := " "; Service.City := " paris";
     Service.State := ""; Service.PostalCode := "75001 "; Service.Country := "fr" |}.

Definition card (id fingerprint : string) : Service.PaymentMethodInput :=
  {| Service.pmi_ID := id; Service.pmi_MethodType := "CARD"; Service.pmi_Provider := "VISA";
     Service.pmi_Masked := "****"; Service.pmi_Fingerprint := fingerprint;
     Service.pmi_FirstUsedAt := None; Service.pmi_LastUsedAt := None |}.

Definition carol : Service.UserInput :=
  {| Service.ui_ID := "USR-3"; Service.ui_FullName := "Carol  Roe";
     Service.ui_Email := " Carol@Example.com"; Service.ui_Phone := "";
     Service.ui_Address := homeA; Service.ui_DateOfBirth := None;
     Service.ui_KYCStatus := "VERIFIED"; Service.ui_RiskScore := 0.1%float;
     Service.ui_PaymentMethods := [ card "pm-1" " fp-1 "; card "pm-2" "fp-1"; card " pm-3" "" ];
     Service.ui_Attributes := [];
     Service.ui_CreatedAt := None; Service.ui_UpdatedAt := None |}.

End Cases.

(* ===================================================================== *)
(** * Part II: lemmas and theorems                                        *)
(* ===================================================================== *)

(** ** Strings *)

Section StringFacts.
Import GoStrings.

Lemma eqb_empty_false (s : string) : s <> "" -> String.eqb s "" = false.
Proof. intros Hs. now apply String.eqb_neq. Qed.

Lemma digit_not_space (c : ascii) : isDigit c = true -> isSpace c = false.
Proof.
  destruct c as [[] [] [] [] [] [] [] []]; vm_compute; intros Hd; congruence.
Qed.

Lemma filterBytes_TrimLeftSpace (keep : ascii -> bool) (s : string) :
  (forall c, keep c = true -> isSpace c = false) ->
  filterBytes keep (TrimLeftSpace s) = filterBytes keep s.
Proof.
  intros Hk. induction s as [|c r IH]; simpl; [reflexivity|].
  destruct (isSpace c) eqn:Hc.
  - destruct (keep c) eqn:Hkc; [|exact IH].
    apply Hk in Hkc. congruence.
  - reflexivity.
Qed.

Lemma filterBytes_TrimRightSpace (keep : ascii -> bool) (s : string) :
  (forall c, keep c = true -> isSpace c = false) ->
  filterBytes keep (TrimRightSpace s) = filterBytes keep s.
Proof.
  intros Hk. induction s as [|c r IH]; simpl; [reflexivity|].
  destruct (TrimRightSpace r) as [|d r'] eqn:Hr.
  - simpl in IH. destruct (isSpace c) eqn:Hc; simpl.
    + destruct (keep c) eqn:Hkc.
      * apply Hk in Hkc. congruence.
      * exact IH.
    + destruct (keep c); [f_equal|]; exact IH.
  - cbn [filterBytes]. destruct (keep c); [f_equal|]; exact IH.
Qed.

Lemma removeNonDigits_TrimSpace (s : string) :
  removeNonDigits (TrimSpace s) = removeNonDigits s.
Proof.
  unfold removeNonDigits, TrimSpace.
  rewrite filterBytes_TrimRightSpace, filterBytes_TrimLeftSpace;
    auto using digit_not_space.
Qed.

Lemma append_empty (r : string) : "" +:+ r = r.
Proof. reflexivity. Qed.

Lemma append_String (c : ascii) (a r : string) : String c a +:+ r = String c (a +:+ r).
Proof. reflexivity. Qed.

(** A component without the delimiter ends where the first delimiter of
    the joined string stands. *)
Lemma append_delimiter_inj (a a' r r' : string) :
  contains "|" a = false -> contains "|" a' = false ->
  a +:+ "|" +:+ r = a' +:+ "|" +:+ r' -> a = a' /\ r = r'.
Proof.
  revert a'. induction a as [|c a IH]; intros [|c' a'] Ha Ha' Heq;
    rewrite ?append_empty, ?append_String, ?append_empty in Heq; simpl in Ha, Ha'.
  - injection Heq as ->. auto.
  - injection Heq as <- _. rewrite Ascii.eqb_refl in Ha'. discriminate Ha'.
  - injection Heq as -> _. rewrite Ascii.eqb_refl in Ha. discriminate Ha.
  - injection Heq as -> Heq.
    apply orb_false_iff in Ha as [_ Ha]. apply orb_false_iff in Ha' as [_ Ha'].
    destruct (IH a' Ha Ha' Heq) as [-> ->]. auto.
Qed.

End StringFacts.

(** ** Attribute normalisation *)

Section AttributeFacts.
Import GoStrings Service.

Lemma normalizeAddress_Join (addr : AddressInput) :
  normalizeAddress addr = Join (addressComponents addr) "|".
Proof. reflexivity. Qed.




Section WithGoLib.
Context `{GoLib}.




End WithGoLib.
End AttributeFacts.

(** ** Programs and clients *)

Section ProgFacts.
Import Graph.

Lemma ReadOnly_bind {A B : Type} (p : Prog A) (f : A -> Prog B) :
  ReadOnly p -> (forall a, ReadOnly (f a)) -> ReadOnly (bind p f).
Proof.
  intros Hp Hf. induction Hp as [a|c ps k Hk IH]; simpl.
  - apply Hf.
  - constructor. exact IH.
Qed.

Lemma ReadOnly_StoreUnchanged {A : Type} (p : Prog A) : ReadOnly p -> StoreUnchanged p.
Proof.
  intros Hp s. induction Hp as [a|c ps k Hk IH]; simpl; [reflexivity|].
  unfold Store.GraphStore_ExecuteRead.
  destruct (Store.failure s); [apply IH|].
  destruct (Store.evalRead c ps (Store.graph s)); apply IH.
Qed.

Lemma ReadOnly_NoWriteCall {A : Type} (p : Prog A) : ReadOnly p -> NoWriteCall p.
Proof.
  intros Hp. induction Hp as [a|c ps k Hk IH]; intros m; simpl; [reflexivity|].
  unfold MemoryClient_ExecuteRead.
  destruct (err m); [apply IH|].
  destruct (readResults m); rewrite IH; reflexivity.
Qed.

Section WithGoLib.
Context `{GoLib}.

Lemma FetchUserRelationships_ReadOnly (userID : string) :
  ReadOnly (Repository.FetchUserRelationships userID).
Proof.
  unfold Repository.FetchUserRelationships.
  destruct (String.eqb userID ""); [constructor|].
  apply ReadOnly_bind.
  { constructor. intros r. destruct (snd r); constructor. }
  intros r1. destruct (snd r1); [constructor|].
  apply ReadOnly_bind.
  { constructor. intros r. destruct (snd r); constructor. }
  intros r2. destruct (snd r2); [constructor|].
  apply ReadOnly_bind.
  { constructor. intros r. destruct (snd r); constructor. }
  intros r3. destruct (snd r3); constructor.
Qed.

Lemma FetchTransactionRelationships_ReadOnly (txID : string) :
  ReadOnly (Repository.FetchTransactionRelationships txID).
Proof.
  unfold Repository.FetchTransactionRelationships.
  destruct (String.eqb txID ""); [constructor|].
  apply ReadOnly_bind.
  { constructor. intros r. destruct (snd r); constructor. }
  intros r1. destruct (snd r1); [constructor|].
  apply ReadOnly_bind.
  { constructor. intros r. destruct (snd r); constructor. }
  intros r2. destruct (snd r2); constructor.
Qed.

Lemma ShortestPathBetweenUsers_ReadOnly (sourceID targetID : string) :
  ReadOnly (Repository.ShortestPathBetweenUsers sourceID targetID).
Proof.
  unfold Repository.ShortestPathBetweenUsers.
  destruct (_ || _); [constructor|].
  destruct (String.eqb sourceID targetID); [constructor|].
  constructor. intros r. destruct (snd r); [constructor|].
  destruct (Records (fst r)); constructor.
Qed.

End WithGoLib.
End ProgFacts.

(** ** The graph store: clauses *)

Section MergeFacts.
Context {A : Type} `{EqDecision A}.
Implicit Types (l xs : list A) (x : A).

Lemma mergeAll_nil l : mergeAll [] l = l.
Proof. reflexivity. Qed.

Lemma mergeAll_cons x xs l : mergeAll (x :: xs) l = mergeAll xs (mergeId l x).
Proof. reflexivity. Qed.

Lemma mergeAll_app xs ys l : mergeAll (xs ++ ys) l = mergeAll ys (mergeAll xs l).
Proof. unfold mergeAll. apply fold_left_app. Qed.

Lemma mergeId_present l x : x ∈ l -> mergeId l x = l.
Proof. intros Hx. unfold mergeId. destruct (decide (x ∈ l)); [reflexivity|contradiction]. Qed.

Lemma elem_of_mergeId l x y : y ∈ mergeId l x <-> y ∈ l \/ y = x.
Proof.
  unfold mergeId. destruct (decide (x ∈ l)) as [Hx|Hx].
  - split; [auto|]. intros [Hy| ->]; assumption.
  - rewrite elem_of_app, list_elem_of_singleton. reflexivity.
Qed.

Lemma elem_of_mergeAll xs l y : y ∈ mergeAll xs l <-> y ∈ l \/ y ∈ xs.
Proof.
  revert l. induction xs as [|x xs IH]; intros l.
  - rewrite mergeAll_nil. split; [auto|]. intros [Hy|Hy]; [exact Hy|inversion Hy].
  - rewrite mergeAll_cons, IH, elem_of_mergeId, elem_of_cons. tauto.
Qed.

(** Merging only appends, and only identities it was asked to merge. *)
Lemma mergeAll_extends xs l :
  exists extra, mergeAll xs l = l ++ extra /\ (forall y, y ∈ extra -> y ∈ xs).
Proof.
  revert l. induction xs as [|x xs IH]; intros l.
  - exists []. rewrite app_nil_r. split; [reflexivity|]. intros y Hy. inversion Hy.
  - rewrite mergeAll_cons. destruct (IH (mergeId l x)) as (extra & -> & Hextra).
    unfold mergeId. destruct (decide (x ∈ l)).
    + exists extra. split; [reflexivity|]. intros y Hy. apply elem_of_cons. right. auto.
    + exists (x :: extra). rewrite <- app_assoc. split; [reflexivity|].
      intros y Hy. apply elem_of_cons in Hy as [->|Hy]; apply elem_of_cons; auto.
Qed.

(** Merging what is there already changes nothing. *)
Lemma mergeAll_present xs l : (forall x, x ∈ xs -> x ∈ l) -> mergeAll xs l = l.
Proof.
  revert l. induction xs as [|x xs IH]; intros l Hxs; [reflexivity|].
  rewrite mergeAll_cons, mergeId_present.
  - apply IH. intros y Hy. apply Hxs, elem_of_cons. auto.
  - apply Hxs, elem_of_cons. auto.
Qed.

Lemma mergeAll_idempotent xs l : mergeAll xs (mergeAll xs l) = mergeAll xs l.
Proof. apply mergeAll_present. intros x Hx. apply elem_of_mergeAll. auto. Qed.

End MergeFacts.

Section OpFacts.
Import Store.

Lemma map_fst_update {K V : Type} `{EqDecision K} (k : K) (f : V -> V) (l : list (K * V)) :
  map fst (map (fun e => if decide (fst e = k) then (fst e, f (snd e)) else e) l) = map fst l.
Proof.
  induction l as [|e l IH]; simpl; [reflexivity|].
  rewrite IH. destruct (decide (fst e = k)); reflexivity.
Qed.

Lemma nodeIds_applyOp (op : Op) (g : PropertyGraph) :
  nodeIds (applyOp op g) = mergeAll (nodeTargets [op]) (nodeIds g).
Proof.
  destruct op as [n|n kvs|r|r kvs]; unfold nodeIds; simpl.
  - unfold mergeAll, mergeId. simpl. fold (nodeIds g).
    destruct (decide (n ∈ nodeIds g)); [reflexivity|].
    simpl. unfold nodeIds. rewrite map_app. reflexivity.
  - apply map_fst_update.
  - destruct (decide (r ∈ relIds g)); reflexivity.
  - reflexivity.
Qed.

Lemma relIds_applyOp (op : Op) (g : PropertyGraph) :
  relIds (applyOp op g) = mergeAll (relTargets [op]) (relIds g).
Proof.
  destruct op as [n|n kvs|r|r kvs]; unfold relIds; simpl.
  - destruct (decide (n ∈ nodeIds g)); reflexivity.
  - reflexivity.
  - unfold mergeAll, mergeId. simpl. fold (relIds g).
    destruct (decide (r ∈ relIds g)); [reflexivity|].
    simpl. unfold relIds. rewrite map_app. reflexivity.
  - apply map_fst_update.
Qed.

Lemma nodeTargets_app (xs ys : list Op) : nodeTargets (xs ++ ys) = nodeTargets xs ++ nodeTargets ys.
Proof. unfold nodeTargets. apply omap_app. Qed.

Lemma relTargets_app (xs ys : list Op) : relTargets (xs ++ ys) = relTargets xs ++ relTargets ys.
Proof. unfold relTargets. apply omap_app. Qed.

Lemma nodeIds_runOps (ops : list Op) (g : PropertyGraph) :
  nodeIds (runOps ops g) = mergeAll (nodeTargets ops) (nodeIds g).
Proof.
  revert g. induction ops as [|op ops IH]; intros g; [reflexivity|].
  change (runOps (op :: ops) g) with (runOps ops (applyOp op g)).
  rewrite IH, nodeIds_applyOp.
  change (op :: ops) with ([op] ++ ops). rewrite nodeTargets_app, mergeAll_app. reflexivity.
Qed.

Lemma relIds_runOps (ops : list Op) (g : PropertyGraph) :
  relIds (runOps ops g) = mergeAll (relTargets ops) (relIds g).
Proof.
  revert g. induction ops as [|op ops IH]; intros g; [reflexivity|].
  change (runOps (op :: ops) g) with (runOps ops (applyOp op g)).
  rewrite IH, relIds_applyOp.
  change (op :: ops) with ([op] ++ ops). rewrite relTargets_app, mergeAll_app. reflexivity.
Qed.

Lemma nodeCount_nodeIds (g : PropertyGraph) : nodeCount g = length (nodeIds g).
Proof. unfold nodeCount, nodeIds. now rewrite length_map. Qed.

Lemma relCount_relIds (g : PropertyGraph) : relCount g = length (relIds g).
Proof. unfold relCount, relIds. now rewrite length_map. Qed.

End OpFacts.

(** ** The graph store: the upsert statements *)

Section UpsertFacts.
Import Graph Store.
Context `{GoLib}.

Lemma userAttributeOps_nodeTargets (u : NodeId) (attrs : list Domain.Attribute) :
  nodeTargets (flat_map (fun attr => userAttributeOps u (fields attr))
                        (Repository.attributeParams attrs))
  = map attrNodeOf attrs.
Proof.
  induction attrs as [|a attrs IH]; [reflexivity|].
  simpl. f_equal. exact IH.
Qed.

Lemma userAttributeOps_relTargets (u : NodeId) (attrs : list Domain.Attribute) :
  relTargets (flat_map (fun attr => userAttributeOps u (fields attr))
                       (Repository.attributeParams attrs))
  = map (hasAttribute u) attrs.
Proof.
  induction attrs as [|a attrs IH]; [reflexivity|].
  simpl. f_equal. exact IH.
Qed.

Lemma userPaymentMethodOps_nodeTargets (u : NodeId) (pms : list Domain.PaymentMethod) :
  nodeTargets (flat_map (fun pm => userPaymentMethodOps u (fields pm))
                        (Repository.paymentMethodParams pms))
  = map (fun pm => NPaymentMethod (Domain.pm_ID pm)) pms.
Proof.
  induction pms as [|pm pms IH]; [reflexivity|].
  simpl. f_equal. exact IH.
Qed.

Lemma userPaymentMethodOps_relTargets (u : NodeId) (pms : list Domain.PaymentMethod) :
  relTargets (flat_map (fun pm => userPaymentMethodOps u (fields pm))
                       (Repository.paymentMethodParams pms))
  = map (fun pm => mkRel USES_PAYMENT_METHOD u (NPaymentMethod (Domain.pm_ID pm)) []) pms.
Proof.
  induction pms as [|pm pms IH]; [reflexivity|].
  simpl. f_equal. exact IH.
Qed.

Lemma upsertUserOps_nodeTargets (user : Domain.User) :
  nodeTargets (upsertUserOps (Repository.upsertUserParams user))
  = NUser (Domain.u_ID user)
    :: map attrNodeOf (Domain.u_Attributes user)
    ++ map (fun pm => NPaymentMethod (Domain.pm_ID pm)) (Domain.u_PaymentMethods user).
Proof.
  unfold upsertUserOps, Repository.upsertUserParams. simpl.
  rewrite nodeTargets_app, userAttributeOps_nodeTargets, userPaymentMethodOps_nodeTargets.
  reflexivity.
Qed.

Lemma upsertUserOps_relTargets (user : Domain.User) :
  relTargets (upsertUserOps (Repository.upsertUserParams user))
  = map (hasAttribute (NUser (Domain.u_ID user))) (Domain.u_Attributes user)
    ++ map (fun pm => mkRel USES_PAYMENT_METHOD (NUser (Domain.u_ID user))
                            (NPaymentMethod (Domain.pm_ID pm)) [])
           (Domain.u_PaymentMethods user).
Proof.
  unfold upsertUserOps, Repository.upsertUserParams. simpl.
  rewrite relTargets_app, userAttributeOps_relTargets, userPaymentMethodOps_relTargets.
  reflexivity.
Qed.

(** What [UpsertUser] does to a store that answers. *)
Lemma run_UpsertUser (user : Domain.User) (s : GraphStore) :
  Domain.u_ID user <> "" -> failure s = None ->
  run (Repository.UpsertUser user) s
  = (None,
     {| graph := runOps (upsertUserOps (Repository.upsertUserParams user)) (graph s);
        failure := None; clock := clock s |}).
Proof.
  intros Hid Hs. unfold Repository.UpsertUser.
  rewrite (eqb_empty_false _ Hid). simpl.
  unfold GraphStore_ExecuteWrite. rewrite Hs. reflexivity.
Qed.

(** A store that fails, or an empty key, leaves the store as it was. *)
Lemma run_UpsertUser_failure (user : Domain.User) (s : GraphStore) (e : error) :
  failure s = Some e -> snd (run (Repository.UpsertUser user) s) = s.
Proof.
  intros Hs. unfold Repository.UpsertUser.
  destruct (String.eqb (Domain.u_ID user) ""); [reflexivity|]. simpl.
  unfold GraphStore_ExecuteWrite. rewrite Hs. reflexivity.
Qed.

Lemma upsertUser_again (u1 u2 : Domain.User) (g : PropertyGraph) :
  Domain.u_ID u1 = Domain.u_ID u2 ->
  Domain.u_Attributes u1 = Domain.u_Attributes u2 ->
  Domain.u_PaymentMethods u1 = Domain.u_PaymentMethods u2 ->
  let g1 := runOps (upsertUserOps (Repository.upsertUserParams u1)) g in
  let g2 := runOps (upsertUserOps (Repository.upsertUserParams u2)) g1 in
  nodeIds g2 = nodeIds g1 /\ relIds g2 = relIds g1.
Proof.
  intros Hid Hattrs Hpms g1 g2. subst g1 g2.
  rewrite !nodeIds_runOps, !relIds_runOps, !upsertUserOps_nodeTargets, !upsertUserOps_relTargets.
  rewrite Hid, Hattrs, Hpms. split; apply mergeAll_idempotent.
Qed.

(** *** upsertTransactionCypher *)

Lemma transactionAttributeOps_nodeTargets (t : NodeId) (attrs : list value) :
  nodeTargets (flat_map (fun attr => transactionAttributeOps t (fields attr)) attrs)
  = map (fun attr => attributeNode (fields attr)) attrs.
Proof.
  induction attrs as [|a attrs IH]; [reflexivity|].
  simpl. f_equal. exact IH.
Qed.

Lemma transactionAttributeOps_relTargets (t : NodeId) (attrs : list value) :
  relTargets (flat_map (fun attr => transactionAttributeOps t (fields attr)) attrs)
  = map (fun attr => mkRel HAS_ATTRIBUTE t (attributeNode (fields attr)) []) attrs.
Proof.
  induction attrs as [|a attrs IH]; [reflexivity|].
  simpl. f_equal. exact IH.
Qed.

Lemma upsertTransactionOps_nodeTargets (p : Props) :
  nodeTargets (upsertTransactionOps p)
  = NTransaction (str (get "transactionId" p))
    :: map (fun attr => attributeNode (fields attr)) (items (get "attributes" p)).
Proof.
  unfold upsertTransactionOps. simpl. rewrite transactionAttributeOps_nodeTargets. reflexivity.
Qed.

Lemma upsertTransactionOps_relTargets (p : Props) :
  relTargets (upsertTransactionOps p)
  = let tid := str (get "transactionId" p) in
    let sender := NUser (str (get "senderId" p)) in
    let receiver := NUser (str (get "receiverId" p)) in
    let t := NTransaction tid in
    [ mkRel PARTICIPATED_IN sender t [("transactionId", tid); ("role", "SENDER")];
      mkRel PARTICIPATED_IN receiver t [("transactionId", tid); ("role", "RECEIVER")];
      mkRel SENT_TO sender receiver [("transactionId", tid)];
      mkRel RECEIVED_FROM receiver sender [("transactionId", tid)] ]
    ++ map (fun attr => mkRel HAS_ATTRIBUTE t (attributeNode (fields attr)) [])
           (items (get "attributes" p)).
Proof.
  unfold upsertTransactionOps. simpl. rewrite transactionAttributeOps_relTargets. reflexivity.
Qed.

Lemma upsertTransactionOps_sameKeys (p1 p2 : Props) :
  sameKeys p1 p2 ->
  nodeTargets (upsertTransactionOps p1) = nodeTargets (upsertTransactionOps p2)
  /\ relTargets (upsertTransactionOps p1) = relTargets (upsertTransactionOps p2).
Proof.
  intros (Ht & Hs & Hr & Ha & _).
  rewrite !upsertTransactionOps_nodeTargets, !upsertTransactionOps_relTargets.
  cbv zeta. rewrite Ht, Hs, Hr, Ha. auto.
Qed.

Lemma linkOps_nodeTargets (now : Time) (tid : string) (rows : list (Props * string)) :
  nodeTargets (flat_map (linkOps now tid) rows) = [].
Proof. induction rows as [|row rows IH]; [reflexivity|exact IH]. Qed.

Lemma linkOps_relTargets (now : Time) (tid : string) (rows : list (Props * string)) :
  relTargets (flat_map (linkOps now tid) rows)
  = map (fun row =>
           mkRel LINKED_TO (NTransaction tid) (NTransaction (snd row))
                 [ ("attributeHash", str (get "value" (fst row)));
                   ("linkType", str (get "type" (fst row))) ]) rows.
Proof.
  induction rows as [|row rows IH]; [reflexivity|].
  simpl. f_equal. exact IH.
Qed.

Lemma paymentMethodOps_nodeTargets (tid pmId : string) (g : PropertyGraph) :
  nodeTargets (paymentMethodOps tid pmId g) = [].
Proof. unfold paymentMethodOps. destruct (_ || _); reflexivity. Qed.

Lemma paymentMethodOps_relTargets (tid pmId : string) (g : PropertyGraph) (r : RelId) :
  r ∈ relTargets (paymentMethodOps tid pmId g) -> rtype r = PAYMENT_METHOD_RELATES.
Proof.
  unfold paymentMethodOps. destruct (_ || _); simpl; intros Hr.
  - inversion Hr.
  - apply list_elem_of_singleton in Hr. subst r. reflexivity.
Qed.

Lemma paymentMethodOps_nodeIds (tid pmId : string) (g g' : PropertyGraph) :
  nodeIds g = nodeIds g' -> paymentMethodOps tid pmId g = paymentMethodOps tid pmId g'.
Proof. intros Hg. unfold paymentMethodOps. rewrite Hg. reflexivity. Qed.

(** Relationships of another type do not change who holds an attribute. *)
Lemma othersWith_app (tid : string) (a : NodeId) (rs extra : list RelId) :
  (forall r, r ∈ extra -> rtype r <> HAS_ATTRIBUTE) ->
  othersWith tid a (rs ++ extra) = othersWith tid a rs.
Proof.
  intros Hextra. unfold othersWith. rewrite flat_map_app.
  match goal with |- remove_dups (_ ++ ?l) = _ => assert (Hnil : l = []) end.
  { induction extra as [|r extra IH]; [reflexivity|]. simpl.
    rewrite IH by (intros r' Hr'; apply Hextra, elem_of_cons; auto).
    assert (Hr : rtype r <> HAS_ATTRIBUTE) by (apply Hextra, elem_of_cons; auto).
    destruct (rsrc r); try reflexivity.
    rewrite (bool_decide_eq_false_2 _ Hr). reflexivity. }
  rewrite Hnil, app_nil_r. reflexivity.
Qed.

Lemma linkRows_app (tid : string) (attrs : list Props) (rs extra : list RelId) :
  (forall r, r ∈ extra -> rtype r <> HAS_ATTRIBUTE) ->
  linkRows tid attrs (rs ++ extra) = linkRows tid attrs rs.
Proof.
  intros Hextra. unfold linkRows. apply flat_map_ext. intros attr.
  rewrite othersWith_app by exact Hextra. reflexivity.
Qed.

(** What one run of the statement leaves, when both users are there. *)
Lemma execUpsertTransaction_shape (now : Time) (p : Props) (g : PropertyGraph) :
  NUser (str (get "senderId" p)) ∈ nodeIds g ->
  NUser (str (get "receiverId" p)) ∈ nodeIds g ->
  let tid := str (get "transactionId" p) in
  let pmId := str (get "paymentMethodId" p) in
  let rs1 := mergeAll (relTargets (upsertTransactionOps p)) (relIds g) in
  let rows := linkRows tid (map fields (items (get "attributes" p))) rs1 in
  let g' := fst (execUpsertTransaction now p g) in
  nodeIds g' = mergeAll (nodeTargets (upsertTransactionOps p)) (nodeIds g)
  /\ exists extra,
       relIds g' = rs1 ++ extra
       /\ (forall r, r ∈ extra -> rtype r <> HAS_ATTRIBUTE)
       /\ (forall r, r ∈ relTargets (flat_map (linkOps now tid) rows) -> r ∈ relIds g')
       /\ (rows <> [] -> forall g2, nodeIds g2 = nodeIds g' ->
            forall r, r ∈ relTargets (paymentMethodOps tid pmId g2) -> r ∈ relIds g').
Proof.
  intros Hs Hr tid pmId rs1 rows g'. subst g'. unfold execUpsertTransaction.
  rewrite (bool_decide_eq_true_2 _ Hs), (bool_decide_eq_true_2 _ Hr). cbn [andb].
  fold tid pmId.
  set (g1 := runOps (upsertTransactionOps p) g).
  assert (Hrs1 : relIds g1 = rs1) by apply relIds_runOps.
  rewrite Hrs1. fold rows.
  set (g2 := runOps (flat_map (linkOps now tid) rows) g1).
  assert (Hn2 : nodeIds g2 = mergeAll (nodeTargets (upsertTransactionOps p)) (nodeIds g)).
  { unfold g2. rewrite nodeIds_runOps, linkOps_nodeTargets, mergeAll_nil.
    apply nodeIds_runOps. }
  assert (Hr2 : relIds g2 = mergeAll (relTargets (flat_map (linkOps now tid) rows)) rs1).
  { unfold g2. rewrite relIds_runOps, Hrs1. reflexivity. }
  destruct (mergeAll_extends (relTargets (flat_map (linkOps now tid) rows)) rs1)
    as (extra2 & He2 & Hextra2).
  assert (Hlink : forall r, r ∈ extra2 -> rtype r <> HAS_ATTRIBUTE).
  { intros r Hin. apply Hextra2 in Hin. rewrite linkOps_relTargets in Hin.
    apply list_elem_of_fmap in Hin as (row & -> & _). discriminate. }
  destruct rows as [|row rows'] eqn:Hrows.
  - cbn [fst]. split; [exact Hn2|]. exists extra2. rewrite Hr2, He2.
    split; [reflexivity|]. split; [exact Hlink|]. split.
    + intros r Hin. inversion Hin.
    + intros Hne. contradiction.
  - cbn [fst].
    set (g3 := runOps (paymentMethodOps tid pmId g2) g2).
    assert (Hn3 : nodeIds g3 = nodeIds g2).
    { unfold g3. rewrite nodeIds_runOps, paymentMethodOps_nodeTargets. reflexivity. }
    assert (Hr3 : relIds g3 = mergeAll (relTargets (paymentMethodOps tid pmId g2)) (relIds g2)).
    { apply relIds_runOps. }
    destruct (mergeAll_extends (relTargets (paymentMethodOps tid pmId g2)) (relIds g2))
      as (extra3 & He3 & Hextra3).
    split; [rewrite Hn3; exact Hn2|].
    exists (extra2 ++ extra3). rewrite Hr3, He3, Hr2, He2, <- app_assoc.
    split; [reflexivity|]. split.
    { intros r Hin. apply elem_of_app in Hin as [Hin|Hin]; [apply Hlink, Hin|].
      apply Hextra3, paymentMethodOps_relTargets in Hin. rewrite Hin. discriminate. }
    split.
    { intros r Hin. rewrite app_assoc, <- He2, <- Hr2, <- He3.
      apply elem_of_mergeAll. left. rewrite Hr2. apply elem_of_mergeAll. right. exact Hin. }
    intros _ g4 Hg4 r Hin.
    rewrite (paymentMethodOps_nodeIds tid pmId g4 g2) in Hin by (rewrite Hg4; exact Hn3).
    rewrite app_assoc, <- He2, <- Hr2, <- He3. apply elem_of_mergeAll. right. exact Hin.
Qed.

(** A run that finds everything it merges changes no identity. *)
Lemma execUpsertTransaction_present (now : Time) (p : Props) (g : PropertyGraph) :
  let tid := str (get "transactionId" p) in
  let pmId := str (get "paymentMethodId" p) in
  let rows := linkRows tid (map fields (items (get "attributes" p))) (relIds g) in
  (forall n, n ∈ nodeTargets (upsertTransactionOps p) -> n ∈ nodeIds g) ->
  (forall r, r ∈ relTargets (upsertTransactionOps p) -> r ∈ relIds g) ->
  (forall r, r ∈ relTargets (flat_map (linkOps now tid) rows) -> r ∈ relIds g) ->
  (rows <> [] -> forall g2, nodeIds g2 = nodeIds g ->
   forall r, r ∈ relTargets (paymentMethodOps tid pmId g2) -> r ∈ relIds g) ->
  let g' := fst (execUpsertTransaction now p g) in
  nodeIds g' = nodeIds g /\ relIds g' = relIds g.
Proof.
  intros tid pmId rows Hn Hr Hl Hp g'. subst g'. unfold execUpsertTransaction.
  destruct (_ && _); [|auto]. fold tid pmId.
  set (g1 := runOps (upsertTransactionOps p) g).
  assert (Hn1 : nodeIds g1 = nodeIds g).
  { unfold g1. rewrite nodeIds_runOps. apply mergeAll_present, Hn. }
  assert (Hr1 : relIds g1 = relIds g).
  { unfold g1. rewrite relIds_runOps. apply mergeAll_present, Hr. }
  rewrite Hr1. fold rows.
  set (g2 := runOps (flat_map (linkOps now tid) rows) g1).
  assert (Hn2 : nodeIds g2 = nodeIds g).
  { unfold g2. rewrite nodeIds_runOps, linkOps_nodeTargets. exact Hn1. }
  assert (Hr2 : relIds g2 = relIds g).
  { unfold g2. rewrite relIds_runOps, Hr1. apply mergeAll_present, Hl. }
  destruct rows as [|row rows'] eqn:Hrows; cbn [fst]; [auto|].
  rewrite nodeIds_runOps, relIds_runOps, paymentMethodOps_nodeTargets, Hr2.
  split; [exact Hn2|]. apply mergeAll_present. apply Hp; [discriminate|exact Hn2].
Qed.

(** Running the statement again, with the same keys, changes no identity. *)
Lemma execUpsertTransaction_again (now1 now2 : Time) (p1 p2 : Props) (g : PropertyGraph) :
  sameKeys p1 p2 ->
  let g1 := fst (execUpsertTransaction now1 p1 g) in
  let g2 := fst (execUpsertTransaction now2 p2 g1) in
  nodeIds g2 = nodeIds g1 /\ relIds g2 = relIds g1.
Proof.
  intros Hkeys g1 g2.
  destruct (upsertTransactionOps_sameKeys p1 p2 Hkeys) as [HNT HRT].
  destruct Hkeys as (Ht & Hs & Hr & Ha & Hpm).
  destruct (decide (NUser (str (get "senderId" p1)) ∈ nodeIds g)) as [Hsender|Hsender];
    [destruct (decide (NUser (str (get "receiverId" p1)) ∈ nodeIds g)) as [Hreceiver|Hreceiver]|].
  - destruct (execUpsertTransaction_shape now1 p1 g Hsender Hreceiver)
      as (Hn & extra & He & Hextra & Hlink & Hpay).
    fold g1 in Hn, He, Hlink, Hpay.
    subst g2. apply execUpsertTransaction_present.
    + intros n Hin. rewrite <- HNT in Hin. rewrite Hn. apply elem_of_mergeAll. auto.
    + intros r Hin. rewrite <- HRT in Hin. rewrite He. apply elem_of_app. left.
      apply elem_of_mergeAll. auto.
    + intros r Hin. apply Hlink.
      rewrite linkOps_relTargets in Hin. rewrite linkOps_relTargets.
      rewrite <- Ht, <- Ha, He in Hin.
      rewrite linkRows_app in Hin by exact Hextra. exact Hin.
    + rewrite <- Ht, <- Ha, <- Hpm, He, linkRows_app by exact Hextra.
      rewrite <- He. exact Hpay.
  - assert (Hg1 : g1 = g).
    { unfold g1, execUpsertTransaction.
      rewrite (bool_decide_eq_false_2 _ Hreceiver), andb_false_r. reflexivity. }
    subst g2. rewrite Hg1. unfold execUpsertTransaction.
    rewrite <- Hr, (bool_decide_eq_false_2 _ Hreceiver), andb_false_r. auto.
  - assert (Hg1 : g1 = g).
    { unfold g1, execUpsertTransaction.
      rewrite (bool_decide_eq_false_2 _ Hsender). reflexivity. }
    subst g2. rewrite Hg1. unfold execUpsertTransaction.
    rewrite <- Hs, (bool_decide_eq_false_2 _ Hsender). auto.
Qed.

(** *** The upserts against the store *)

Lemma run_UpsertTransaction (tx : Domain.Transaction) (attrs : list Domain.Attribute)
  (s : GraphStore) :
  Domain.t_ID tx <> "" -> Domain.t_SenderUserID tx <> "" -> Domain.t_ReceiverUserID tx <> "" ->
  failure s = None ->
  run (Repository.UpsertTransaction tx attrs) s
  = (None,
     {| graph := fst (execUpsertTransaction (clock s)
                        (Repository.upsertTransactionParams tx attrs) (graph s));
        failure := None; clock := clock s |}).
Proof.
  intros Hid Hsender Hreceiver Hs. unfold Repository.UpsertTransaction.
  rewrite (eqb_empty_false _ Hid), (eqb_empty_false _ Hsender), (eqb_empty_false _ Hreceiver).
  simpl. unfold GraphStore_ExecuteWrite. rewrite Hs. simpl.
  destruct (execUpsertTransaction _ _ _). reflexivity.
Qed.

Lemma run_UpsertTransaction_failure (tx : Domain.Transaction) (attrs : list Domain.Attribute)
  (s : GraphStore) (e : error) :
  failure s = Some e -> snd (run (Repository.UpsertTransaction tx attrs) s) = s.
Proof.
  intros Hs. unfold Repository.UpsertTransaction.
  destruct (String.eqb (Domain.t_ID tx) ""); [reflexivity|].
  destruct (_ || _); [reflexivity|]. simpl.
  unfold GraphStore_ExecuteWrite. rewrite Hs. reflexivity.
Qed.


Lemma service_UpsertTransaction_cases (now : Time) (input : Service.TransactionInput)
  (s : GraphStore) :
  snd (run (RelationshipService.UpsertTransaction now input) s) = s
  \/ (failure s = None
      /\ snd (run (RelationshipService.UpsertTransaction now input) s)
         = {| graph := fst (execUpsertTransaction (clock s)
                              (Repository.upsertTransactionParams
                                 (Service.transactionOf now input)
                                 (Service.FromTransaction input))
                              (graph s));
              failure := None; clock := clock s |}).
Proof.
  unfold RelationshipService.UpsertTransaction.
  destruct (String.eqb_spec (Service.ti_ID input) "") as [Hid|Hid]; [left; reflexivity|].
  destruct (String.eqb_spec (Service.ti_SenderUserID input) "") as [Hsender|Hsender];
    [left; reflexivity|].
  destruct (String.eqb_spec (Service.ti_ReceiverUserID input) "") as [Hreceiver|Hreceiver];
    [left; reflexivity|].
  cbn [orb]. destruct (failure s) as [e|] eqn:Hs.
  - left. eapply run_UpsertTransaction_failure. exact Hs.
  - right. split; [reflexivity|]. rewrite run_UpsertTransaction; auto.
Qed.

End UpsertFacts.

(** ** Re-ingestion *)

Section Idempotence.
Import Graph Store.
Context `{GoLib}.

Lemma UpsertUser_twice (now1 now2 : Time) (input : Service.UserInput) (s : GraphStore) :
  let s1 := snd (run (RelationshipService.UpsertUser now1 input) s) in
  let s2 := snd (run (RelationshipService.UpsertUser now2 input) s1) in
  nodeIds (graph s2) = nodeIds (graph s1) /\ relIds (graph s2) = relIds (graph s1).
Proof.
  intros s1 s2. subst s1 s2. unfold RelationshipService.UpsertUser.
  destruct (String.eqb_spec (Service.ui_ID input) "") as [Hid|Hid]; [auto|].
  destruct (failure s) as [e|] eqn:Hs.
  - rewrite !(run_UpsertUser_failure _ s e Hs). auto.
  - rewrite (run_UpsertUser (Service.userOf now1 input) s Hid Hs). cbn [snd].
    rewrite run_UpsertUser by (exact Hid || reflexivity). cbn [snd graph].
    apply (upsertUser_again (Service.userOf now1 input) (Service.userOf now2 input));
      reflexivity.
Qed.

Lemma transactionParams_sameKeys (now1 now2 : Time) (input : Service.TransactionInput) :
  sameKeys
    (Repository.upsertTransactionParams (Service.transactionOf now1 input)
       (Service.FromTransaction input))
    (Repository.upsertTransactionParams (Service.transactionOf now2 input)
       (Service.FromTransaction input)).
Proof. repeat split. Qed.

Lemma UpsertTransaction_twice (now1 now2 : Time) (input : Service.TransactionInput)
  (s : GraphStore) :
  let s1 := snd (run (RelationshipService.UpsertTransaction now1 input) s) in
  let s2 := snd (run (RelationshipService.UpsertTransaction now2 input) s1) in
  nodeIds (graph s2) = nodeIds (graph s1) /\ relIds (graph s2) = relIds (graph s1).
Proof.
  intros s1 s2. subst s1 s2. unfold RelationshipService.UpsertTransaction.
  destruct (String.eqb_spec (Service.ti_ID input) "") as [Hid|Hid]; [auto|].
  destruct (String.eqb_spec (Service.ti_SenderUserID input) "") as [Hsender|Hsender]; [auto|].
  destruct (String.eqb_spec (Service.ti_ReceiverUserID input) "") as [Hreceiver|Hreceiver];
    [auto|].
  cbn [orb]. destruct (failure s) as [e|] eqn:Hs.
  - rewrite !(run_UpsertTransaction_failure _ _ s e Hs). auto.
  - rewrite (run_UpsertTransaction (Service.transactionOf now1 input) _ s) by assumption.
    cbn [snd]. rewrite run_UpsertTransaction by (assumption || reflexivity).
    cbn [snd graph clock].
    apply execUpsertTransaction_again, transactionParams_sameKeys.
Qed.

(** C3. Re-ingestion duplicates nothing: upserting the same [UserInput], or
    the same [TransactionInput], a second time leaves the graph with the
    node count and the relationship count it had after the first time,
    whatever the store held before and whatever the clock reads at each
    call. *)
Theorem upsert_twice_same_counts
  (now1 now2 : Time) (user : Service.UserInput) (tx : Service.TransactionInput)
  (s : GraphStore) :
  (let s1 := snd (run (RelationshipService.UpsertUser now1 user) s) in
   let s2 := snd (run (RelationshipService.UpsertUser now2 user) s1) in
   nodeCount (graph s2) = nodeCount (graph s1) /\ relCount (graph s2) = relCount (graph s1))
  /\
  (let s1 := snd (run (RelationshipService.UpsertTransaction now1 tx) s) in
   let s2 := snd (run (RelationshipService.UpsertTransaction now2 tx) s1) in
   nodeCount (graph s2) = nodeCount (graph s1) /\ relCount (graph s2) = relCount (graph s1)).
Proof.
  split; cbv zeta; rewrite !nodeCount_nodeIds, !relCount_relIds.
  - destruct (UpsertUser_twice now1 now2 user s) as [Hn Hr]. cbv zeta in Hn, Hr.
    rewrite Hn, Hr. auto.
  - destruct (UpsertTransaction_twice now1 now2 tx s) as [Hn Hr]. cbv zeta in Hn, Hr.
    rewrite Hn, Hr. auto.
Qed.

End Idempotence.

(** ** Linkage *)

Section Linkage.
Import Graph Store.
Context `{GoLib}.

Lemma runOps_nodeIds_mono (ops : list Op) (g : PropertyGraph) (n : NodeId) :
  n ∈ nodeIds g -> n ∈ nodeIds (runOps ops g).
Proof. intros Hn. rewrite nodeIds_runOps. apply elem_of_mergeAll. auto. Qed.

Lemma runOps_relIds_mono (ops : list Op) (g : PropertyGraph) (r : RelId) :
  r ∈ relIds g -> r ∈ relIds (runOps ops g).
Proof. intros Hr. rewrite relIds_runOps. apply elem_of_mergeAll. auto. Qed.

Lemma execUpsertTransaction_nodeIds_mono (now : Time) (p : Props) (g : PropertyGraph)
  (n : NodeId) :
  n ∈ nodeIds g -> n ∈ nodeIds (fst (execUpsertTransaction now p g)).
Proof.
  intros Hn. unfold execUpsertTransaction. destruct (_ && _); [|exact Hn].
  destruct (linkRows _ _ _); cbn [fst]; repeat apply runOps_nodeIds_mono; exact Hn.
Qed.

Lemma execUpsertTransaction_relIds_mono (now : Time) (p : Props) (g : PropertyGraph)
  (r : RelId) :
  r ∈ relIds g -> r ∈ relIds (fst (execUpsertTransaction now p g)).
Proof.
  intros Hr. unfold execUpsertTransaction. destruct (_ && _); [|exact Hr].
  destruct (linkRows _ _ _); cbn [fst]; repeat apply runOps_relIds_mono; exact Hr.
Qed.

Lemma elem_of_othersWith (tid other : string) (a : NodeId) (rs : list RelId) :
  mkRel HAS_ATTRIBUTE (NTransaction other) a [] ∈ rs -> other <> tid ->
  other ∈ othersWith tid a rs.
Proof.
  intros Hr Hne. unfold othersWith. apply elem_of_remove_dups.
  apply list_elem_of_In, in_flat_map.
  exists (mkRel HAS_ATTRIBUTE (NTransaction other) a []). split.
  - apply list_elem_of_In, Hr.
  - cbn [rsrc rtype rdst mkRel].
    rewrite !bool_decide_eq_true_2 by reflexivity.
    rewrite (proj2 (String.eqb_neq other tid) Hne). left. reflexivity.
Qed.

Lemma upsertTransactionParams_attributes (tx : Domain.Transaction)
  (attrs : list Domain.Attribute) :
  items (get "attributes" (Repository.upsertTransactionParams tx attrs))
  = map Repository.attributeParam attrs.
Proof. reflexivity. Qed.

Lemma upsertTransactionParams_transactionId (tx : Domain.Transaction)
  (attrs : list Domain.Attribute) :
  str (get "transactionId" (Repository.upsertTransactionParams tx attrs)) = Domain.t_ID tx.
Proof. reflexivity. Qed.

(** The transaction's own attribute relationships are there after its
    upsert. *)
Lemma execUpsertTransaction_hasAttribute (now : Time) (tx : Domain.Transaction)
  (attrs : list Domain.Attribute) (g : PropertyGraph) (a : Domain.Attribute) :
  NUser (Domain.t_SenderUserID tx) ∈ nodeIds g ->
  NUser (Domain.t_ReceiverUserID tx) ∈ nodeIds g ->
  a ∈ attrs ->
  hasAttribute (NTransaction (Domain.t_ID tx)) a
  ∈ relIds (fst (execUpsertTransaction now (Repository.upsertTransactionParams tx attrs) g)).
Proof.
  intros Hs Hr Ha.
  destruct (execUpsertTransaction_shape now (Repository.upsertTransactionParams tx attrs) g Hs Hr)
    as (_ & extra & -> & _).
  apply elem_of_app. left. apply elem_of_mergeAll. right.
  rewrite upsertTransactionOps_relTargets. cbv zeta.
  apply elem_of_app. right.
  rewrite upsertTransactionParams_attributes, upsertTransactionParams_transactionId, map_map.
  apply list_elem_of_fmap. exists a. split; [reflexivity|exact Ha].
Qed.

(** Upserting a transaction links it to every other transaction that
    holds one of its attributes already. *)
Lemma execUpsertTransaction_links (now : Time) (tx : Domain.Transaction)
  (attrs : list Domain.Attribute) (g : PropertyGraph) (a : Domain.Attribute) (other : string) :
  NUser (Domain.t_SenderUserID tx) ∈ nodeIds g ->
  NUser (Domain.t_ReceiverUserID tx) ∈ nodeIds g ->
  a ∈ attrs ->
  hasAttribute (NTransaction other) a ∈ relIds g ->
  other <> Domain.t_ID tx ->
  linkedTo (Domain.t_ID tx) other a
  ∈ relIds (fst (execUpsertTransaction now (Repository.upsertTransactionParams tx attrs) g)).
Proof.
  intros Hs Hr Ha Hother Hne.
  destruct (execUpsertTransaction_shape now (Repository.upsertTransactionParams tx attrs) g Hs Hr)
    as (_ & extra & _ & _ & Hlink & _).
  apply Hlink. rewrite linkOps_relTargets.
  rewrite upsertTransactionParams_attributes, upsertTransactionParams_transactionId.
  apply list_elem_of_fmap. exists (fields (Repository.attributeParam a), other).
  split; [reflexivity|].
  unfold linkRows. apply list_elem_of_In, in_flat_map.
  exists (fields (Repository.attributeParam a)). split.
  - apply list_elem_of_In. rewrite map_map.
    apply list_elem_of_fmap. exists a. split; [reflexivity|exact Ha].
  - apply list_elem_of_In, list_elem_of_fmap. exists other. split; [reflexivity|].
    apply elem_of_othersWith; [|exact Hne].
    apply elem_of_mergeAll. left. exact Hother.
Qed.

(** A [LINKED_TO] relationship out of a transaction is a record of
    [transactionLinkedCypher], and a link of the fetched result. *)
Lemma evalTransactionLinked_record (g : PropertyGraph) (tid other : string)
  (a : Domain.Attribute) :
  linkedTo tid other a ∈ relIds g ->
  exists record,
    record ∈ evalTransactionLinked [("transactionId", VString tid)] g
    /\ get "otherTransactionId" record = VString other
    /\ get "linkType" record = VString (Domain.Type_ a)
    /\ get "attributeHash" record = VString (Domain.Value a).
Proof.
  intros Hin. unfold relIds in Hin. apply list_elem_of_fmap in Hin as ([r props] & Hr & Hin).
  cbn [fst] in Hr. subst r.
  eexists. split.
  - unfold evalTransactionLinked. apply list_elem_of_In, in_flat_map.
    exists (linkedTo tid other a, props). split; [apply list_elem_of_In, Hin|].
    cbn [fst rdst rsrc rtype linkedTo mkRel get String.eqb Ascii.eqb Bool.eqb str].
    rewrite !bool_decide_eq_true_2 by reflexivity. left. reflexivity.
  - repeat split.
Qed.

Lemma run_FetchTransactionRelationships (txID : string) (s : GraphStore) :
  txID <> "" -> failure s = None ->
  run (Repository.FetchTransactionRelationships txID) s
  = (({| Domain.tr_TransactionID := txID;
         Domain.tr_Users :=
           Domain.tr_Users
             (fst (fst (run (Repository.fetchTransactionUsers txID
                              {| Domain.tr_TransactionID := txID; Domain.tr_Users := [];
                                 Domain.tr_LinkedTransactions := [] |}) s)));
         Domain.tr_LinkedTransactions :=
           map Repository.linkedTransactionOf
               (evalTransactionLinked [("transactionId", VString txID)] (graph s)) |},
      None), s).
Proof.
  intros Hid Hs. unfold Repository.FetchTransactionRelationships.
  rewrite (eqb_empty_false _ Hid). cbn. unfold GraphStore_ExecuteRead. rewrite Hs. cbn.
  unfold GraphStore_ExecuteRead. rewrite Hs. cbn. reflexivity.
Qed.

Lemma fetch_returnsLink (s : GraphStore) (tid other : string) (a : Domain.Attribute) :
  tid <> "" -> failure s = None ->
  linkedTo tid other a ∈ relIds (graph s) ->
  returnsLink (fst (run (Repository.FetchTransactionRelationships tid) s))
              other (Domain.Type_ a).
Proof.
  intros Hid Hs Hin. rewrite run_FetchTransactionRelationships by assumption.
  destruct (evalTransactionLinked_record _ _ _ _ Hin) as (record & Hrec & Ho & Ht & _).
  split; [reflexivity|].
  exists (Repository.linkedTransactionOf record). cbn [fst Domain.tr_LinkedTransactions].
  split; [apply list_elem_of_fmap; eauto|].
  unfold Repository.linkedTransactionOf. cbn. rewrite Ho, Ht. auto.
Qed.

End Linkage.

(** ** Linkage: what the upsert does not link *)

Section Unlinked.
Import Graph Store.
Context `{GoLib}.

Lemma linksTo_true (g : PropertyGraph) (t other : string) :
  linksTo g t other = true
  <-> exists r, r ∈ relIds g /\ rtype r = LINKED_TO
                /\ rsrc r = NTransaction t /\ rdst r = NTransaction other.
Proof.
  unfold linksTo. rewrite existsb_exists. split.
  - intros (r & Hr & Hb). apply andb_true_iff in Hb as [Hb H3].
    apply andb_true_iff in Hb as [H1 H2].
    apply bool_decide_eq_true_1 in H1, H2, H3.
    exists r. split; [apply list_elem_of_In, Hr|auto].
  - intros (r & Hr & H1 & H2 & H3). exists r. split; [apply list_elem_of_In, Hr|].
    rewrite !bool_decide_eq_true_2 by assumption. reflexivity.
Qed.

Lemma holdsAttribute_true (g : PropertyGraph) (t : string) :
  holdsAttribute g t = true
  <-> exists r, r ∈ relIds g /\ rtype r = HAS_ATTRIBUTE /\ rsrc r = NTransaction t.
Proof.
  unfold holdsAttribute. rewrite existsb_exists. split.
  - intros (r & Hr & Hb). apply andb_true_iff in Hb as [H1 H2].
    apply bool_decide_eq_true_1 in H1, H2.
    exists r. split; [apply list_elem_of_In, Hr|auto].
  - intros (r & Hr & H1 & H2). exists r. split; [apply list_elem_of_In, Hr|].
    rewrite !bool_decide_eq_true_2 by assumption. reflexivity.
Qed.

(** Where a relationship of the graph comes from after
    [upsertTransactionCypher]: it was there, or the statement names it
    for the transaction, or it is the link of a row, or it is the
    relationship to the payment method. *)
Lemma execUpsertTransaction_rel_origin (now : Time) (p : Props) (g : PropertyGraph) (r : RelId) :
  let tid := str (get "transactionId" p) in
  let rs1 := mergeAll (relTargets (upsertTransactionOps p)) (relIds g) in
  let rows := linkRows tid (map fields (items (get "attributes" p))) rs1 in
  r ∈ relIds (fst (execUpsertTransaction now p g)) ->
  r ∈ relIds g
  \/ r ∈ relTargets (upsertTransactionOps p)
  \/ r ∈ relTargets (flat_map (linkOps now tid) rows)
  \/ rtype r = PAYMENT_METHOD_RELATES.
Proof.
  cbv zeta. unfold execUpsertTransaction.
  destruct (bool_decide _ && bool_decide _); [|cbn [fst]; auto].
  rewrite relIds_runOps.
  destruct (linkRows _ _ _) as [|row rows] eqn:Hrows; cbn [fst].
  - rewrite relIds_runOps, !elem_of_mergeAll. rewrite relIds_runOps, elem_of_mergeAll.
    cbn [flat_map relTargets omap list_omap]. tauto.
  - rewrite relIds_runOps, !elem_of_mergeAll. rewrite relIds_runOps, !elem_of_mergeAll.
    rewrite relIds_runOps, elem_of_mergeAll.
    intros [[[Hr|Hr]|Hr]|Hr]; auto.
    right. right. right. eapply paymentMethodOps_relTargets, Hr.
Qed.

Lemma upsertTransactionOps_rel (p : Props) (r : RelId) :
  r ∈ relTargets (upsertTransactionOps p) ->
  rtype r <> LINKED_TO
  /\ (rtype r = HAS_ATTRIBUTE -> rsrc r = NTransaction (str (get "transactionId" p))).
Proof.
  rewrite upsertTransactionOps_relTargets. cbv zeta. rewrite elem_of_app.
  intros [Hr|Hr].
  - repeat (apply elem_of_cons in Hr as [->|Hr]; [split; [discriminate|intros E; discriminate E]|]).
    inversion Hr.
  - apply list_elem_of_fmap in Hr as (attr & -> & _). split; [discriminate|reflexivity].
Qed.

Lemma elem_of_othersWith_inv (tid other : string) (a : NodeId) (rs : list RelId) :
  other ∈ othersWith tid a rs ->
  other <> tid
  /\ exists h, h ∈ rs /\ rtype h = HAS_ATTRIBUTE /\ rsrc h = NTransaction other.
Proof.
  unfold othersWith. rewrite elem_of_remove_dups. intros Hin.
  apply list_elem_of_In, in_flat_map in Hin as (h & Hh & Hin).
  destruct (rsrc h) as [|o| |] eqn:Hsrc; try (inversion Hin; fail).
  destruct (bool_decide (rtype h = HAS_ATTRIBUTE)) eqn:Hty; [|inversion Hin].
  destruct (bool_decide (rdst h = a)); [|inversion Hin].
  destruct (String.eqb o tid) eqn:Ho; [inversion Hin|]. cbn in Hin.
  destruct Hin as [<-|[]]. apply String.eqb_neq in Ho. apply bool_decide_eq_true_1 in Hty.
  split; [exact Ho|]. exists h. split; [apply list_elem_of_In, Hh|auto].
Qed.

(** The upsert of [tid] gives no other transaction an attribute. *)
Lemma execUpsertTransaction_holdsAttribute (now : Time) (p : Props) (g : PropertyGraph)
  (other : string) :
  holdsAttribute (fst (execUpsertTransaction now p g)) other = true ->
  holdsAttribute g other = true \/ other = str (get "transactionId" p).
Proof.
  rewrite !holdsAttribute_true. intros (r & Hr & Hty & Hsrc).
  apply execUpsertTransaction_rel_origin in Hr as [Hr|[Hr|[Hr|Hr]]].
  - left. eauto.
  - right. apply upsertTransactionOps_rel in Hr as [_ Hr]. specialize (Hr Hty).
    congruence.
  - rewrite linkOps_relTargets in Hr. apply list_elem_of_fmap in Hr as (row & -> & _).
    discriminate Hty.
  - congruence.
Qed.

(** The upsert of [tid] links no transaction but [tid], and [tid] only to
    transactions that held an attribute before. *)
Lemma execUpsertTransaction_linksTo (now : Time) (p : Props) (g : PropertyGraph)
  (t other : string) :
  linksTo (fst (execUpsertTransaction now p g)) t other = true ->
  linksTo g t other = true
  \/ (t = str (get "transactionId" p) /\ other <> t /\ holdsAttribute g other = true).
Proof.
  rewrite !linksTo_true, holdsAttribute_true. intros (r & Hr & Hty & Hsrc & Hdst).
  apply execUpsertTransaction_rel_origin in Hr as [Hr|[Hr|[Hr|Hr]]].
  - left. eauto.
  - apply upsertTransactionOps_rel in Hr as [Hr _]. contradiction.
  - right. rewrite linkOps_relTargets in Hr.
    apply list_elem_of_fmap in Hr as ([attr o] & -> & Hrow).
    cbn [fst snd mkRel rsrc rdst] in Hsrc, Hdst.
    injection Hsrc as Hsrc. injection Hdst as Hdst. subst t o.
    unfold linkRows in Hrow. apply list_elem_of_In, in_flat_map in Hrow as (attr' & _ & Hrow).
    apply in_map_iff in Hrow as (o & Ho & Hin). injection Ho as <- <-.
    apply list_elem_of_In, elem_of_othersWith_inv in Hin as (Hne & h & Hh & Hhty & Hhsrc).
    split; [reflexivity|]. split; [exact Hne|].
    apply elem_of_mergeAll in Hh as [Hh|Hh]; [eauto|].
    apply upsertTransactionOps_rel in Hh as [_ Hh]. specialize (Hh Hhty).
    rewrite Hhsrc in Hh. injection Hh as Hh. contradiction.
  - congruence.
Qed.

(** A linked transaction the fetch returns comes from a [LINKED_TO]
    relationship out of the transaction asked about. *)
Lemma fetch_linked_from_graph (txID other : string) (s : GraphStore)
  (link : Domain.LinkedTransaction) :
  txID <> "" -> failure s = None ->
  link ∈ Domain.tr_LinkedTransactions
           (fst (fst (run (Repository.FetchTransactionRelationships txID) s))) ->
  Domain.lt_TransactionID link = other ->
  linksTo (graph s) txID other = true.
Proof.
  intros Hid Hs. rewrite run_FetchTransactionRelationships by assumption.
  cbn [fst Domain.tr_LinkedTransactions]. intros Hlink Hother.
  apply list_elem_of_fmap in Hlink as (record & -> & Hrec).
  unfold evalTransactionLinked in Hrec.
  apply list_elem_of_In, in_flat_map in Hrec as ([r props] & Hr & Hrec).
  cbn [fst] in Hrec.
  destruct (rdst r) as [|o| |] eqn:Hdst; try (inversion Hrec; fail).
  destruct (bool_decide (rsrc r = _)) eqn:Hsrc; [|inversion Hrec].
  destruct (bool_decide (rtype r = LINKED_TO)) eqn:Hty; [|inversion Hrec].
  cbn in Hrec. destruct Hrec as [<-|[]].
  cbn in Hother. subst o.
  apply bool_decide_eq_true_1 in Hsrc, Hty.
  apply linksTo_true. exists r. split; [|auto].
  unfold relIds. apply list_elem_of_fmap. exists (r, props). split; [reflexivity|].
  apply list_elem_of_In, Hr.
Qed.

End Unlinked.

(** ** The claims about normalisation, queries and upserts *)

Section Claims.
Import Graph Store.
Context `{GoLib}.

Lemma FromTransaction_ip (input : Service.TransactionInput) :
  GoStrings.TrimSpace (Service.ti_IPAddress input) <> "" ->
  Service.mkAttribute Service.AttributeTypeIPAddress
    (Service.hashValue (GoStrings.TrimSpace (Service.ti_IPAddress input)))
    (GoStrings.TrimSpace (Service.ti_IPAddress input)) 0.85%float
  ∈ Service.FromTransaction input.
Proof.
  intros Hip. unfold Service.FromTransaction. rewrite (eqb_empty_false _ Hip). cbn [negb].
  apply elem_of_app. left.
  repeat match goal with |- context [if ?b then _ else _] => destruct b end;
    rewrite ?elem_of_app, list_elem_of_singleton; tauto.
Qed.

(** The service's upsert of a transaction whose users are there, as a step
    on the graph. *)
Lemma service_UpsertTransaction_graph (now : Time) (input : Service.TransactionInput)
  (s : GraphStore) :
  failure s = None ->
  Service.ti_ID input <> "" -> Service.ti_SenderUserID input <> "" ->
  Service.ti_ReceiverUserID input <> "" ->
  let s' := snd (run (RelationshipService.UpsertTransaction now input) s) in
  failure s' = None
  /\ graph s' = fst (execUpsertTransaction (clock s)
                       (Repository.upsertTransactionParams (Service.transactionOf now input)
                          (Service.FromTransaction input))
                       (graph s)).
Proof.
  intros Hs Hid Hsender Hreceiver. cbv zeta. unfold RelationshipService.UpsertTransaction.
  rewrite (eqb_empty_false _ Hid), (eqb_empty_false _ Hsender), (eqb_empty_false _ Hreceiver).
  cbn [orb]. rewrite run_UpsertTransaction by assumption. auto.
Qed.

(** The links the upserts of two transactions of one IP address make. *)
Lemma shared_ip_links
  (now1 now2 now3 : Time) (t1 t2 : Service.TransactionInput) (s : GraphStore) :
  failure s = None ->
  Service.ti_ID t1 <> "" -> Service.ti_ID t2 <> "" ->
  Service.ti_ID t1 <> Service.ti_ID t2 ->
  Forall (fun u => u <> "" /\ NUser u ∈ nodeIds (graph s))
         [ Service.ti_SenderUserID t1; Service.ti_ReceiverUserID t1;
           Service.ti_SenderUserID t2; Service.ti_ReceiverUserID t2 ] ->
  GoStrings.TrimSpace (Service.ti_IPAddress t1) = GoStrings.TrimSpace (Service.ti_IPAddress t2) ->
  GoStrings.TrimSpace (Service.ti_IPAddress t1) <> "" ->
  let s1 := snd (run (RelationshipService.UpsertTransaction now1 t1) s) in
  let s2 := snd (run (RelationshipService.UpsertTransaction now2 t2) s1) in
  let s3 := snd (run (RelationshipService.UpsertTransaction now3 t1) s2) in
  returnsLink (fst (run (Repository.FetchTransactionRelationships (Service.ti_ID t2)) s2))
              (Service.ti_ID t1) "IP"
  /\ returnsLink (fst (run (Repository.FetchTransactionRelationships (Service.ti_ID t1)) s3))
                 (Service.ti_ID t2) "IP".
Proof.
  intros Hs Hid1 Hid2 Hne Husers Hip Hip1 s1 s2 s3.
  apply Forall_cons in Husers as [[Hs1 Hs1g] Husers].
  apply Forall_cons in Husers as [[Hr1 Hr1g] Husers].
  apply Forall_cons in Husers as [[Hs2 Hs2g] Husers].
  apply Forall_cons in Husers as [[Hr2 Hr2g] _].
  assert (Hip2 : GoStrings.TrimSpace (Service.ti_IPAddress t2) <> "") by (rewrite <- Hip; exact Hip1).
  pose proof (FromTransaction_ip t1 Hip1) as Ha1.
  pose proof (FromTransaction_ip t2 Hip2) as Ha2. rewrite <- Hip in Ha2.
  set (a := Service.mkAttribute Service.AttributeTypeIPAddress
              (Service.hashValue (GoStrings.TrimSpace (Service.ti_IPAddress t1)))
              (GoStrings.TrimSpace (Service.ti_IPAddress t1)) 0.85%float) in *.
  destruct (service_UpsertTransaction_graph now1 t1 s Hs Hid1 Hs1 Hr1) as [Hf1 Hg1].
  fold s1 in Hf1, Hg1.
  destruct (service_UpsertTransaction_graph now2 t2 s1 Hf1 Hid2 Hs2 Hr2) as [Hf2 Hg2].
  fold s2 in Hf2, Hg2.
  destruct (service_UpsertTransaction_graph now3 t1 s2 Hf2 Hid1 Hs1 Hr1) as [Hf3 Hg3].
  fold s3 in Hf3, Hg3.
  (* the users stay *)
  assert (Hmono1 : forall n, n ∈ nodeIds (graph s) -> n ∈ nodeIds (graph s1)).
  { intros n Hn. rewrite Hg1. apply execUpsertTransaction_nodeIds_mono, Hn. }
  assert (Hmono2 : forall n, n ∈ nodeIds (graph s1) -> n ∈ nodeIds (graph s2)).
  { intros n Hn. rewrite Hg2. apply execUpsertTransaction_nodeIds_mono, Hn. }
  (* each transaction holds the attribute after its upsert *)
  assert (Hhas1 : hasAttribute (NTransaction (Service.ti_ID t1)) a ∈ relIds (graph s1)).
  { rewrite Hg1.
    apply (execUpsertTransaction_hasAttribute (clock s) (Service.transactionOf now1 t1));
      assumption. }
  assert (Hhas2 : hasAttribute (NTransaction (Service.ti_ID t2)) a ∈ relIds (graph s2)).
  { rewrite Hg2.
    apply (execUpsertTransaction_hasAttribute (clock s1) (Service.transactionOf now2 t2));
      auto. }
  split.
  - apply (fetch_returnsLink s2 (Service.ti_ID t2) (Service.ti_ID t1) a); [assumption..|].
    rewrite Hg2.
    apply (execUpsertTransaction_links (clock s1) (Service.transactionOf now2 t2)); auto.
  - apply (fetch_returnsLink s3 (Service.ti_ID t1) (Service.ti_ID t2) a); [assumption..|].
    rewrite Hg3.
    apply (execUpsertTransaction_links (clock s2) (Service.transactionOf now3 t1)); auto.
Qed.

(** A transaction upserted after another one is not linked from it: when
    the later one held no attribute and the earlier one had no link to it,
    the fetch on the earlier one does not return the later one. *)
Lemma later_not_linked_from_earlier
  (now1 now2 : Time) (t1 t2 : Service.TransactionInput) (s : GraphStore)
  (link : Domain.LinkedTransaction) :
  failure s = None ->
  Service.ti_ID t1 <> "" -> Service.ti_ID t2 <> "" ->
  Service.ti_ID t1 <> Service.ti_ID t2 ->
  Forall (fun u => u <> "")
         [ Service.ti_SenderUserID t1; Service.ti_ReceiverUserID t1;
           Service.ti_SenderUserID t2; Service.ti_ReceiverUserID t2 ] ->
  holdsAttribute (graph s) (Service.ti_ID t2) = false ->
  linksTo (graph s) (Service.ti_ID t1) (Service.ti_ID t2) = false ->
  let s1 := snd (run (RelationshipService.UpsertTransaction now1 t1) s) in
  let s2 := snd (run (RelationshipService.UpsertTransaction now2 t2) s1) in
  link ∈ Domain.tr_LinkedTransactions
           (fst (fst (run (Repository.FetchTransactionRelationships (Service.ti_ID t1)) s2))) ->
  Domain.lt_TransactionID link <> Service.ti_ID t2.
Proof.
  intros Hs Hid1 Hid2 Hne Husers Hfresh Hnolink s1 s2 Hlink Heq.
  apply Forall_cons in Husers as [Hs1 Husers].
  apply Forall_cons in Husers as [Hr1 Husers].
  apply Forall_cons in Husers as [Hs2 Husers].
  apply Forall_cons in Husers as [Hr2 _].
  destruct (service_UpsertTransaction_graph now1 t1 s Hs Hid1 Hs1 Hr1) as [Hf1 Hg1].
  fold s1 in Hf1, Hg1.
  destruct (service_UpsertTransaction_graph now2 t2 s1 Hf1 Hid2 Hs2 Hr2) as [Hf2 Hg2].
  fold s2 in Hf2, Hg2.
  apply (fetch_linked_from_graph _ (Service.ti_ID t2)) in Hlink; [|assumption..].
  rewrite Hg2 in Hlink.
  apply execUpsertTransaction_linksTo in Hlink as [Hlink|(Ht & _)];
    [|rewrite upsertTransactionParams_transactionId in Ht; contradiction].
  rewrite Hg1 in Hlink.
  apply execUpsertTransaction_linksTo in Hlink as [Hlink|(_ & _ & Hheld)]; congruence.
Qed.

(** C1, as the code has it. The linkage relationships are directed: the
    upsert of a transaction links it to the transactions that hold one of
    its attributes already, and the fetch follows the relationships out of
    the transaction it is asked about. With two transactions of the same
    trimmed, non-empty IP address, given as ASCII strings, whose users are
    in the graph: once both are upserted, the fetch on the second returns
    the first with link type IP; the fetch on the first returns the second
    once the first has been upserted again, and not before, when the second
    was new to the store (it held no attribute and the first had no link to
    it). *)
Theorem shared_ip_links_new_to_existing
  (now1 now2 now3 : Time) (t1 t2 : Service.TransactionInput) (s : GraphStore) :
  failure s = None ->
  Service.ti_ID t1 <> "" -> Service.ti_ID t2 <> "" ->
  Service.ti_ID t1 <> Service.ti_ID t2 ->
  Forall (fun u => u <> "" /\ NUser u ∈ nodeIds (graph s))
         [ Service.ti_SenderUserID t1; Service.ti_ReceiverUserID t1;
           Service.ti_SenderUserID t2; Service.ti_ReceiverUserID t2 ] ->
  isASCII (Service.ti_IPAddress t1) = true -> isASCII (Service.ti_IPAddress t2) = true ->
  GoStrings.TrimSpace (Service.ti_IPAddress t1) = GoStrings.TrimSpace (Service.ti_IPAddress t2) ->
  GoStrings.TrimSpace (Service.ti_IPAddress t1) <> "" ->
  let s1 := snd (run (RelationshipService.UpsertTransaction now1 t1) s) in
  let s2 := snd (run (RelationshipService.UpsertTransaction now2 t2) s1) in
  let s3 := snd (run (RelationshipService.UpsertTransaction now3 t1) s2) in
  returnsLink (fst (run (Repository.FetchTransactionRelationships (Service.ti_ID t2)) s2))
              (Service.ti_ID t1) "IP"
  /\ returnsLink (fst (run (Repository.FetchTransactionRelationships (Service.ti_ID t1)) s3))
                 (Service.ti_ID t2) "IP"
  /\ (holdsAttribute (graph s) (Service.ti_ID t2) = false ->
      linksTo (graph s) (Service.ti_ID t1) (Service.ti_ID t2) = false ->
      snd (fst (run (Repository.FetchTransactionRelationships (Service.ti_ID t1)) s2)) = None
      /\ forall link,
           link ∈ Domain.tr_LinkedTransactions
                    (fst (fst (run (Repository.FetchTransactionRelationships
                                      (Service.ti_ID t1)) s2))) ->
           Domain.lt_TransactionID link <> Service.ti_ID t2).
Proof.
  intros Hs Hid1 Hid2 Hne Husers _ _ Hip Hip1 s1 s2 s3.
  destruct (shared_ip_links now1 now2 now3 t1 t2 s Hs Hid1 Hid2 Hne Husers Hip Hip1)
    as [Hlater Hearlier].
  split; [exact Hlater|]. split; [exact Hearlier|].
  intros Hfresh Hnolink.
  assert (Hnames : Forall (fun u => u <> "")
                     [ Service.ti_SenderUserID t1; Service.ti_ReceiverUserID t1;
                       Service.ti_SenderUserID t2; Service.ti_ReceiverUserID t2 ]).
  { eapply Forall_impl; [exact Husers|]. intros u [Hu _]. exact Hu. }
  split.
  - apply Forall_cons in Hnames as [Hs1 Hnames].
    apply Forall_cons in Hnames as [Hr1 Hnames].
    apply Forall_cons in Hnames as [Hs2 Hnames].
    apply Forall_cons in Hnames as [Hr2 _].
    destruct (service_UpsertTransaction_graph now1 t1 s Hs Hid1 Hs1 Hr1) as [Hf1 _].
    destruct (service_UpsertTransaction_graph now2 t2 _ Hf1 Hid2 Hs2 Hr2) as [Hf2 _].
    fold s1 s2 in Hf2. rewrite run_FetchTransactionRelationships by assumption. reflexivity.
  - intros link Hlink.
    exact (later_not_linked_from_earlier now1 now2 t1 t2 s link Hs Hid1 Hid2 Hne Hnames
             Hfresh Hnolink Hlink).
Qed.

(** What [UpsertTransaction] does when the sender or the receiver has no
    User node: the two [MATCH] clauses give no row, the statement runs to
    its end on no row and the driver reports no error, so the store is left
    as it was, no Transaction node is created, and the function returns
    nil when the store answers. *)
Theorem missing_user_no_transaction_no_error
  (tx : Domain.Transaction) (attrs : list Domain.Attribute) (s : GraphStore) :
  Domain.t_ID tx <> "" -> Domain.t_SenderUserID tx <> "" -> Domain.t_ReceiverUserID tx <> "" ->
  NUser (Domain.t_SenderUserID tx) ∉ nodeIds (graph s)
  \/ NUser (Domain.t_ReceiverUserID tx) ∉ nodeIds (graph s) ->
  snd (run (Repository.UpsertTransaction tx attrs) s) = s
  /\ (failure s = None -> fst (run (Repository.UpsertTransaction tx attrs) s) = None)
  /\ (NTransaction (Domain.t_ID tx) ∉ nodeIds (graph s) ->
      NTransaction (Domain.t_ID tx)
      ∉ nodeIds (graph (snd (run (Repository.UpsertTransaction tx attrs) s)))).
Proof.
  intros Hid Hsender Hreceiver Hmissing.
  assert (Hsame : snd (run (Repository.UpsertTransaction tx attrs) s) = s).
  { destruct (failure s) as [e|] eqn:Hs.
    - eapply run_UpsertTransaction_failure. exact Hs.
    - rewrite run_UpsertTransaction by assumption. cbn [snd].
      unfold execUpsertTransaction.
      replace (bool_decide _ && bool_decide _) with false.
      + destruct s. cbn in *. subst. reflexivity.
      + symmetry. apply andb_false_iff.
        destruct Hmissing as [Hm|Hm]; [left|right]; apply bool_decide_eq_false_2; exact Hm. }
  split; [exact Hsame|]. split.
  - intros Hs. rewrite run_UpsertTransaction by assumption. reflexivity.
  - rewrite Hsame. auto.
Qed.

(** C6. For a non-empty user ID, the path from a user to itself is that
    one node, no edge and zero hops, and the repository returns it without
    a call to the client: no read and no write reaches any store. *)
Theorem shortest_path_to_self (u : string) :
  u <> "" ->
  Repository.ShortestPathBetweenUsers u u = Ret (trivialPath u, None)
  /\ NoStoreCall (Repository.ShortestPathBetweenUsers u u)
  /\ (forall m : MemoryClient,
        run (Repository.ShortestPathBetweenUsers u u) m = ((trivialPath u, None), m))
  /\ (forall s : GraphStore,
        run (Repository.ShortestPathBetweenUsers u u) s = ((trivialPath u, None), s)).
Proof.
  intros Hu.
  assert (Heq : Repository.ShortestPathBetweenUsers u u = Ret (trivialPath u, None)).
  { unfold Repository.ShortestPathBetweenUsers.
    rewrite (eqb_empty_false _ Hu), String.eqb_refl. reflexivity. }
  split; [exact Heq|]. split; [eexists; exact Heq|].
  split; intros c; rewrite Heq; reflexivity.
Qed.

(** C8. [FetchUserRelationships], [FetchTransactionRelationships] and
    [ShortestPathBetweenUsers] only read: whatever the input and whatever
    the client answers, they call [ExecuteRead] alone, the graph store is
    left as it was and the in-memory client records no write. *)
Theorem queries_only_read (userID txID sourceID targetID : string) :
  (ReadOnly (Repository.FetchUserRelationships userID)
   /\ StoreUnchanged (Repository.FetchUserRelationships userID)
   /\ NoWriteCall (Repository.FetchUserRelationships userID))
  /\ (ReadOnly (Repository.FetchTransactionRelationships txID)
      /\ StoreUnchanged (Repository.FetchTransactionRelationships txID)
      /\ NoWriteCall (Repository.FetchTransactionRelationships txID))
  /\ (ReadOnly (Repository.ShortestPathBetweenUsers sourceID targetID)
      /\ StoreUnchanged (Repository.ShortestPathBetweenUsers sourceID targetID)
      /\ NoWriteCall (Repository.ShortestPathBetweenUsers sourceID targetID)).
Proof.
  pose proof (FetchUserRelationships_ReadOnly userID) as H1.
  pose proof (FetchTransactionRelationships_ReadOnly txID) as H2.
  pose proof (ShortestPathBetweenUsers_ReadOnly sourceID targetID) as H3.
  repeat split;
    first [assumption | apply ReadOnly_StoreUnchanged; assumption
           | apply ReadOnly_NoWriteCall; assumption].
Qed.


(** C7, as the code has it. The components are joined with a delimiter
    that is not escaped. For all inputs, equal components give equal
    canonical strings; and when no component before the last holds the
    delimiter, the canonical strings are equal if and only if the
    components are. *)
Theorem normalizeAddress_equal_iff_components (a b : Service.AddressInput) :
  (addressComponents a = addressComponents b ->
   Service.normalizeAddress a = Service.normalizeAddress b)
  /\ (delimiterFree a -> delimiterFree b ->
      (Service.normalizeAddress a = Service.normalizeAddress b
       <-> addressComponents a = addressComponents b)).
Proof.
  rewrite !normalizeAddress_Join. split; [intros ->; reflexivity|].
  intros Ha Hb. split; [|intros ->; reflexivity].
  unfold delimiterFree in Ha, Hb. revert Ha Hb.
  unfold addressComponents.
  generalize (GoStrings.ToLower (GoStrings.TrimSpace (Service.Line1 a))).
  generalize (GoStrings.ToLower (GoStrings.TrimSpace (Service.Line2 a))).
  generalize (GoStrings.ToLower (GoStrings.TrimSpace (Service.City a))).
  generalize (GoStrings.ToLower (GoStrings.TrimSpace (Service.State a))).
  generalize (GoStrings.ToLower (GoStrings.TrimSpace (Service.PostalCode a))).
  generalize (GoStrings.ToLower (GoStrings.TrimSpace (Service.Country a))).
  generalize (GoStrings.ToLower (GoStrings.TrimSpace (Service.Line1 b))).
  generalize (GoStrings.ToLower (GoStrings.TrimSpace (Service.Line2 b))).
  generalize (GoStrings.ToLower (GoStrings.TrimSpace (Service.City b))).
  generalize (GoStrings.ToLower (GoStrings.TrimSpace (Service.State b))).
  generalize (GoStrings.ToLower (GoStrings.TrimSpace (Service.PostalCode b))).
  generalize (GoStrings.ToLower (GoStrings.TrimSpace (Service.Country b))).
  intros b6 b5 b4 b3 b2 b1 a6 a5 a4 a3 a2 a1 Ha Hb. cbn [take] in Ha, Hb.
  repeat match goal with
         | Hf : Forall _ (_ :: _) |- _ => apply Forall_cons in Hf as [? Hf]
         end.
  cbn [GoStrings.Join]. intros Heq.
  repeat match goal with
         | Hj : ?x +:+ "|" +:+ _ = ?y +:+ "|" +:+ _ |- _ =>
             apply append_delimiter_inj in Hj as [-> Hj]; [|assumption..]
         end.
  subst. reflexivity.
Qed.





End Claims.

(** ** The claims on the sample data *)

Ltac closed_fact :=
  solve
    [ reflexivity
    | vm_compute; reflexivity
    | let E := fresh in intros E; vm_compute in E; discriminate E
    | let E := fresh in vm_compute; intros E; inversion E
    | vm_compute; repeat constructor ].

Section Closed.
Import Graph Store.

(** C1, the claim as stated fails: [TX-1] and [TX-2] share their IP
    attribute and nothing else, both are upserted, [TX-1] first, and the
    fetch on [TX-1] returns no linked transaction. *)
Lemma earlier_transaction_returns_no_link :
  map (fun a => (Domain.Type_ a, Domain.Value a)) (Service.FromTransaction (H := Sample.lib) Sample.tx1)
  = [ ("IP", "sha256:203.0.113.24"); ("TX_DAY_BUCKET", "sha256:day 1") ]
  /\ map (fun a => (Domain.Type_ a, Domain.Value a)) (Service.FromTransaction (H := Sample.lib) Sample.tx2)
     = [ ("IP", "sha256:203.0.113.24"); ("TX_DAY_BUCKET", "sha256:day 3") ]
  /\ snd (fst (run (Repository.FetchTransactionRelationships (H := Sample.lib) "TX-1")
                   Sample.afterBoth)) = None
  /\ Domain.tr_LinkedTransactions
       (fst (fst (run (Repository.FetchTransactionRelationships (H := Sample.lib) "TX-1")
                      Sample.afterBoth))) = [].
Proof. vm_compute. repeat split. Qed.

Lemma shared_ip_links_new_to_existing_witness :
  returnsLink (fst (run (Repository.FetchTransactionRelationships (H := Sample.lib) "TX-2")
                        Sample.afterBoth)) "TX-1" "IP"
  /\ returnsLink
       (fst (run (Repository.FetchTransactionRelationships (H := Sample.lib) "TX-1")
                 (snd (run (RelationshipService.UpsertTransaction (H := Sample.lib) 0%Z Sample.tx1)
                           Sample.afterBoth)))) "TX-2" "IP"
  /\ snd (fst (run (Repository.FetchTransactionRelationships (H := Sample.lib) "TX-1")
                   Sample.afterBoth)) = None
  /\ (forall link,
        link ∈ Domain.tr_LinkedTransactions
                 (fst (fst (run (Repository.FetchTransactionRelationships (H := Sample.lib)
                                   "TX-1") Sample.afterBoth))) ->
        Domain.lt_TransactionID link <> "TX-2").
Proof.
  assert (Husers : Forall (fun u => u <> "" /\ NUser u ∈ nodeIds (graph Sample.twoUsers))
                     [ "USR-1"; "USR-2"; "USR-2"; "USR-1" ]).
  { repeat (apply List.Forall_cons; [split; closed_fact|]). apply List.Forall_nil. }
  destruct (shared_ip_links_new_to_existing (H := Sample.lib) 0%Z 0%Z 0%Z
              Sample.tx1 Sample.tx2 Sample.twoUsers) as (Hlater & Hearlier & Hnot);
    try closed_fact; [exact Husers|].
  split; [exact Hlater|]. split; [exact Hearlier|]. apply Hnot; reflexivity.
Defined.

(** C2: the code at the failing input. On an empty graph, with a store
    that answers, the upsert of [TX-1] between two unknown users returns
    nil, where the claim has a store error; and it leaves no Transaction
    node, where its own comment has it ensure that the node exists. *)
Lemma missing_users_upsert_returns_nil :
  nodeIds (graph Sample.emptyStore) = []
  /\ fst (run (RelationshipService.UpsertTransaction (H := Sample.lib) 0%Z Sample.tx1)
              Sample.emptyStore) = None
  /\ nodeIds (graph (snd (run (RelationshipService.UpsertTransaction (H := Sample.lib) 0%Z
                                 Sample.tx1) Sample.emptyStore))) = [].
Proof. vm_compute. repeat split. Qed.

Lemma missing_user_no_transaction_no_error_witness :
  let tx := Service.transactionOf 0%Z Sample.tx1 in
  let attrs := Service.FromTransaction (H := Sample.lib) Sample.tx1 in
  snd (run (Repository.UpsertTransaction (H := Sample.lib) tx attrs) Sample.emptyStore)
  = Sample.emptyStore
  /\ (failure Sample.emptyStore = None ->
      fst (run (Repository.UpsertTransaction (H := Sample.lib) tx attrs) Sample.emptyStore) = None)
  /\ (NTransaction (Domain.t_ID tx) ∉ nodeIds (graph Sample.emptyStore) ->
      NTransaction (Domain.t_ID tx)
      ∉ nodeIds (graph (snd (run (Repository.UpsertTransaction (H := Sample.lib) tx attrs)
                                 Sample.emptyStore)))).
Proof.
  apply (missing_user_no_transaction_no_error (H := Sample.lib)); try closed_fact.
  left. closed_fact.
Defined.

Lemma shortest_path_to_self_witness :
  Repository.ShortestPathBetweenUsers (H := Sample.lib) "USR-1" "USR-1"
  = Ret (trivialPath "USR-1", None)
  /\ NoStoreCall (Repository.ShortestPathBetweenUsers (H := Sample.lib) "USR-1" "USR-1")
  /\ (forall m : MemoryClient,
        run (Repository.ShortestPathBetweenUsers (H := Sample.lib) "USR-1" "USR-1") m
        = ((trivialPath "USR-1", None), m))
  /\ (forall s : GraphStore,
        run (Repository.ShortestPathBetweenUsers (H := Sample.lib) "USR-1" "USR-1") s
        = ((trivialPath "USR-1", None), s)).
Proof. apply (shortest_path_to_self (H := Sample.lib) "USR-1"). closed_fact. Defined.

(** C7, the claim as stated fails: the two sample addresses differ in
    four components and have the same canonical string. *)
Lemma delimiter_in_component_collides :
  Service.normalizeAddress Sample.addressA = Service.normalizeAddress Sample.addressB
  /\ addressComponents Sample.addressA <> addressComponents Sample.addressB.
Proof. split; closed_fact. Qed.

Lemma normalizeAddress_equal_iff_components_witness :
  Cases.homeA <> Cases.homeB
  /\ delimiterFree Cases.homeA /\ delimiterFree Cases.homeB
  /\ addressComponents Cases.homeA = addressComponents Cases.homeB
  /\ (addressComponents Cases.homeA = addressComponents Cases.homeB ->
      Service.normalizeAddress Cases.homeA = Service.normalizeAddress Cases.homeB)
  /\ (Service.normalizeAddress Cases.homeA = Service.normalizeAddress Cases.homeB
      <-> addressComponents Cases.homeA = addressComponents Cases.homeB).
Proof.
  assert (Ha : delimiterFree Cases.homeA) by (unfold delimiterFree; vm_compute; repeat constructor).
  assert (Hb : delimiterFree Cases.homeB) by (unfold delimiterFree; vm_compute; repeat constructor).
  destruct (normalizeAddress_equal_iff_components Cases.homeA Cases.homeB) as [Hto Hiff].
  split; [discriminate|]. split; [exact Ha|]. split; [exact Hb|].
  split; [reflexivity|]. split; [exact Hto|exact (Hiff Ha Hb)].
Defined.



End Closed.

(** ** The bulk ingestor *)

Section CollectFacts.
Import BulkIngestor.

Lemma collect_no_cancellation (errs acc : list error) :
  Forall (fun e => isCancellation e = false) errs ->
  collect (map Some errs) acc = asError (acc ++ errs).
Proof.
  intros Hf. revert acc. induction Hf as [|e errs He Hf IH]; intros acc; simpl.
  - rewrite app_nil_r. reflexivity.
  - rewrite He, IH, <- app_assoc. reflexivity.
Qed.

(** The loop over [errCh] returns the first cancellation error it meets,
    as it is, whatever it has gathered before. *)
Lemma collect_cancellation (ch : list (option error)) (acc : list error) (e : error) :
  Some e ∈ ch -> isCancellation e = true ->
  exists e', collect ch acc = Some e' /\ Some e' ∈ ch /\ isCancellation e' = true.
Proof.
  intros Hin He. revert acc. induction ch as [|o ch IH]; intros acc; [inversion Hin|].
  destruct o as [e0|]; simpl.
  - destruct (isCancellation e0) eqn:He0.
    + exists e0. split; [reflexivity|]. split; [apply elem_of_cons; auto|exact He0].
    + apply elem_of_cons in Hin as [Heq|Hin]; [congruence|].
      destruct (IH Hin (acc ++ [e0])) as (e' & Hc & Hin' & He').
      exists e'. split; [exact Hc|]. split; [apply elem_of_cons; auto|exact He'].
  - apply elem_of_cons in Hin as [Heq|Hin]; [discriminate|].
    destruct (IH Hin acc) as (e' & Hc & Hin' & He').
    exists e'. split; [exact Hc|]. split; [apply elem_of_cons; auto|exact He'].
Qed.

Lemma asError_length (errs : list error) :
  asError errs = None <-> length errs = 0.
Proof. destruct errs; simpl; split; intros Heq; congruence. Qed.

End CollectFacts.

Section RunFacts.
Import BulkIngestor.
Context {S : Type}.
Variable total : nat.
Variable workerFn : bool -> nat -> S -> option error * S.
Variable verdict : nat -> option error.
Variable Inv : S -> Prop.
Variable Post : nat -> S -> Prop.
Hypothesis Hverdict : forall i st, Inv st -> fst (workerFn false i st) = verdict i.
Hypothesis Hinv : forall i st, Inv st -> Inv (snd (workerFn false i st)).
Hypothesis Hpost : forall i st, Inv st -> verdict i = None -> Post i (snd (workerFn false i st)).
Hypothesis Hstable : forall i j st, Inv st -> Post i st -> Post i (snd (workerFn false j st)).

Lemma omap_insert_perm {A B : Type} (f : A -> option B) (l : list A) (w : nat) (x y : A) :
  l !! w = Some x ->
  exists rest, omap f l ≡ₚ option_list (f x) ++ rest
               /\ omap f (<[w:=y]> l) ≡ₚ option_list (f y) ++ rest.
Proof.
  intros Hw. exists (omap f (take w l) ++ omap f (drop (Datatypes.S w) l)).
  rewrite insert_take_drop by (eapply lookup_lt_Some; exact Hw).
  rewrite <- (take_drop_middle l w x Hw) at 1.
  rewrite !omap_app. 
  assert (Hc : forall z t, omap f (z :: t) = option_list (f z) ++ omap f t).
  { intros z t. simpl. destruct (f z); reflexivity. }
  rewrite !Hc. split; rewrite !app_assoc; apply Permutation_app_tail, Permutation_app_comm.
Qed.

Lemma step_steady (e : Event) (p p' : Pool S) :
  e <> CtxDone -> steady total verdict Inv Post p -> step total workerFn e p = Some p' ->
  steady total verdict Inv Post p'.
Proof.
  intros He (Hctx & Hbroke & Hnext & HI & Hbusy & (errs & Hch & Hrep) & HP) Hstep.
  destruct e as [|w| |w|w sent]; [congruence| | | |]; unfold step in Hstep.
  - (* Dispatch *)
    destruct (workers p !! w) as [[| | |]|] eqn:Hw; try discriminate.
    destruct (negb (broke p) && Nat.ltb (next p) total) eqn:Hc; [|discriminate].
    injection Hstep as <-. apply andb_true_iff in Hc as [_ Hlt]. apply Nat.ltb_lt in Hlt.
    unfold steady; cbn [ctxDone broke next workers errCh attempted store]. unfold setWorker.
    destruct (omap_insert_perm (fun w => match w with Busy i => Some i | _ => None end)
                (workers p) w Idle (Busy (next p)) Hw) as (rest & H1 & H2).
    destruct (omap_insert_perm (fun w => match w with Reporting e => Some e | _ => None end)
                (workers p) w Idle (Busy (next p)) Hw) as (rest' & H1' & H2').
    fold (busyIdx (workers p)) in H1. fold (busyIdx (<[w:=Busy (next p)]> (workers p))) in H2.
    fold (reporting (workers p)) in H1'. fold (reporting (<[w:=Busy (next p)]> (workers p))) in H2'.
    repeat split; auto; try lia.
    + rewrite H2. cbn [option_list option_rect]. rewrite seq_S. cbn [app plus].
      rewrite <- Hbusy, H1. cbn [option_list option_rect app].
      rewrite <- app_assoc. apply Permutation_app_head.
      apply (Permutation_app_comm [next p] rest).
    + exists errs. split; [exact Hch|]. rewrite H2', <- Hrep, H1'. reflexivity.
  - (* Break *)
    rewrite Hctx in Hstep. discriminate.
  - (* Work *)
    destruct (workers p !! w) as [[|idx| |]|] eqn:Hw; try discriminate.
    rewrite Hctx in Hstep.
    pose proof (Hverdict idx (store p) HI) as Hv.
    pose proof (Hinv idx (store p) HI) as HI'.
    destruct (workerFn false idx (store p)) as [err s'] eqn:Hfn. cbn [fst snd] in Hv, HI'.
    injection Hstep as <-.
    unfold steady; cbn [ctxDone broke next workers errCh attempted store]. unfold setWorker.
    set (st := match err with Some e => Reporting e | None => Idle end).
    destruct (omap_insert_perm (fun w => match w with Busy i => Some i | _ => None end)
                (workers p) w (Busy idx) st Hw) as (rest & H1 & H2).
    destruct (omap_insert_perm (fun w => match w with Reporting e => Some e | _ => None end)
                (workers p) w (Busy idx) st Hw) as (rest' & H1' & H2').
    fold (busyIdx (workers p)) in H1. fold (busyIdx (<[w:=st]> (workers p))) in H2.
    fold (reporting (workers p)) in H1'. fold (reporting (<[w:=st]> (workers p))) in H2'.
    assert (Hst1 : match st with Busy i => Some i | _ => None end = None) by (unfold st; destruct err; reflexivity).
    assert (Hst2 : match st with Reporting e => Some e | _ => None end = verdict idx) by (unfold st; rewrite Hv; destruct (verdict idx); reflexivity).
    rewrite Hst1 in H2. rewrite Hst2 in H2'. cbn [option_list option_rect app] in *.
    repeat split; auto.
    + rewrite H2, <- Hbusy, H1, <- app_assoc. reflexivity.
    + exists errs. split; [exact Hch|]. rewrite H2', omap_app, <- Hrep, H1'.
      cbn [omap list_omap]. destruct (verdict idx) as [e|]; cbn [option_list option_rect app].
      * rewrite <- app_assoc. apply Permutation_app_head.
        apply (Permutation_app_comm [e] rest').
      * rewrite app_nil_r. reflexivity.
    + intros i Hi Hvi. apply elem_of_app in Hi as [Hi|Hi].
      * assert (Hs' : s' = snd (workerFn false idx (store p))) by (rewrite Hfn; reflexivity).
        rewrite Hs'. apply Hstable; auto.
      * apply list_elem_of_singleton in Hi. subst i.
        assert (Hs' : s' = snd (workerFn false idx (store p))) by (rewrite Hfn; reflexivity).
        rewrite Hs'. apply Hpost; auto.
  - (* Report *)
    destruct (workers p !! w) as [[| |e|]|] eqn:Hw; try discriminate.
    destruct sent; [|rewrite Hctx in Hstep; discriminate].
    injection Hstep as <-.
    unfold steady; cbn [ctxDone broke next workers errCh attempted store]. unfold setWorker.
    destruct (omap_insert_perm (fun w => match w with Busy i => Some i | _ => None end)
                (workers p) w (Reporting e) Idle Hw) as (rest & H1 & H2).
    destruct (omap_insert_perm (fun w => match w with Reporting e => Some e | _ => None end)
                (workers p) w (Reporting e) Idle Hw) as (rest' & H1' & H2').
    fold (busyIdx (workers p)) in H1. fold (busyIdx (<[w:=Idle]> (workers p))) in H2.
    fold (reporting (workers p)) in H1'. fold (reporting (<[w:=Idle]> (workers p))) in H2'.
    cbn [option_list option_rect app] in *.
    repeat split; auto.
    + rewrite H2, <- H1. exact Hbusy.
    + exists (errs ++ [e]). split; [rewrite Hch, map_app; reflexivity|].
      rewrite H2', <- Hrep, H1', <- app_assoc. reflexivity.
Qed.

Lemma steps_steady (sched : list Event) (p p' : Pool S) :
  neverCancelled sched -> steady total verdict Inv Post p ->
  steps total workerFn sched p = Some p' -> steady total verdict Inv Post p'.
Proof.
  revert p. induction sched as [|e sched IH]; intros p Hnc Hp Hsteps; simpl in Hsteps.
  - injection Hsteps as <-. exact Hp.
  - destruct (step total workerFn e p) as [p1|] eqn:Hstep; [|discriminate].
    apply Forall_cons in Hnc as [He Hnc].
    apply (IH p1); [exact Hnc|eapply step_steady; eauto|exact Hsteps].
Qed.

Lemma resting_nothing_held (ws : list Worker) :
  forallb resting ws = true -> busyIdx ws = [] /\ reporting ws = [].
Proof.
  induction ws as [|w ws IH]; [auto|]. simpl. intros Hall.
  apply andb_true_iff in Hall as [Hw Hall]. destruct (IH Hall) as [Hb Hr].
  destruct w; try discriminate; auto.
Qed.

Lemma initial_steady (nworkers : nat) (s : S) :
  Inv s -> steady total verdict Inv Post (initial nworkers s).
Proof.
  intros Hs. unfold steady, initial; cbn [ctxDone broke next workers errCh attempted store].
  assert (Hrest : forallb resting (replicate nworkers Idle) = true).
  { induction nworkers; [reflexivity|exact IHnworkers]. }
  destruct (resting_nothing_held _ Hrest) as [Hb Hr].
  rewrite Hb, Hr. repeat split; auto; try lia.
  - exists []. auto.
  - intros i Hi. inversion Hi.
Qed.

(** A run whose context is never cancelled attempts every item, gathers
    the error of every item that has one, and returns them all. *)
Lemma run_never_cancelled (nworkers : nat) (sched : list Event) (s s' : S) (r : option error) :
  (forall i e, verdict i = Some e -> isCancellation e = false) ->
  Inv s -> neverCancelled sched ->
  run total workerFn nworkers sched s = Some (r, s') ->
  exists errs,
    r = asError errs
    /\ errs ≡ₚ omap verdict (seq 0 total)
    /\ Inv s'
    /\ (forall i, i < total -> verdict i = None -> Post i s').
Proof.
  intros Hcancel Hs Hnc Hrun. unfold run in Hrun.
  destruct (Nat.eqb_spec total 0) as [Hzero|Hpos].
  { injection Hrun as <- <-. exists []. rewrite Hzero. repeat split; auto. intros i Hi. lia. }
  destruct (steps total workerFn sched (initial nworkers s)) as [p|] eqn:Hsteps; [|discriminate].
  destruct (finished total p) eqn:Hfin; [|discriminate]. injection Hrun as <- <-.
  pose proof (steps_steady sched _ p Hnc (initial_steady nworkers s Hs) Hsteps)
    as (Hctx & Hbroke & Hnext & HI & Hbusy & (errs & Hch & Hrep) & HP).
  unfold finished in Hfin. rewrite Hbroke in Hfin. cbn [orb] in Hfin.
  apply andb_true_iff in Hfin as [Hn Hrest]. apply Nat.eqb_eq in Hn.
  destruct (resting_nothing_held _ Hrest) as [Hb Hr].
  rewrite Hb, app_nil_r, Hn in Hbusy. rewrite Hr, app_nil_r in Hrep.
  assert (Herrs : errs ≡ₚ omap verdict (seq 0 total)) by (rewrite Hrep, Hbusy; reflexivity).
  exists errs. split.
  - rewrite Hch. apply (collect_no_cancellation errs []).
    apply Forall_forall. intros e He. rewrite Herrs in He.
    apply list_elem_of_omap in He as (i & _ & Hi). eapply Hcancel. exact Hi.
  - repeat split; auto. intros i Hi Hv. apply HP; [|exact Hv].
    rewrite Hbusy. apply elem_of_seq. lia.
Qed.

End RunFacts.

Section RunProgress.
Import BulkIngestor.
Context {S : Type}.
Variable total : nat.
Variable workerFn : bool -> nat -> S -> option error * S.

Lemma quiet_pool_completes (nworkers : nat) (k : nat) :
  0 < nworkers ->
  forall p : Pool S,
    total - next p = k -> next p <= total -> broke p = false -> ctxDone p = false ->
    workers p = replicate nworkers Idle ->
    exists sched p', neverCancelled sched /\ steps total workerFn sched p = Some p'
                     /\ finished total p' = true.
Proof.
  intros Hw. induction k as [|k IH]; intros p Hk Hle Hbroke Hctx Hws.
  - exists [], p. split; [apply Forall_nil; exact I|]. split; [reflexivity|].
    unfold finished. replace (Nat.eqb (next p) total) with true
      by (symmetry; apply Nat.eqb_eq; lia).
    rewrite orb_true_r, Hws. cbn [andb].
    clear. induction nworkers; [reflexivity|assumption].
  - destruct p as [nx br cd ws ch att st].
    cbn [next broke ctxDone workers] in Hk, Hle, Hbroke, Hctx, Hws. subst br cd ws.
    assert (Hlt : Nat.ltb nx total = true) by (apply Nat.ltb_lt; lia).
    assert (Hlen : 0 < length (replicate nworkers Idle)) by (rewrite length_replicate; exact Hw).
    destruct (workerFn false nx st) as [err s'] eqn:Hfn.
    set (after :=
           {| next := Datatypes.S nx; broke := false; ctxDone := false;
              workers := replicate nworkers Idle;
              errCh := ch ++ match err with Some e => [Some e] | None => [] end;
              attempted := att ++ [nx]; store := s' |}).
    assert (Hafter : exists sched p', neverCancelled sched
                       /\ steps total workerFn sched after = Some p'
                       /\ finished total p' = true).
    { apply IH; unfold after; cbn [next broke ctxDone workers]; (reflexivity || lia). }
    destruct Hafter as (sched & p' & Hnc & Hsteps & Hfin).
    exists (Dispatch 0 :: Work 0 :: match err with Some _ => [Report 0 true] | None => [] end
            ++ sched), p'.
    split.
    { unfold neverCancelled. rewrite !Forall_cons, Forall_app.
      repeat split; try discriminate; [|exact Hnc].
      destruct err; repeat constructor; discriminate. }
    split; [|exact Hfin].
    cbn [steps step workers broke next].
    rewrite lookup_replicate_2 by exact Hw. rewrite Hlt.
    cbn [negb andb steps step workers broke next ctxDone store errCh attempted]. unfold setWorker.
    cbn [workers]. rewrite list_lookup_insert_eq by exact Hlen. rewrite Hfn.
    cbn [workers broke next ctxDone store errCh attempted]. rewrite list_insert_insert_eq.
    destruct err as [e|]; cbn [app steps step workers].
    + rewrite list_lookup_insert_eq by exact Hlen.
      unfold setWorker. cbn [workers broke next ctxDone store errCh attempted].
      rewrite list_insert_insert_eq, insert_replicate. exact Hsteps.
    + rewrite insert_replicate. unfold after in Hsteps. rewrite app_nil_r in Hsteps.
      exact Hsteps.
Qed.

(** With a worker, [run] has a complete run under a context that is never
    cancelled. *)
Lemma run_completes (nworkers : nat) (s : S) :
  0 < nworkers ->
  exists sched, neverCancelled sched /\ is_Some (run total workerFn nworkers sched s).
Proof.
  intros Hw.
  destruct (quiet_pool_completes nworkers (total - 0) Hw (initial nworkers s))
    as (sched & p' & Hnc & Hsteps & Hfin); try reflexivity; cbn [next initial]; try lia.
  exists sched. split; [exact Hnc|]. unfold run.
  destruct (Nat.eqb total 0); [eexists; reflexivity|].
  rewrite Hsteps, Hfin. eexists. reflexivity.
Qed.

End RunProgress.

(** ** Bulk ingestion against the graph store *)

Section IngestFacts.
Import Graph Store BulkIngestor.
Context `{GoLib}.

Lemma omap_lookup_seq {A B : Type} (f : A -> option B) (l : list A) :
  omap (fun i => match l !! i with Some x => f x | None => None end) (seq 0 (length l))
  = omap f l.
Proof.
  induction l as [|x l IH] using rev_ind; [reflexivity|].
  rewrite length_app, Nat.add_comm. cbn [length plus]. rewrite seq_S, !omap_app. cbn [plus].
  f_equal.
  - rewrite <- IH. apply list_omap_ext. apply Forall2_same_length_lookup_2; [reflexivity|].
    intros i a b Ha Hb. rewrite Ha in Hb. injection Hb as <-.
    apply lookup_seq in Ha as [-> Hlt]. cbn [plus].
    rewrite lookup_app_l by exact Hlt. reflexivity.
  - cbn [omap list_omap]. rewrite list_lookup_middle by reflexivity. reflexivity.
Qed.

Lemma userVerdict_count (users : list Service.UserInput) :
  length (omap userVerdict users)
  = length (filter (fun u => Service.ui_ID u = "") users).
Proof.
  induction users as [|u users IH]; [reflexivity|].
  cbn [omap list_omap]. rewrite filter_cons. unfold userVerdict at 1.
  destruct (String.eqb_spec (Service.ui_ID u) "") as [Hu|Hu].
  - rewrite decide_True by exact Hu. cbn [length]. rewrite <- IH. reflexivity.
  - rewrite decide_False by exact Hu. exact IH.
Qed.

Lemma userVerdict_None (u : Service.UserInput) :
  userVerdict u = None <-> Service.ui_ID u <> "".
Proof.
  unfold userVerdict. destruct (String.eqb_spec (Service.ui_ID u) ""); split; congruence.
Qed.

Lemma run_service_UpsertUser (now : Time) (u : Service.UserInput) (s : GraphStore) :
  failure s = None ->
  fst (Graph.run (RelationshipService.UpsertUser now u) s) = userVerdict u
  /\ failure (snd (Graph.run (RelationshipService.UpsertUser now u) s)) = None
  /\ (forall n, n ∈ nodeIds (graph s) ->
                n ∈ nodeIds (graph (snd (Graph.run (RelationshipService.UpsertUser now u) s))))
  /\ (Service.ui_ID u <> "" ->
      NUser (Service.ui_ID u)
      ∈ nodeIds (graph (snd (Graph.run (RelationshipService.UpsertUser now u) s)))).
Proof.
  intros Hs. unfold RelationshipService.UpsertUser, userVerdict.
  destruct (String.eqb_spec (Service.ui_ID u) "") as [Hu|Hu].
  - cbn [Graph.run fst snd]. repeat split; auto. contradiction.
  - rewrite run_UpsertUser by assumption. cbn [fst snd failure graph].
    repeat split.
    + intros n Hn. apply runOps_nodeIds_mono, Hn.
    + intros _. rewrite nodeIds_runOps, upsertUserOps_nodeTargets.
      apply elem_of_mergeAll. right. apply elem_of_cons. left. reflexivity.
Qed.



Lemma IngestUsers_never_cancelled (nworkers : nat) (now : Time)
  (users : list Service.UserInput) (sched : list Event) (s s' : GraphStore)
  (r : option error) :
  neverCancelled sched -> failure s = None ->
  IngestUsers nworkers now users sched s = Some (r, s') ->
  exists errs,
    r = asError errs
    /\ errs ≡ₚ omap userVerdict users
    /\ (forall u, u ∈ users -> Service.ui_ID u <> "" ->
        NUser (Service.ui_ID u) ∈ nodeIds (graph s')).
Proof.
  intros Hnc Hs Hrun. unfold IngestUsers in Hrun.
  eapply (run_never_cancelled (length users) _
            (fun i => match users !! i with Some u => userVerdict u | None => None end)
            (fun st => failure st = None)
            (fun i st => match users !! i with
                         | Some u => Service.ui_ID u <> "" ->
                                     NUser (Service.ui_ID u) ∈ nodeIds (graph st)
                         | None => True
                         end)) in Hrun; try assumption.
  - destruct Hrun as (errs & Hr & Hperm & _ & Hpost).
    exists errs. split; [exact Hr|]. split; [rewrite Hperm, omap_lookup_seq; reflexivity|].
    intros u Hu Hid. apply list_elem_of_lookup in Hu as [i Hi].
    specialize (Hpost i (lookup_lt_Some _ _ _ Hi)). rewrite Hi in Hpost.
    apply Hpost; [|exact Hid]. apply userVerdict_None, Hid.
  - intros i st Hst. destruct (users !! i) as [u|]; [|reflexivity].
    apply (run_service_UpsertUser now u st Hst).
  - intros i st Hst. destruct (users !! i) as [u|]; [|exact Hst].
    apply (run_service_UpsertUser now u st Hst).
  - intros i st Hst Hv. destruct (users !! i) as [u|]; [|exact I].
    apply (run_service_UpsertUser now u st Hst).
  - intros i j st Hst Hpost. destruct (users !! i) as [u|]; [|exact I].
    intros Hid. destruct (users !! j) as [u'|]; [|exact (Hpost Hid)].
    apply (run_service_UpsertUser now u' st Hst), Hpost, Hid.
  - intros i e. destruct (users !! i) as [u|]; [|discriminate].
    unfold userVerdict. destruct (String.eqb _ _); [intros [= <-]; reflexivity|discriminate].
Qed.


End IngestFacts.

(** ** Completion under every interleaving *)

Section EveryInterleaving.
Import BulkIngestor.
Context {S : Type}.
Variable total : nat.
Variable workerFn : bool -> nat -> S -> option error * S.











End EveryInterleaving.

(** ** Partial failure of a batch *)

Section BatchFacts.
Import Graph Store BulkIngestor.
Context `{GoLib}.






End BatchFacts.

Section ClosedBatches.
Import Graph Store BulkIngestor.



(** C4: the error of an item is a cancellation error and the batch does
    not return it. The store answers the write of [USR-1] with
    [context.Canceled], which the service wraps; the context is done when
    the worker reaches its [select], and the worker takes
    [case <-ctx.Done(): return]. A batch of this one item returns nil; with
    an item without ID before it, the batch returns the [TaskError] of that
    item's validation error alone. *)
Lemma cancellation_error_can_be_dropped :
  let item := Sample.user "USR-1" "" [] in
  let err := wrapError "upsert user USR-1: " context_Canceled in
  fst (Graph.run (RelationshipService.UpsertUser (H := Sample.lib) 0%Z item)
         Sample.cancelledStore) = Some err
  /\ isCancellation err = true
  /\ IngestUsers (H := Sample.lib) 1 0%Z [item]
       [Dispatch 0; CtxDone; Work 0; Report 0 false] Sample.cancelledStore
     = Some (None, Sample.cancelledStore)
  /\ IngestUsers (H := Sample.lib) 1 0%Z [Sample.user "" "" []; item]
       [Dispatch 0; Work 0; Report 0 true; Dispatch 0; CtxDone; Work 0; Report 0 false]
       Sample.cancelledStore
     = Some (Some (TaskError [errorString "user ID is required"]), Sample.cancelledStore).
Proof. vm_compute. repeat split. Qed.

End ClosedBatches.

(** ** The bulk ingestor under any schedule *)

Section AnySchedule.
Import BulkIngestor.
Context {S : Type}.
Variable total : nat.
Variable workerFn : bool -> nat -> S -> option error * S.

Lemma collect_received (ch : list (option error)) (acc : list error) :
  collect ch acc
  = match List.find isCancellation (received ch) with
    | Some e => Some e
    | None => asError (acc ++ received ch)
    end.
Proof.
  revert acc. induction ch as [|[e|] ch IH]; intros acc; cbn [collect received omap list_omap id].
  - rewrite app_nil_r. reflexivity.
  - fold (received ch). cbn [List.find]. destruct (isCancellation e); [reflexivity|].
    rewrite IH, <- app_assoc. reflexivity.
  - apply IH.
Qed.

Lemma busyIdx_insert (ws : list Worker) (w : nat) (x y : Worker) :
  ws !! w = Some x ->
  exists rest,
    busyIdx ws ≡ₚ option_list (match x with Busy i => Some i | _ => None end) ++ rest
    /\ busyIdx (<[w:=y]> ws)
       ≡ₚ option_list (match y with Busy i => Some i | _ => None end) ++ rest.
Proof. apply omap_insert_perm. Qed.

Lemma reporting_insert (ws : list Worker) (w : nat) (x y : Worker) :
  ws !! w = Some x ->
  exists rest,
    reporting ws ≡ₚ option_list (match x with Reporting e => Some e | _ => None end) ++ rest
    /\ reporting (<[w:=y]> ws)
       ≡ₚ option_list (match y with Reporting e => Some e | _ => None end) ++ rest.
Proof. apply omap_insert_perm. Qed.

Lemma step_accounted (e : Event) (p p' : Pool S) :
  accounted total p -> step total workerFn e p = Some p' -> accounted total p'.
Proof.
  intros (Hnext & Hnd & Hlt & Hlen) Hstep.
  destruct e as [|w| |w|w sent]; unfold step in Hstep.
  - injection Hstep as <-. unfold accounted; cbn. auto.
  - destruct (workers p !! w) as [[| | |]|] eqn:Hw; try discriminate.
    destruct (negb (broke p) && Nat.ltb (next p) total) eqn:Hc; [|discriminate].
    injection Hstep as <-. apply andb_true_iff in Hc as [_ Hc]. apply Nat.ltb_lt in Hc.
    destruct (busyIdx_insert _ w Idle (Busy (next p)) Hw) as (rest & H1 & H2).
    destruct (reporting_insert _ w Idle (Busy (next p)) Hw) as (rest' & H1' & H2').
    cbn [option_list option_rect app] in *.
    unfold accounted; cbn [next workers errCh attempted]. unfold setWorker.
    rewrite H2, H2', <- H1'. rewrite H1 in Hnd. setoid_rewrite H1 in Hlt.
    split; [lia|]. split; [|split; [|exact Hlen]].
    + rewrite <- Permutation_middle. apply NoDup_cons. split; [|exact Hnd].
      intros Hin. apply Hlt in Hin. lia.
    + intros i Hi. rewrite ?H2 in Hi. rewrite <- Permutation_middle in Hi.
      apply elem_of_cons in Hi as [->|Hi]; [lia|]. apply Hlt in Hi. lia.
  - destruct (ctxDone p && negb (broke p) && Nat.ltb (next p) total); [|discriminate].
    injection Hstep as <-. unfold accounted; cbn. auto.
  - destruct (workers p !! w) as [[|idx| |]|] eqn:Hw; try discriminate.
    destruct (workerFn (ctxDone p) idx (store p)) as [err s'].
    injection Hstep as <-.
    set (st := match err with Some e => Reporting e | None => Idle end).
    destruct (busyIdx_insert _ w (Busy idx) st Hw) as (rest & H1 & H2).
    destruct (reporting_insert _ w (Busy idx) st Hw) as (rest' & H1' & H2').
    assert (Hst : match st with Busy i => Some i | _ => None end = None)
      by (unfold st; destruct err; reflexivity).
    rewrite Hst in H2. cbn [option_list option_rect app] in *.
    unfold accounted; cbn [next workers errCh attempted]. unfold setWorker. fold st.
    rewrite H2, H2'. rewrite H1 in Hnd. setoid_rewrite H1 in Hlt. rewrite H1' in Hlen.
    split; [exact Hnext|]. split; [|split].
    + rewrite <- app_assoc. exact Hnd.
    + intros i Hi. rewrite ?H2 in Hi. apply Hlt. rewrite <- app_assoc in Hi. exact Hi.
    + rewrite length_app, length_app. cbn [length].
      assert (length (option_list match st with Reporting e => Some e | _ => None end) <= 1)
        by (destruct st; cbn; lia).
      lia.
  - destruct (workers p !! w) as [[| |e|]|] eqn:Hw; try discriminate.
    assert (Hsome : exists st, (st = Idle \/ st = Returned)
              /\ workers p' = <[w:=st]> (workers p) /\ next p' = next p
              /\ attempted p' = attempted p
              /\ length (errCh p') <= Datatypes.S (length (errCh p))).
    { destruct sent.
      - injection Hstep as <-. exists Idle. cbn. rewrite length_app. cbn. repeat split; auto; lia.
      - destruct (ctxDone p); [|discriminate]. injection Hstep as <-.
        exists Returned. cbn. repeat split; auto. }
    destruct Hsome as (st & Hst & Hws & Hn & Hatt & Hch).
    destruct (busyIdx_insert _ w (Reporting e) st Hw) as (rest & H1 & H2).
    destruct (reporting_insert _ w (Reporting e) st Hw) as (rest' & H1' & H2').
    assert (Hst1 : match st with Busy i => Some i | _ => None end = None)
      by (destruct Hst; subst st; reflexivity).
    assert (Hst2 : match st with Reporting e => Some e | _ => None end = None)
      by (destruct Hst; subst st; reflexivity).
    rewrite Hst1 in H2. rewrite Hst2 in H2'. cbn [option_list option_rect app] in *.
    unfold accounted. rewrite Hws, Hn, Hatt, H2, H2'. rewrite H1 in Hnd. setoid_rewrite H1 in Hlt. rewrite H1' in Hlen.
    cbn [length] in Hlen. split; [exact Hnext|]. split; [exact Hnd|].
    split; [intros i Hi; rewrite H2 in Hi; auto|lia].
Qed.

Lemma steps_accounted (sched : list Event) (p p' : Pool S) :
  accounted total p -> steps total workerFn sched p = Some p' -> accounted total p'.
Proof.
  revert p. induction sched as [|e sched IH]; intros p Hp Hsteps; simpl in Hsteps.
  - injection Hsteps as <-. exact Hp.
  - destruct (step total workerFn e p) as [p1|] eqn:Hstep; [|discriminate].
    apply (IH p1); [eapply step_accounted; eauto|exact Hsteps].
Qed.

Lemma initial_quiet (nworkers : nat) :
  busyIdx (replicate nworkers Idle) = [] /\ reporting (replicate nworkers Idle) = [].
Proof.
  apply resting_nothing_held. induction nworkers; [reflexivity|assumption].
Qed.

(** X1. Whatever the schedule, cancelled or not: [workerFn] is called at
    most once on an index and only on indices below [total], and [errCh]
    never holds more errors than there were calls, so never more than its
    capacity [total]: a send on it cannot block. *)
Theorem each_index_attempted_at_most_once (nworkers : nat) (sched : list Event) (s : S)
  (p : Pool S) :
  steps total workerFn sched (initial nworkers s) = Some p ->
  NoDup (attempted p)
  /\ (forall i, i ∈ attempted p -> i < total)
  /\ length (errCh p) <= length (attempted p)
  /\ length (attempted p) <= total.
Proof.
  intros Hsteps.
  assert (Hinit : accounted total (initial nworkers s)).
  { unfold accounted, initial; cbn [next workers errCh attempted].
    destruct (initial_quiet nworkers) as [-> ->]. cbn.
    repeat split; try lia; [constructor|]. intros i Hi. inversion Hi. }
  destruct (steps_accounted sched _ p Hinit Hsteps) as (Hnext & Hnd & Hlt & Hlen).
  assert (Hatt : NoDup (attempted p)) by (apply NoDup_app in Hnd; tauto).
  assert (Hrange : forall i, i ∈ attempted p -> i < total).
  { intros i Hi. assert (i < next p) by (apply Hlt, elem_of_app; auto). lia. }
  repeat split; [exact Hatt|exact Hrange|lia|].
  enough (length (attempted p) <= length (seq 0 total)) as Hle
    by (rewrite length_seq in Hle; exact Hle).
  apply submseteq_length, NoDup_submseteq; [exact Hatt|].
  intros i Hi. apply elem_of_seq. specialize (Hrange i Hi). lia.
Qed.

Lemma step_errorsAll (P : error -> Prop) (e : Event) (p p' : Pool S) :
  (forall done i st err, fst (workerFn done i st) = Some err -> P err) ->
  errorsAll P p -> step total workerFn e p = Some p' -> errorsAll P p'.
Proof.
  intros HP [Hch Hrep] Hstep.
  destruct e as [|w| |w|w sent]; unfold step in Hstep.
  - injection Hstep as <-. split; assumption.
  - destruct (workers p !! w) as [[| | |]|] eqn:Hw; try discriminate.
    destruct (negb (broke p) && Nat.ltb (next p) total); [|discriminate].
    injection Hstep as <-.
    destruct (reporting_insert _ w Idle (Busy (next p)) Hw) as (rest' & H1' & H2').
    split; [exact Hch|]. cbn [workers]. unfold setWorker. rewrite H2', <- H1'. exact Hrep.
  - destruct (ctxDone p && negb (broke p) && Nat.ltb (next p) total); [|discriminate].
    injection Hstep as <-. split; assumption.
  - destruct (workers p !! w) as [[|idx| |]|] eqn:Hw; try discriminate.
    pose proof (HP (ctxDone p) idx (store p)) as Hfn.
    destruct (workerFn (ctxDone p) idx (store p)) as [err s']. cbn [fst] in Hfn.
    injection Hstep as <-.
    set (st := match err with Some e => Reporting e | None => Idle end).
    destruct (reporting_insert _ w (Busy idx) st Hw) as (rest' & H1' & H2').
    split; [exact Hch|]. cbn [workers]. unfold setWorker. fold st. rewrite H2'.
    rewrite H1' in Hrep. cbn [option_list option_rect app] in Hrep.
    apply Forall_app. split; [|exact Hrep].
    unfold st. destruct err as [e|]; cbn; [|constructor].
    apply Forall_cons. split; [apply Hfn; reflexivity|constructor].
  - destruct (workers p !! w) as [[| |e|]|] eqn:Hw; try discriminate.
    destruct (reporting_insert _ w (Reporting e) Idle Hw) as (rest1 & H1 & H2).
    destruct (reporting_insert _ w (Reporting e) Returned Hw) as (rest2 & H3 & H4).
    cbn [option_list option_rect app] in *.
    assert (He : P e /\ Forall P rest1 /\ Forall P rest2).
    { pose proof Hrep as Hrep'. rewrite H1 in Hrep. rewrite H3 in Hrep'.
      apply Forall_cons in Hrep as [? ?]. apply Forall_cons in Hrep' as [? ?]. auto. }
    destruct He as (He & Hr1 & Hr2).
    destruct sent.
    + injection Hstep as <-. split; cbn [errCh workers]; unfold setWorker.
      * unfold received. rewrite omap_app. apply Forall_app. split; [exact Hch|].
        cbn. apply Forall_cons. split; [exact He|constructor].
      * rewrite H2. exact Hr1.
    + destruct (ctxDone p); [|discriminate]. injection Hstep as <-.
      split; cbn [errCh workers]; unfold setWorker; [exact Hch|]. rewrite H4. exact Hr2.
Qed.

Lemma steps_errorsAll (P : error -> Prop) (sched : list Event) (p p' : Pool S) :
  (forall done i st err, fst (workerFn done i st) = Some err -> P err) ->
  errorsAll P p -> steps total workerFn sched p = Some p' -> errorsAll P p'.
Proof.
  intros HP. revert p. induction sched as [|e sched IH]; intros p Hp Hsteps; simpl in Hsteps.
  - injection Hsteps as <-. exact Hp.
  - destruct (step total workerFn e p) as [p1|] eqn:Hstep; [|discriminate].
    apply (IH p1); [eapply step_errorsAll; eauto|exact Hsteps].
Qed.

(** X2. Whatever the schedule, what [run] returns is nil, or an error some
    call of [workerFn] returned that is a cancellation error, or a
    [TaskError] that holds at least one error, only errors that calls of
    [workerFn] returned, and no cancellation error. *)
Theorem run_returns_only_worker_errors (P : error -> Prop) (nworkers : nat)
  (sched : list Event) (s s' : S) (r : option error) :
  (forall done i st err, fst (workerFn done i st) = Some err -> P err) ->
  run total workerFn nworkers sched s = Some (r, s') ->
  r = None
  \/ (exists e, r = Some e /\ P e /\ isCancellation e = true)
  \/ (exists errs, r = Some (TaskError errs) /\ errs <> []
                   /\ Forall (fun e => P e /\ isCancellation e = false) errs).
Proof.
  intros HP Hrun. unfold run in Hrun.
  destruct (Nat.eqb total 0); [injection Hrun as <- <-; auto|].
  destruct (steps total workerFn sched (initial nworkers s)) as [p|] eqn:Hsteps; [|discriminate].
  destruct (finished total p); [|discriminate]. injection Hrun as <- <-.
  assert (Hinit : errorsAll P (initial nworkers s)).
  { unfold errorsAll, initial; cbn [errCh workers].
    destruct (initial_quiet nworkers) as [_ ->]. split; constructor. }
  destruct (steps_errorsAll P sched _ p HP Hinit Hsteps) as [Hch _].
  rewrite collect_received. cbn [app].
  destruct (List.find isCancellation (received (errCh p))) as [e|] eqn:Hfind.
  - right; left. exists e. apply find_some in Hfind as [Hin He].
    split; [reflexivity|]. split; [|exact He].
    rewrite Forall_forall in Hch. apply Hch, list_elem_of_In, Hin.
  - destruct (received (errCh p)) as [|e errs] eqn:Hrec; [left; reflexivity|].
    right; right. exists (e :: errs). split; [reflexivity|]. split; [discriminate|].
    apply Forall_forall. intros x Hx. split; [rewrite Forall_forall in Hch; apply Hch, Hx|].
    apply list_elem_of_In in Hx.
    pose proof (find_none _ _ Hfind x Hx) as Hnone. exact Hnone.
Qed.

End AnySchedule.

(** ** Batches of users under any interleaving *)

Section UserBatches.
Import Graph Store BulkIngestor.
Context `{GoLib}.

Lemma run_service_UpsertUser_failing (now : Time) (u : Service.UserInput) (s : GraphStore)
  (cause : error) :
  failure s = Some cause ->
  Graph.run (RelationshipService.UpsertUser now u) s = (Some (userFailure cause u), s).
Proof.
  intros Hs. unfold RelationshipService.UpsertUser, userFailure.
  destruct (String.eqb_spec (Service.ui_ID u) "") as [Hu|Hu]; [reflexivity|].
  unfold Repository.UpsertUser. change (Domain.u_ID (Service.userOf now u)) with (Service.ui_ID u).
  rewrite (eqb_empty_false _ Hu).
  cbn [Graph.run clientExecuteWrite GraphStore_Client]. unfold GraphStore_ExecuteWrite.
  rewrite Hs. reflexivity.
Qed.

Lemma service_UpsertUser_error (now : Time) (u : Service.UserInput) (s : GraphStore)
  (err : error) :
  fst (Graph.run (RelationshipService.UpsertUser now u) s) = Some err ->
  err = errorString "user ID is required"
  \/ exists cause, failure s = Some cause
                   /\ err = wrapError ("upsert user " +:+ Service.ui_ID u +:+ ": ") cause.
Proof.
  destruct (failure s) as [cause|] eqn:Hs.
  - rewrite (run_service_UpsertUser_failing now u s cause Hs). cbn [fst]. unfold userFailure.
    destruct (String.eqb (Service.ui_ID u) ""); intros [= <-]; eauto.
  - destruct (run_service_UpsertUser now u s Hs) as (Hv & _). rewrite Hv. unfold userVerdict.
    destruct (String.eqb (Service.ui_ID u) ""); [intros [= <-]; auto|discriminate].
Qed.


Lemma run_service_UpsertUser_graph (now : Time) (u : Service.UserInput) (s : GraphStore) :
  failure s = None ->
  let s' := snd (Graph.run (RelationshipService.UpsertUser now u) s) in
  failure s' = None
  /\ (forall n, n ∈ nodeIds (graph s')
                <-> n ∈ nodeIds (graph s) \/ (Service.ui_ID u <> "" /\ n ∈ userNodes now u))
  /\ (forall r, r ∈ relIds (graph s')
                <-> r ∈ relIds (graph s) \/ (Service.ui_ID u <> "" /\ r ∈ userRels now u)).
Proof.
  intros Hs. cbv zeta. unfold RelationshipService.UpsertUser.
  destruct (String.eqb_spec (Service.ui_ID u) "") as [Hu|Hu].
  - cbn [Graph.run snd]. split; [exact Hs|]. split; intros x; tauto.
  - rewrite run_UpsertUser by assumption. cbn [snd failure graph].
    split; [reflexivity|]. split; intros x.
    + rewrite nodeIds_runOps, elem_of_mergeAll. unfold userNodes. tauto.
    + rewrite relIds_runOps, elem_of_mergeAll. unfold userRels. tauto.
Qed.

(** What a batch of users leaves in the store, whatever the
    interleaving. *)
Lemma IngestUsers_graph (nworkers : nat) (now : Time) (users : list Service.UserInput)
  (sched : list Event) (s s' : GraphStore) (r : option error) :
  neverCancelled sched -> failure s = None ->
  IngestUsers nworkers now users sched s = Some (r, s') ->
  (forall n, n ∈ nodeIds (graph s')
             <-> n ∈ nodeIds (graph s)
                 \/ exists u, u ∈ users /\ Service.ui_ID u <> "" /\ n ∈ userNodes now u)
  /\ (forall x, x ∈ relIds (graph s')
                <-> x ∈ relIds (graph s)
                    \/ exists u, u ∈ users /\ Service.ui_ID u <> "" /\ x ∈ userRels now u).
Proof.
  intros Hnc Hs Hrun. unfold IngestUsers in Hrun.
  eapply (run_never_cancelled (length users) _
            (fun i => match users !! i with Some u => userVerdict u | None => None end)
            (fun st =>
               failure st = None
               /\ (forall n, n ∈ nodeIds (graph st) ->
                     n ∈ nodeIds (graph s)
                     \/ exists u, u ∈ users /\ Service.ui_ID u <> "" /\ n ∈ userNodes now u)
               /\ (forall x, x ∈ relIds (graph st) ->
                     x ∈ relIds (graph s)
                     \/ exists u, u ∈ users /\ Service.ui_ID u <> "" /\ x ∈ userRels now u)
               /\ (forall n, n ∈ nodeIds (graph s) -> n ∈ nodeIds (graph st))
               /\ (forall x, x ∈ relIds (graph s) -> x ∈ relIds (graph st)))
            (fun i st =>
               match users !! i with
               | Some u => (forall n, n ∈ userNodes now u -> n ∈ nodeIds (graph st))
                           /\ (forall x, x ∈ userRels now u -> x ∈ relIds (graph st))
               | None => True
               end)) in Hrun; try assumption.
  - destruct Hrun as (errs & _ & _ & (_ & Hn1 & Hr1 & Hn2 & Hr2) & Hpost).
    assert (Hdone : forall u, u ∈ users -> Service.ui_ID u <> "" ->
              (forall n, n ∈ userNodes now u -> n ∈ nodeIds (graph s'))
              /\ (forall x, x ∈ userRels now u -> x ∈ relIds (graph s'))).
    { intros u Hu Hid. apply list_elem_of_lookup in Hu as [i Hi].
      specialize (Hpost i (lookup_lt_Some _ _ _ Hi)). rewrite Hi in Hpost.
      apply Hpost, userVerdict_None, Hid. }
    split; intros x; (split; [auto|]).
    + intros [Hx|(u & Hu & Hid & Hx)]; [auto|]. apply (Hdone u Hu Hid), Hx.
    + intros [Hx|(u & Hu & Hid & Hx)]; [auto|]. apply (Hdone u Hu Hid), Hx.
  - intros i st (Hst & _). destruct (users !! i) as [u|]; [|reflexivity].
    apply (run_service_UpsertUser now u st Hst).
  - intros i st (Hst & Hn1 & Hr1 & Hn2 & Hr2).
    destruct (users !! i) as [u|] eqn:Hi; [|auto 6].
    destruct (run_service_UpsertUser_graph now u st Hst) as (Hf & Hn & Hr).
    apply list_elem_of_lookup_2 in Hi.
    split; [exact Hf|]. split; [|split; [|split]].
    + intros n Hin. apply Hn in Hin as [Hin|[Hid Hin]]; eauto 6.
    + intros x Hin. apply Hr in Hin as [Hin|[Hid Hin]]; eauto 6.
    + intros n Hin. apply Hn. auto.
    + intros x Hin. apply Hr. auto.
  - intros i st (Hst & _) Hv. destruct (users !! i) as [u|]; [|exact I].
    destruct (run_service_UpsertUser_graph now u st Hst) as (_ & Hn & Hr).
    apply userVerdict_None in Hv. split; intros x Hx; [apply Hn|apply Hr]; auto.
  - intros i j st (Hst & _) Hpost. destruct (users !! i) as [u|]; [|exact I].
    destruct Hpost as [Hpn Hpr]. destruct (users !! j) as [u'|]; [|auto].
    destruct (run_service_UpsertUser_graph now u' st Hst) as (_ & Hn & Hr).
    split; intros x Hx; [apply Hn|apply Hr]; auto.
  - intros i e. destruct (users !! i) as [u|]; [|discriminate].
    unfold userVerdict. destruct (String.eqb _ _); [intros [= <-]; reflexivity|discriminate].
  - repeat split; auto.
Qed.

Lemma same_constant_lists {A : Type} (c : A) (l1 l2 : list A) :
  l1 ≡ₚ l2 -> Forall (fun x => x = c) l2 -> l1 = l2.
Proof.
  intros Hperm Hall.
  assert (Hall1 : Forall (fun x => x = c) l1) by (rewrite Hperm; exact Hall).
  apply Permutation_length in Hperm. revert l2 Hall Hperm.
  induction Hall1 as [|x l1 -> _ IH]; intros [|y l2] Hall Hlen; try discriminate; [reflexivity|].
  apply Forall_cons in Hall as [-> Hall]. f_equal. apply IH; [exact Hall|].
  cbn in Hlen. lia.
Qed.

(** X4. Whatever the interleaving of the workers, a batch of users
    returns the same error and creates the same nodes and relationships:
    two complete runs from the same store, with any numbers of workers and
    any schedules that do not cancel the context, return the same error and
    leave graphs that hold the same node identities and the same
    relationship identities. The values of the properties are not part of
    the statement (see [repeated_id_keeps_the_later_write]). *)
Theorem user_batch_independent_of_schedule (n1 n2 : nat) (now : Time)
  (users : list Service.UserInput) (sched1 sched2 : list Event)
  (s s1 s2 : GraphStore) (r1 r2 : option error) :
  failure s = None -> neverCancelled sched1 -> neverCancelled sched2 ->
  IngestUsers n1 now users sched1 s = Some (r1, s1) ->
  IngestUsers n2 now users sched2 s = Some (r2, s2) ->
  r1 = r2
  /\ (forall n, n ∈ nodeIds (graph s1) <-> n ∈ nodeIds (graph s2))
  /\ (forall x, x ∈ relIds (graph s1) <-> x ∈ relIds (graph s2)).
Proof.
  intros Hs Hnc1 Hnc2 Hrun1 Hrun2.
  destruct (IngestUsers_graph n1 now users sched1 s s1 r1 Hnc1 Hs Hrun1) as [Hn1 Hr1].
  destruct (IngestUsers_graph n2 now users sched2 s s2 r2 Hnc2 Hs Hrun2) as [Hn2 Hr2].
  destruct (IngestUsers_never_cancelled n1 now users sched1 s s1 r1 Hnc1 Hs Hrun1)
    as (errs1 & -> & Hp1 & _).
  destruct (IngestUsers_never_cancelled n2 now users sched2 s s2 r2 Hnc2 Hs Hrun2)
    as (errs2 & -> & Hp2 & _).
  assert (Hconst : Forall (fun e => e = errorString "user ID is required")
                          (omap userVerdict users)).
  { apply Forall_forall. intros e He. apply list_elem_of_omap in He as (u & _ & Hu).
    unfold userVerdict in Hu. destruct (String.eqb _ _); [congruence|discriminate]. }
  split.
  - rewrite (same_constant_lists _ errs1 _ Hp1 Hconst).
    rewrite (same_constant_lists _ errs2 _ Hp2 Hconst). reflexivity.
  - split; intros x; [rewrite Hn1, Hn2|rewrite Hr1, Hr2]; reflexivity.
Qed.

End UserBatches.

(** ** Property values through the clauses of a statement *)

Section PropertyFacts.
Import Graph Store.

Lemma get_put_eq (k : string) (v : value) (m : Props) : get k (put k v m) = v.
Proof.
  induction m as [|[k0 w] m IH]; cbn [put get].
  - rewrite String.eqb_refl. reflexivity.
  - destruct (String.eqb k0 k) eqn:Hk; cbn [get]; rewrite Hk; [reflexivity|exact IH].
Qed.

Lemma get_put_ne (k k' : string) (v : value) (m : Props) :
  k' <> k -> get k (put k' v m) = get k m.
Proof.
  intros Hne. induction m as [|[k0 w] m IH]; cbn [put get].
  - rewrite (proj2 (String.eqb_neq k' k) Hne). reflexivity.
  - destruct (String.eqb_spec k0 k') as [->|Hk0]; cbn [get].
    + rewrite (proj2 (String.eqb_neq k' k) Hne). reflexivity.
    + destruct (String.eqb k0 k); [reflexivity|exact IH].
Qed.

Lemma get_assign_other (k : string) (kvs old : Props) :
  has k kvs = false -> get k (assign kvs old) = get k old.
Proof.
  unfold assign. revert old. induction kvs as [|[k0 w] kvs IH]; intros old Hk; [reflexivity|].
  cbn [has] in Hk. apply orb_false_iff in Hk as [Hk0 Hk].
  cbn [fold_left fst snd]. rewrite IH by exact Hk.
  apply get_put_ne. apply String.eqb_neq, Hk0.
Qed.

Lemma applyOp_relHolds (op : Op) (g : PropertyGraph) (r : RelId) (k : string) (v : value) :
  keeps r k op -> relHolds g r k v -> relHolds (applyOp op g) r k v.
Proof.
  intros Hkeep [Hin Hval]. destruct op as [n|n kvs|r'|r' kvs].
  - cbn [applyOp]. destruct (decide (n ∈ nodeIds g)); split; assumption.
  - split; assumption.
  - cbn [applyOp]. destruct (decide (r' ∈ relIds g)) as [Hr'|Hr']; [split; assumption|].
    split.
    + unfold relIds. cbn [rels]. rewrite map_app. apply elem_of_app. left. exact Hin.
    + cbn [rels]. intros props Hp. apply elem_of_app in Hp as [Hp|Hp]; [apply Hval, Hp|].
      apply list_elem_of_singleton in Hp. injection Hp as <- _. contradiction.
  - split.
    + rewrite relIds_applyOp. exact Hin.
    + cbn [applyOp rels]. intros props Hp.
      apply list_elem_of_fmap in Hp as ([r0 old] & Heq & Hold).
      cbn [fst snd] in Heq. destruct (decide (r0 = r')) as [->|Hne].
      * injection Heq as -> ->. destruct Hkeep as [Hkeep|Hkeep]; [contradiction|].
        rewrite get_assign_other by exact Hkeep. apply Hval, Hold.
      * injection Heq as <- <-. apply Hval, Hold.
Qed.

Lemma runOps_relHolds (ops : list Op) (g : PropertyGraph) (r : RelId) (k : string) (v : value) :
  Forall (keeps r k) ops -> relHolds g r k v -> relHolds (runOps ops g) r k v.
Proof.
  unfold runOps. intros Hall. revert g. induction Hall as [|op ops Hop Hall IH]; intros g Hg.
  - exact Hg.
  - cbn [fold_left]. apply IH, applyOp_relHolds; assumption.
Qed.

(** [MERGE (a)-[r]->(b) SET r.k = v, ...]: afterwards the property reads
    what the [SET] gave it. *)
Lemma merge_set_relHolds (g : PropertyGraph) (r : RelId) (kvs : Props) (k : string) (v : value) :
  (forall old, get k (assign kvs old) = v) ->
  relHolds (runOps [MergeRel r; SetRel r kvs] g) r k v.
Proof.
  intros Hset. unfold runOps. cbn [fold_left].
  set (g1 := applyOp (MergeRel r) g).
  assert (Hin : r ∈ relIds g1).
  { unfold g1. cbn [applyOp]. destruct (decide (r ∈ relIds g)) as [Hr|Hr]; [exact Hr|].
    unfold relIds. cbn [rels]. rewrite map_app. apply elem_of_app. right.
    apply list_elem_of_singleton. reflexivity. }
  split.
  - rewrite relIds_applyOp. exact Hin.
  - cbn [applyOp rels]. intros props Hp.
    apply list_elem_of_fmap in Hp as ([r0 old] & Heq & Hold). cbn [fst snd] in Heq.
    destruct (decide (r0 = r)) as [->|Hne].
    + injection Heq as ->. apply Hset.
    + injection Heq as <- <-. contradiction.
Qed.

End PropertyFacts.

(** ** Upsert a transaction, then fetch *)

Section RoundTrip.
Import Graph Store.
Context `{GoLib}.

Lemma runOps_app (ops1 ops2 : list Op) (g : PropertyGraph) :
  runOps (ops1 ++ ops2) g = runOps ops2 (runOps ops1 g).
Proof. unfold runOps. apply fold_left_app. Qed.

Lemma merge_set_then (pre post : list Op) (g : PropertyGraph) (r : RelId) (kvs : Props)
  (k : string) (v : value) :
  (forall old, get k (assign kvs old) = v) -> Forall (keeps r k) post ->
  relHolds (runOps (pre ++ MergeRel r :: SetRel r kvs :: post) g) r k v.
Proof.
  intros Hset Hpost.
  change (MergeRel r :: SetRel r kvs :: post) with ([MergeRel r; SetRel r kvs] ++ post).
  rewrite !runOps_app. apply runOps_relHolds; [exact Hpost|].
  apply merge_set_relHolds, Hset.
Qed.

Lemma keeps_other_type (r r' : RelId) (k : string) (kvs : Props) :
  rtype r' <> rtype r -> keeps r k (SetRel r' kvs).
Proof. intros Hne. left. intros ->. contradiction. Qed.

Ltac keeps_each :=
  repeat (apply Forall_cons; split;
          [first [exact I
                 |apply keeps_other_type; cbn [rtype mkRel]; congruence
                 |left; discriminate]|]);
  try apply Forall_nil_2.

Lemma transactionAttributeOps_keeps (t : NodeId) (attrs : list value) (r : RelId) (k : string) :
  rtype r <> HAS_ATTRIBUTE ->
  Forall (keeps r k) (flat_map (fun attr => transactionAttributeOps t (fields attr)) attrs).
Proof.
  intros Hty. induction attrs as [|attr attrs IH]; [constructor|].
  cbn [flat_map]. apply Forall_app. split; [|exact IH].
  unfold transactionAttributeOps. keeps_each.
Qed.

Lemma linkOps_keeps (now : Time) (tid : string) (rows : list (Props * string)) (r : RelId)
  (k : string) :
  rtype r <> LINKED_TO -> Forall (keeps r k) (flat_map (linkOps now tid) rows).
Proof.
  intros Hty. induction rows as [|row rows IH]; [constructor|].
  cbn [flat_map]. apply Forall_app. split; [|exact IH].
  unfold linkOps. keeps_each.
Qed.

Lemma paymentMethodOps_keeps (tid pmId : string) (g : PropertyGraph) (r : RelId) (k : string) :
  rtype r <> PAYMENT_METHOD_RELATES -> Forall (keeps r k) (paymentMethodOps tid pmId g).
Proof.
  intros Hty. unfold paymentMethodOps. destruct (_ || _); keeps_each.
Qed.

(** The money properties [upsertTransactionCypher] sets on the four
    relationships between the transaction and its users. *)
Lemma money_assign (k : string) (a c t : value) (old : Props) :
  k ∈ ["amount"; "currency"; "timestamp"] ->
  get k (assign [("amount", a); ("currency", c); ("timestamp", t)] old)
  = get k [("amount", a); ("currency", c); ("timestamp", t)].
Proof.
  intros Hk. unfold assign. cbn [fold_left fst snd].
  repeat (apply elem_of_cons in Hk as [->|Hk]);
    [| |  |inversion Hk].
  - rewrite !get_put_ne by discriminate. apply get_put_eq.
  - rewrite get_put_ne by discriminate. apply get_put_eq.
  - apply get_put_eq.
Qed.

Lemma execUpsertTransaction_money (now : Time) (tx : Domain.Transaction)
  (attrs : list Domain.Attribute) (g : PropertyGraph) (r : RelId) (k : string) :
  NUser (Domain.t_SenderUserID tx) ∈ nodeIds g ->
  NUser (Domain.t_ReceiverUserID tx) ∈ nodeIds g ->
  r ∈ [ participates (Domain.t_SenderUserID tx) (Domain.t_ID tx) "SENDER";
        participates (Domain.t_ReceiverUserID tx) (Domain.t_ID tx) "RECEIVER";
        sentTo (Domain.t_SenderUserID tx) (Domain.t_ReceiverUserID tx) (Domain.t_ID tx);
        receivedFrom (Domain.t_ReceiverUserID tx) (Domain.t_SenderUserID tx) (Domain.t_ID tx) ] ->
  k ∈ ["amount"; "currency"; "timestamp"] ->
  relHolds (fst (execUpsertTransaction now (Repository.upsertTransactionParams tx attrs) g)) r k
    (get k [ ("amount", VFloat (Domain.t_Amount tx));
             ("currency", VString (Domain.t_Currency tx));
             ("timestamp", VString (Repository.formatTime (Domain.t_Timestamp tx))) ]).
Proof.
  intros Hs Hr Hin Hk.
  set (p := Repository.upsertTransactionParams tx attrs).
  assert (Hty : rtype r <> HAS_ATTRIBUTE /\ rtype r <> LINKED_TO
                /\ rtype r <> PAYMENT_METHOD_RELATES).
  { repeat (apply elem_of_cons in Hin as [->|Hin]); [| | | |inversion Hin];
      cbn; repeat split; discriminate. }
  destruct Hty as (Hty1 & Hty2 & Hty3).
  assert (Hg1 : relHolds (runOps (upsertTransactionOps p) g) r k
                  (get k [ ("amount", VFloat (Domain.t_Amount tx));
                           ("currency", VString (Domain.t_Currency tx));
                           ("timestamp", VString (Repository.formatTime (Domain.t_Timestamp tx))) ])).
  { unfold upsertTransactionOps.
    change (str (get "transactionId" p)) with (Domain.t_ID tx).
    change (str (get "senderId" p)) with (Domain.t_SenderUserID tx).
    change (str (get "receiverId" p)) with (Domain.t_ReceiverUserID tx).
    change (get "amount" p) with (VFloat (Domain.t_Amount tx)).
    change (get "currency" p) with (VString (Domain.t_Currency tx)).
    change (get "timestamp" p) with (VString (Repository.formatTime (Domain.t_Timestamp tx))).
    cbv zeta.
    set (post := flat_map _ _).
    assert (Hpost : Forall (keeps r k) post) by (apply transactionAttributeOps_keeps, Hty1).
    fold (participates (Domain.t_SenderUserID tx) (Domain.t_ID tx) "SENDER").
    fold (participates (Domain.t_ReceiverUserID tx) (Domain.t_ID tx) "RECEIVER").
    fold (sentTo (Domain.t_SenderUserID tx) (Domain.t_ReceiverUserID tx) (Domain.t_ID tx)).
    fold (receivedFrom (Domain.t_ReceiverUserID tx) (Domain.t_SenderUserID tx) (Domain.t_ID tx)).
    repeat (apply elem_of_cons in Hin as [->|Hin]); [| | | |inversion Hin].
    - apply (merge_set_then [_; _]); [intros old; apply money_assign, Hk|].
      keeps_each. exact Hpost.
    - apply (merge_set_then [_; _; _; _]); [intros old; apply money_assign, Hk|].
      keeps_each. exact Hpost.
    - apply (merge_set_then [_; _; _; _; _; _]); [intros old; apply money_assign, Hk|].
      keeps_each. exact Hpost.
    - apply (merge_set_then [_; _; _; _; _; _; _; _]); [intros old; apply money_assign, Hk|].
      exact Hpost. }
  unfold execUpsertTransaction. fold p.
  change (str (get "senderId" p)) with (Domain.t_SenderUserID tx).
  change (str (get "receiverId" p)) with (Domain.t_ReceiverUserID tx).
  rewrite (bool_decide_eq_true_2 _ Hs), (bool_decide_eq_true_2 _ Hr). cbn [andb].
  set (rows := linkRows _ _ _).
  assert (Hg2 : relHolds (runOps (flat_map (linkOps now (str (get "transactionId" p))) rows)
                            (runOps (upsertTransactionOps p) g)) r k
                  (get k [ ("amount", VFloat (Domain.t_Amount tx));
                           ("currency", VString (Domain.t_Currency tx));
                           ("timestamp", VString (Repository.formatTime (Domain.t_Timestamp tx))) ])).
  { apply runOps_relHolds; [apply linkOps_keeps, Hty2|exact Hg1]. }
  destruct rows; cbn [fst]; [exact Hg2|].
  apply runOps_relHolds; [apply paymentMethodOps_keeps, Hty3|exact Hg2].
Qed.

Lemma relHolds_entry (g : PropertyGraph) (r : RelId) :
  r ∈ relIds g -> exists props, (r, props) ∈ rels g.
Proof.
  unfold relIds. intros Hin. apply list_elem_of_fmap in Hin as ([r0 props] & -> & Hin).
  exists props. exact Hin.
Qed.

(** A [PARTICIPATED_IN] relationship into a transaction is a record of
    [transactionUsersCypher]. *)
Lemma evalTransactionUsers_record (g : PropertyGraph) (u tid role : string) (props : Props) :
  (participates u tid role, props) ∈ rels g ->
  [ ("userId", VString u); ("role", VString role);
    ("amount", get "amount" props); ("currency", get "currency" props);
    ("direction", VString (if String.eqb role "SENDER" then "OUTBOUND" else "INBOUND")) ]
  ∈ evalTransactionUsers [("transactionId", VString tid)] g.
Proof.
  intros Hin. unfold evalTransactionUsers. apply list_elem_of_In, in_flat_map.
  exists (participates u tid role, props). split; [apply list_elem_of_In, Hin|].
  cbn [fst snd rdst rsrc rtype participates mkRel get String.eqb Ascii.eqb Bool.eqb str].
  rewrite !bool_decide_eq_true_2 by reflexivity. cbn [andb]. left.
  unfold relProp. cbn [fst snd rkey keyGet String.eqb Ascii.eqb Bool.eqb str]. reflexivity.
Qed.



Lemma run_FetchTransactionRelationships_users (txID : string) (s : GraphStore) :
  txID <> "" -> failure s = None ->
  Graph.run (Repository.FetchTransactionRelationships txID) s
  = (({| Domain.tr_TransactionID := txID;
         Domain.tr_Users :=
           map (fun record =>
                  {| Domain.tu_UserID := Repository.toString (get "userId" record);
                     Domain.tu_Role := Repository.toString (get "role" record);
                     Domain.tu_Amount := Repository.toFloat64 (get "amount" record);
                     Domain.tu_Currency := Repository.toString (get "currency" record);
                     Domain.tu_Direction := Repository.toString (get "direction" record) |})
               (evalTransactionUsers [("transactionId", VString txID)] (graph s));
         Domain.tr_LinkedTransactions :=
           map Repository.linkedTransactionOf
               (evalTransactionLinked [("transactionId", VString txID)] (graph s)) |},
      None), s).
Proof.
  intros Hid Hs. unfold Repository.FetchTransactionRelationships.
  rewrite (eqb_empty_false _ Hid). cbn. unfold GraphStore_ExecuteRead. rewrite Hs. cbn.
  unfold GraphStore_ExecuteRead. rewrite Hs. cbn. reflexivity.
Qed.


End RoundTrip.

Section RoundTripTheorems.
Import Graph Store.
Context `{GoLib}.

Ltac listed := repeat first [apply list_elem_of_here | apply list_elem_of_further].

Lemma service_UpsertTransaction_money (now : Time) (input : Service.TransactionInput)
  (s : GraphStore) (r : RelId) :
  failure s = None ->
  Service.ti_ID input <> "" -> Service.ti_SenderUserID input <> "" ->
  Service.ti_ReceiverUserID input <> "" ->
  NUser (Service.ti_SenderUserID input) ∈ nodeIds (graph s) ->
  NUser (Service.ti_ReceiverUserID input) ∈ nodeIds (graph s) ->
  r ∈ [ participates (Service.ti_SenderUserID input) (Service.ti_ID input) "SENDER";
        participates (Service.ti_ReceiverUserID input) (Service.ti_ID input) "RECEIVER";
        sentTo (Service.ti_SenderUserID input) (Service.ti_ReceiverUserID input)
               (Service.ti_ID input);
        receivedFrom (Service.ti_ReceiverUserID input) (Service.ti_SenderUserID input)
                     (Service.ti_ID input) ] ->
  let s' := snd (Graph.run (RelationshipService.UpsertTransaction now input) s) in
  failure s' = None
  /\ exists props,
       (r, props) ∈ rels (graph s')
       /\ get "amount" props = VFloat (Service.ti_Amount input)
       /\ get "currency" props = VString (Service.ti_Currency input)
       /\ get "timestamp" props
          = VString (Repository.formatTime (UTC (Service.ti_Timestamp input))).
Proof.
  intros Hs Hid Hsender Hreceiver Hsg Hrg Hr.
  destruct (service_UpsertTransaction_graph now input s Hs Hid Hsender Hreceiver) as [Hf Hg].
  cbv zeta in *. split; [exact Hf|]. rewrite Hg.
  pose proof (fun k Hk =>
    execUpsertTransaction_money (clock s) (Service.transactionOf now input)
      (Service.FromTransaction input) (graph s) r k Hsg Hrg Hr Hk) as Hmoney.
  destruct (Hmoney "amount") as [Hin Ha]; [listed|].
  destruct (Hmoney "currency") as [_ Hc]; [listed|].
  destruct (Hmoney "timestamp") as [_ Ht]; [listed|].
  apply relHolds_entry in Hin as [props Hin]. exists props.
  split; [exact Hin|]. split; [apply Ha, Hin|]. split; [apply Hc, Hin|apply Ht, Hin].
Qed.

(** X5. Upsert, then fetch the transaction: when the store answers and
    holds the two users, [FetchTransactionRelationships] on the
    transaction just upserted returns no error and, among its users, the
    sender as [SENDER]/[OUTBOUND] and the receiver as [RECEIVER]/[INBOUND],
    each with the amount and the currency of the input. *)
Theorem upserted_transaction_returns_its_users (now : Time)
  (input : Service.TransactionInput) (s : GraphStore) :
  failure s = None ->
  Service.ti_ID input <> "" -> Service.ti_SenderUserID input <> "" ->
  Service.ti_ReceiverUserID input <> "" ->
  NUser (Service.ti_SenderUserID input) ∈ nodeIds (graph s) ->
  NUser (Service.ti_ReceiverUserID input) ∈ nodeIds (graph s) ->
  let s' := snd (Graph.run (RelationshipService.UpsertTransaction now input) s) in
  let result :=
    fst (Graph.run (RelationshipService.GetTransactionRelationships (Service.ti_ID input)) s') in
  snd result = None
  /\ Domain.tr_TransactionID (fst result) = Service.ti_ID input
  /\ {| Domain.tu_UserID := Service.ti_SenderUserID input; Domain.tu_Role := "SENDER";
        Domain.tu_Amount := Service.ti_Amount input;
        Domain.tu_Currency := Service.ti_Currency input;
        Domain.tu_Direction := "OUTBOUND" |} ∈ Domain.tr_Users (fst result)
  /\ {| Domain.tu_UserID := Service.ti_ReceiverUserID input; Domain.tu_Role := "RECEIVER";
        Domain.tu_Amount := Service.ti_Amount input;
        Domain.tu_Currency := Service.ti_Currency input;
        Domain.tu_Direction := "INBOUND" |} ∈ Domain.tr_Users (fst result).
Proof.
  intros Hs Hid Hsender Hreceiver Hsg Hrg s' result.
  pose proof (fun r Hr =>
    service_UpsertTransaction_money now input s r Hs Hid Hsender Hreceiver Hsg Hrg Hr)
    as Hmoney. cbv zeta in Hmoney. fold s' in Hmoney.
  destruct (Hmoney (participates (Service.ti_SenderUserID input) (Service.ti_ID input) "SENDER"))
    as (Hf & ps & Hps & Hpa & Hpc & _); [listed|].
  destruct (Hmoney (participates (Service.ti_ReceiverUserID input) (Service.ti_ID input)
                      "RECEIVER")) as (_ & pr & Hpr & Hra & Hrc & _); [listed|].
  subst result. unfold RelationshipService.GetTransactionRelationships.
  rewrite run_FetchTransactionRelationships_users by assumption.
  cbn [fst snd Domain.tr_TransactionID Domain.tr_Users].
  split; [reflexivity|]. split; [reflexivity|]. split.
  - apply list_elem_of_fmap. eexists. split; [|apply evalTransactionUsers_record, Hps].
    cbn. rewrite Hpa, Hpc. reflexivity.
  - apply list_elem_of_fmap. eexists. split; [|apply evalTransactionUsers_record, Hpr].
    cbn. rewrite Hra, Hrc. reflexivity.
Qed.



End RoundTripTheorems.

(** ** Attributes two users share *)

Section SharedAttributes.
Import Graph Store.
Context `{GoLib}.





End SharedAttributes.

(** ** Shortest paths *)

Section ShortestPaths.
Import Graph Store.
Context `{GoLib}.

Lemma pathsOfLength_length (rs : list RelId) (k : nat) (from target : NodeId)
  (used : list RelId) (path : list (RelId * NodeId)) :
  path ∈ pathsOfLength rs k from target used ->
  length path = k /\ last (from :: map snd path) = Some target.
Proof.
  revert from used path. induction k as [|k IH]; intros from used path Hin; cbn [pathsOfLength] in Hin.
  - destruct (bool_decide (from = target)) eqn:Heq; [|inversion Hin].
    apply list_elem_of_singleton in Hin. subst path.
    apply bool_decide_eq_true_1 in Heq. subst. split; reflexivity.
  - apply list_elem_of_In, in_flat_map in Hin as (step & _ & Hin).
    destruct (bool_decide (fst step ∈ used)); [inversion Hin|].
    apply list_elem_of_In, list_elem_of_fmap in Hin as (rest & -> & Hrest).
    destruct (IH _ _ _ Hrest) as [Hlen Hlast].
    split; [cbn [length]; rewrite Hlen; reflexivity|].
    cbn [map]. rewrite last_cons_cons. exact Hlast.
Qed.

Lemma shortestPath_Some (rs : list RelId) (source target : NodeId)
  (path : list (RelId * NodeId)) :
  shortestPath rs source target = Some path ->
  1 <= length path <= 6 /\ last (source :: map snd path) = Some target.
Proof.
  unfold shortestPath. intros Hhead. apply head_Some_elem_of in Hhead.
  apply list_elem_of_In, in_flat_map in Hhead as (k & Hk & Hin).
  apply list_elem_of_In, elem_of_seq in Hk.
  apply list_elem_of_In, pathsOfLength_length in Hin as [Hlen Hlast].
  split; [lia|exact Hlast].
Qed.

Lemma last_map {A B : Type} (f : A -> B) (l : list A) :
  last (map f l) = option_map f (last l).
Proof.
  induction l as [|x [|y l] IH]; [reflexivity..|].
  cbn [map] in *. rewrite !last_cons_cons. exact IH.
Qed.

Lemma pathId_User (g : PropertyGraph) (u : string) : pathId g (NUser u) = VString u.
Proof. reflexivity. Qed.

Lemma omap_pathNodeOf (g : PropertyGraph) (ns : list NodeId) :
  omap Repository.pathNodeOf (map (pathNodeMap g) ns)
  = map (fun n =>
           {| Domain.pn_ID := Repository.toString (pathId g n);
              Domain.pn_Type := labelName n;
              Domain.pn_Label :=
                Repository.toString
                  (coalesce [ nodeProp g n "userId"; nodeProp g n "transactionId";
                              nodeProp g n "attributeType"; nodeProp g n "paymentMethodId";
                              nodeProp g n "value" ]);
              Domain.pn_Weight := 1%float |}) ns.
Proof. induction ns as [|n ns IH]; [reflexivity|]. cbn. f_equal. exact IH. Qed.

Lemma omap_pathEdgeOf (g : PropertyGraph) (path : list (RelId * NodeId)) :
  length (omap Repository.pathEdgeOf (map (fun step => pathEdgeMap g (fst step)) path))
  = length path.
Proof. induction path as [|step path IH]; [reflexivity|]. cbn. f_equal. exact IH. Qed.

Lemma run_ShortestPathBetweenUsers (sourceID targetID : string) (s : GraphStore) :
  sourceID <> "" -> targetID <> "" -> sourceID <> targetID -> failure s = None ->
  fst (Graph.run (Repository.ShortestPathBetweenUsers sourceID targetID) s)
  = match evalShortestPath [("sourceId", VString sourceID); ("targetId", VString targetID)]
            (graph s) with
    | [] =>
        ({| Domain.sp_SourceUserID := sourceID; Domain.sp_TargetUserID := targetID;
            Domain.sp_Nodes := []; Domain.sp_Edges := []; Domain.sp_Hops := 0 |}, None)
    | record :: _ =>
        ({| Domain.sp_SourceUserID := sourceID; Domain.sp_TargetUserID := targetID;
            Domain.sp_Nodes :=
              match get "nodes" record with
              | VList nodesRaw => omap Repository.pathNodeOf nodesRaw
              | _ => []
              end;
            Domain.sp_Edges :=
              match get "edges" record with
              | VList edgesRaw => omap Repository.pathEdgeOf edgesRaw
              | _ => []
              end;
            Domain.sp_Hops :=
              if has "hops" record
              then match get "hops" record with VInt v => v | _ => 0%Z end
              else 0%Z |}, None)
    end.
Proof.
  intros Hsrc Htgt Hne Hs. unfold Repository.ShortestPathBetweenUsers.
  rewrite (eqb_empty_false _ Hsrc), (eqb_empty_false _ Htgt). cbn [orb].
  rewrite (proj2 (String.eqb_neq sourceID targetID) Hne).
  cbn [Graph.run clientExecuteRead GraphStore_Client]. unfold GraphStore_ExecuteRead.
  rewrite Hs. cbn [evalRead Records fst snd]. 
  destruct (evalShortestPath _ _); reflexivity.
Qed.

(** X8. For two different users and a store that answers,
    [ShortestPathBetweenUsers] returns no error and either a path with no
    node, no edge and zero hops (a user is missing, or no path of at most
    six relationships joins them), or a path of one to six hops with as
    many edges, one node more, the source first and the target last. *)
Theorem shortest_path_within_six_hops (sourceID targetID : string) (s : GraphStore) :
  sourceID <> "" -> targetID <> "" -> sourceID <> targetID -> failure s = None ->
  let result := fst (Graph.run (Repository.ShortestPathBetweenUsers sourceID targetID) s) in
  let path := fst result in
  snd result = None
  /\ Domain.sp_SourceUserID path = sourceID /\ Domain.sp_TargetUserID path = targetID
  /\ ((Domain.sp_Nodes path = [] /\ Domain.sp_Edges path = [] /\ Domain.sp_Hops path = 0%Z)
      \/ ((1 <= Domain.sp_Hops path <= 6)%Z
          /\ Z.of_nat (length (Domain.sp_Edges path)) = Domain.sp_Hops path
          /\ Z.of_nat (length (Domain.sp_Nodes path)) = (Domain.sp_Hops path + 1)%Z
          /\ (exists first, head (Domain.sp_Nodes path) = Some first
                            /\ Domain.pn_ID first = sourceID
                            /\ Domain.pn_Type first = "User")
          /\ (exists final, last (Domain.sp_Nodes path) = Some final
                            /\ Domain.pn_ID final = targetID
                            /\ Domain.pn_Type final = "User"))).
Proof.
  intros Hsrc Htgt Hne Hs. cbv zeta.
  rewrite run_ShortestPathBetweenUsers by assumption.
  unfold evalShortestPath. cbn [get String.eqb Ascii.eqb Bool.eqb str].
  destruct (bool_decide (NUser sourceID ∈ nodeIds (graph s))
            && bool_decide (NUser targetID ∈ nodeIds (graph s)));
    [|cbn; auto 10].
  destruct (shortestPath (relIds (graph s)) (NUser sourceID) (NUser targetID))
    as [path|] eqn:Hpath; [|cbn; auto 10].
  apply shortestPath_Some in Hpath as [Hlen Hlast].
  cbn [fst snd Domain.sp_SourceUserID Domain.sp_TargetUserID Domain.sp_Nodes Domain.sp_Edges
       Domain.sp_Hops get has String.eqb Ascii.eqb Bool.eqb orb].
  split; [reflexivity|]. split; [reflexivity|]. split; [reflexivity|]. right.
  rewrite omap_pathEdgeOf, omap_pathNodeOf, !length_map. cbn [length]. rewrite length_map.
  split; [lia|]. split; [reflexivity|]. split; [lia|]. split.
  - eexists. split; [reflexivity|]. split; reflexivity.
  - rewrite last_map, Hlast. cbn [option_map]. eexists. split; [reflexivity|].
    split; reflexivity.
Qed.

Lemma head_flat_map_first {A B : Type} (f : A -> list B) (x : A) (l : list A) (y : B) :
  head (f x) = Some y -> head (flat_map f (x :: l)) = Some y.
Proof. cbn [flat_map]. destruct (f x); [discriminate|]. intros Hy. exact Hy. Qed.

(** A relationship between two nodes is a path of length one. *)
Lemma shortestPath_adjacent (rs : list RelId) (r : RelId) :
  r ∈ rs ->
  exists step, shortestPath rs (rsrc r) (rdst r) = Some [step].
Proof.
  intros Hr. unfold shortestPath. cbn [seq].
  assert (Hone : exists step,
            head (pathsOfLength rs 1 (rsrc r) (rdst r) []) = Some [step]).
  { assert (Hne : pathsOfLength rs 1 (rsrc r) (rdst r) [] <> []).
    { cbn [pathsOfLength]. intros Hnil.
      assert (Hin : [(r, rdst r)]
                    ∈ flat_map
                        (fun step =>
                           if bool_decide (fst step ∈ [])
                           then []
                           else map (cons step)
                                  (if bool_decide (snd step = rdst r) then [[]] else []))
                        (incident rs (rsrc r))).
      { apply list_elem_of_In, in_flat_map. exists (r, rdst r). split.
        - unfold incident. apply in_flat_map. exists r. split; [apply list_elem_of_In, Hr|].
          rewrite bool_decide_eq_true_2 by reflexivity. left. reflexivity.
        - cbn [fst snd]. rewrite bool_decide_eq_false_2 by (intros Hx; inversion Hx).
          rewrite bool_decide_eq_true_2 by reflexivity. left. reflexivity. }
      rewrite Hnil in Hin. inversion Hin. }
    destruct (pathsOfLength rs 1 (rsrc r) (rdst r) []) as [|p ps] eqn:Hps; [contradiction|].
    assert (Hp : p ∈ pathsOfLength rs 1 (rsrc r) (rdst r) []) by (rewrite Hps; left).
    apply pathsOfLength_length in Hp as [Hlen _].
    destruct p as [|step [|]]; try discriminate. exists step. reflexivity. }
  destruct Hone as [step Hstep]. exists step. apply head_flat_map_first, Hstep.
Qed.

(** X9. Two different users with a transaction between them are one hop
    apart: after the upsert of the transaction, the shortest path from the
    sender to the receiver has one edge and the two users as its nodes. *)
Theorem transacting_users_are_one_hop_apart (now : Time) (input : Service.TransactionInput)
  (s : GraphStore) :
  failure s = None ->
  Service.ti_ID input <> "" -> Service.ti_SenderUserID input <> "" ->
  Service.ti_ReceiverUserID input <> "" ->
  Service.ti_SenderUserID input <> Service.ti_ReceiverUserID input ->
  NUser (Service.ti_SenderUserID input) ∈ nodeIds (graph s) ->
  NUser (Service.ti_ReceiverUserID input) ∈ nodeIds (graph s) ->
  let s' := snd (Graph.run (RelationshipService.UpsertTransaction now input) s) in
  let result :=
    fst (Graph.run (Repository.ShortestPathBetweenUsers (Service.ti_SenderUserID input)
                      (Service.ti_ReceiverUserID input)) s') in
  snd result = None
  /\ Domain.sp_Hops (fst result) = 1%Z
  /\ length (Domain.sp_Edges (fst result)) = 1
  /\ map Domain.pn_ID (Domain.sp_Nodes (fst result))
     = [Service.ti_SenderUserID input; Service.ti_ReceiverUserID input].
Proof.
  intros Hs Hid Hsender Hreceiver Hne Hsg Hrg s' result.
  destruct (service_UpsertTransaction_money now input s
              (sentTo (Service.ti_SenderUserID input) (Service.ti_ReceiverUserID input)
                      (Service.ti_ID input)) Hs Hid Hsender Hreceiver Hsg Hrg)
    as (Hf & props & Hin & _);
    [repeat first [apply list_elem_of_here | apply list_elem_of_further]|].
  fold s' in Hf, Hin.
  assert (Hst : sentTo (Service.ti_SenderUserID input) (Service.ti_ReceiverUserID input)
                       (Service.ti_ID input) ∈ relIds (graph s')).
  { unfold relIds. apply list_elem_of_fmap. eexists. split; [|exact Hin]. reflexivity. }
  assert (Hnodes : forall u, NUser u ∈ nodeIds (graph s) -> NUser u ∈ nodeIds (graph s')).
  { intros u Hu. unfold s'.
    destruct (service_UpsertTransaction_cases now input s) as [->|[_ ->]]; [exact Hu|].
    cbn [graph]. apply execUpsertTransaction_nodeIds_mono, Hu. }
  destruct (shortestPath_adjacent _ _ Hst) as [step Hstep].
  cbn [rsrc rdst sentTo mkRel] in Hstep.
  pose proof (shortestPath_Some _ _ _ _ Hstep) as [_ Hlast].
  subst result. rewrite run_ShortestPathBetweenUsers by assumption.
  unfold evalShortestPath. cbn [get String.eqb Ascii.eqb Bool.eqb str].
  rewrite (bool_decide_eq_true_2 _ (Hnodes _ Hsg)), (bool_decide_eq_true_2 _ (Hnodes _ Hrg)).
  cbn [andb]. rewrite Hstep.
  cbn [fst snd Domain.sp_Nodes Domain.sp_Edges Domain.sp_Hops get has String.eqb Ascii.eqb
       Bool.eqb orb length map].
  split; [reflexivity|]. split; [reflexivity|]. split; [reflexivity|].
  cbn [map last] in Hlast. injection Hlast as Hlast. rewrite Hlast. reflexivity.
Qed.

End ShortestPaths.

(** ** The day bucket *)

Section DayBucket.
Import Graph Store.
Context `{GoLib}.

Lemma FromTransaction_day (input : Service.TransactionInput) :
  Service.mkAttribute "TX_DAY_BUCKET"
    (Service.hashValue (time_Format (UTC (Service.ti_Timestamp input)) DateOnly))
    (time_Format (UTC (Service.ti_Timestamp input)) RFC3339) 0.5%float
  ∈ Service.FromTransaction input.
Proof.
  unfold Service.FromTransaction. cbv zeta. apply elem_of_app. right.
  apply list_elem_of_singleton. reflexivity.
Qed.

(** X10. Every transaction carries a [TX_DAY_BUCKET] attribute made of its
    UTC date alone, so two transactions of the same date are linked
    whatever else they hold: once both are upserted, the fetch on the later
    one returns the earlier one with link type [TX_DAY_BUCKET]. *)
Theorem same_day_transactions_are_linked (now1 now2 : Time)
  (t1 t2 : Service.TransactionInput) (s : GraphStore) :
  failure s = None ->
  Service.ti_ID t1 <> "" -> Service.ti_ID t2 <> "" ->
  Service.ti_ID t1 <> Service.ti_ID t2 ->
  Forall (fun u => u <> "" /\ NUser u ∈ nodeIds (graph s))
         [ Service.ti_SenderUserID t1; Service.ti_ReceiverUserID t1;
           Service.ti_SenderUserID t2; Service.ti_ReceiverUserID t2 ] ->
  time_Format (UTC (Service.ti_Timestamp t1)) DateOnly
  = time_Format (UTC (Service.ti_Timestamp t2)) DateOnly ->
  let s1 := snd (Graph.run (RelationshipService.UpsertTransaction now1 t1) s) in
  let s2 := snd (Graph.run (RelationshipService.UpsertTransaction now2 t2) s1) in
  returnsLink (fst (Graph.run (Repository.FetchTransactionRelationships (Service.ti_ID t2)) s2))
              (Service.ti_ID t1) "TX_DAY_BUCKET".
Proof.
  intros Hs Hid1 Hid2 Hne Husers Hday s1 s2.
  apply Forall_cons in Husers as [[Hs1 Hs1g] Husers].
  apply Forall_cons in Husers as [[Hr1 Hr1g] Husers].
  apply Forall_cons in Husers as [[Hs2 Hs2g] Husers].
  apply Forall_cons in Husers as [[Hr2 Hr2g] _].
  pose proof (FromTransaction_day t1) as Ha1.
  pose proof (FromTransaction_day t2) as Ha2.
  set (a1 := Service.mkAttribute _ _ _ _) in Ha1.
  set (a2 := Service.mkAttribute _ _ _ _) in Ha2.
  assert (Hsame : hasAttribute (NTransaction (Service.ti_ID t1)) a2
                  = hasAttribute (NTransaction (Service.ti_ID t1)) a1).
  { unfold hasAttribute, attrNodeOf, a1, a2. cbn [Domain.Type_ Domain.Value Service.mkAttribute].
    rewrite Hday. reflexivity. }
  destruct (service_UpsertTransaction_graph now1 t1 s Hs Hid1 Hs1 Hr1) as [Hf1 Hg1].
  fold s1 in Hf1, Hg1.
  destruct (service_UpsertTransaction_graph now2 t2 s1 Hf1 Hid2 Hs2 Hr2) as [Hf2 Hg2].
  fold s2 in Hf2, Hg2.
  assert (Hmono : forall u, NUser u ∈ nodeIds (graph s) -> NUser u ∈ nodeIds (graph s1)).
  { intros u Hu. rewrite Hg1. apply execUpsertTransaction_nodeIds_mono, Hu. }
  change "TX_DAY_BUCKET" with (Domain.Type_ a2).
  apply (fetch_returnsLink s2 (Service.ti_ID t2) (Service.ti_ID t1) a2); [assumption..|].
  rewrite Hg2.
  apply (execUpsertTransaction_links (clock s1) (Service.transactionOf now2 t2)); auto.
  rewrite Hsame, Hg1.
  apply (execUpsertTransaction_hasAttribute (clock s) (Service.transactionOf now1 t1)); auto.
Qed.

End DayBucket.

(** ** The repository against the in-memory client *)

Section AgainstMemoryClient.
Import Graph.
Context `{GoLib}.

Lemma userProperties_get (u : Domain.User) :
  get "fullName" (Repository.userProperties u) = VString (Domain.u_FullName u)
  /\ get "email" (Repository.userProperties u) = VString (Domain.u_Email u)
  /\ get "phone" (Repository.userProperties u) = VString (Domain.u_Phone u)
  /\ get "kycStatus" (Repository.userProperties u) = VString (Domain.u_KYCStatus u)
  /\ get "riskScore" (Repository.userProperties u) = VFloat (Domain.u_RiskScore u).
Proof.
  unfold Repository.userProperties. cbv zeta.
  destruct (negb (IsZero (Domain.u_CreatedAt u)));
    destruct (Domain.u_DateOfBirth u) as [dob|]; try destruct (negb (IsZero dob));
    rewrite ?get_put_ne by discriminate; repeat split.
Qed.

(** X11. Against the in-memory client of the unit tests, with no error
    configured: [UpsertUser] of a user with an ID returns nil and records
    exactly one write and no read; the write is [upsertUserCypher], and its
    parameters hold the user's ID, name and KYC status, one entry for each
    attribute and one for each payment method. [UpsertTransaction] does the
    same with [upsertTransactionCypher], the three IDs and one entry for
    each attribute. *)
Theorem upserts_issue_one_write (user : Domain.User) (tx : Domain.Transaction)
  (attrs : list Domain.Attribute) (m : MemoryClient) :
  err m = None ->
  (Domain.u_ID user <> "" ->
   let out := run (Repository.UpsertUser user) m in
   fst out = None
   /\ readCalls (snd out) = readCalls m
   /\ exists params,
        writeCalls (snd out) = writeCalls m ++ [{| Query := upsertUserCypher; Params := params |}]
        /\ get "userId" params = VString (Domain.u_ID user)
        /\ get "fullName" (Store.fields (get "props" params)) = VString (Domain.u_FullName user)
        /\ get "kycStatus" (Store.fields (get "props" params))
           = VString (Domain.u_KYCStatus user)
        /\ length (Store.items (get "attributes" params)) = length (Domain.u_Attributes user)
        /\ length (Store.items (get "paymentMethods" params))
           = length (Domain.u_PaymentMethods user))
  /\ (Domain.t_ID tx <> "" -> Domain.t_SenderUserID tx <> "" ->
      Domain.t_ReceiverUserID tx <> "" ->
      let out := run (Repository.UpsertTransaction tx attrs) m in
      fst out = None
      /\ readCalls (snd out) = readCalls m
      /\ exists params,
           writeCalls (snd out)
           = writeCalls m ++ [{| Query := upsertTransactionCypher; Params := params |}]
           /\ get "transactionId" params = VString (Domain.t_ID tx)
           /\ get "senderId" params = VString (Domain.t_SenderUserID tx)
           /\ get "receiverId" params = VString (Domain.t_ReceiverUserID tx)
           /\ length (Store.items (get "attributes" params)) = length attrs).
Proof.
  intros Herr. split.
  - intros Hid. cbv zeta. unfold Repository.UpsertUser. rewrite (eqb_empty_false _ Hid).
    cbn [run clientExecuteWrite MemoryClient_Client]. unfold MemoryClient_ExecuteWrite.
    rewrite Herr.
    destruct (userProperties_get user) as (Hname & _ & _ & Hkyc & _).
    destruct (writeResults m); cbn [run fst snd writeCalls readCalls];
      (split; [reflexivity|]; split; [reflexivity|]; eexists; split; [reflexivity|]);
      cbn [get String.eqb Ascii.eqb Bool.eqb Store.fields Store.items
           Repository.upsertUserParams];
      unfold Repository.attributeParams, Repository.paymentMethodParams;
      rewrite !length_map; auto.
  - intros Hid Hsender Hreceiver. cbv zeta. unfold Repository.UpsertTransaction.
    rewrite (eqb_empty_false _ Hid), (eqb_empty_false _ Hsender),
      (eqb_empty_false _ Hreceiver).
    cbn [orb run clientExecuteWrite MemoryClient_Client]. unfold MemoryClient_ExecuteWrite.
    rewrite Herr.
    destruct (writeResults m); cbn [run fst snd writeCalls readCalls];
      (split; [reflexivity|]; split; [reflexivity|]; eexists; split; [reflexivity|]);
      cbn [get String.eqb Ascii.eqb Bool.eqb Store.fields Store.items
           Repository.upsertTransactionParams];
      unfold Repository.attributeParams; rewrite !length_map; auto.
Qed.

Lemma MemoryClient_read (m : MemoryClient) (cypher : Cypher) (params : Props)
  (r : Result) (rest : list Result) :
  err m = None -> readResults m = r :: rest ->
  MemoryClient_ExecuteRead cypher params m
  = ((r, None),
     {| writeCalls := writeCalls m;
        readCalls := readCalls m ++ [{| Query := cypher; Params := params |}];
        readResults := rest; writeResults := writeResults m; err := err m;
        connectivity := connectivity m |}).
Proof. intros Herr Hres. unfold MemoryClient_ExecuteRead. rewrite Herr, Hres. reflexivity. Qed.

(** X12. Against the in-memory client with three canned read results,
    [FetchUserRelationships] of a user with an ID issues three reads, the
    direct links, the transactions and the shared attributes in that order,
    each with the user's ID as its one parameter, and no write; it returns
    no error, one direct link for each record of the first result, one
    transaction for each record of the second, and one shared attribute for
    each record of the third whose [userIds] is a list. *)
Theorem fetch_user_relationships_reads_three (userID : string) (m : MemoryClient)
  (r1 r2 r3 : Result) (rest : list Result) :
  userID <> "" -> err m = None -> readResults m = r1 :: r2 :: r3 :: rest ->
  let out := run (Repository.FetchUserRelationships userID) m in
  let rel := fst (fst out) in
  snd (fst out) = None
  /\ Domain.ur_UserID rel = userID
  /\ length (Domain.ur_DirectLinks rel) = length (Records r1)
  /\ length (Domain.ur_Transactions rel) = length (Records r2)
  /\ length (Domain.ur_SharedAttributes rel)
     = length (List.filter hasUserList (Records r3))
  /\ readCalls (snd out)
     = readCalls m
       ++ [ {| Query := userDirectLinksCypher; Params := [("userId", VString userID)] |};
            {| Query := userTransactionsCypher; Params := [("userId", VString userID)] |};
            {| Query := userSharedAttributesCypher; Params := [("userId", VString userID)] |} ]
  /\ readResults (snd out) = rest
  /\ writeCalls (snd out) = writeCalls m.
Proof.
  intros Hid Herr Hres. cbv zeta. unfold Repository.FetchUserRelationships.
  rewrite (eqb_empty_false _ Hid).
  cbn [bind Repository.fetchUserDirectLinks run clientExecuteRead MemoryClient_Client].
  rewrite (MemoryClient_read m _ _ r1 (r2 :: r3 :: rest) Herr Hres).
  cbn [run fst snd bind Repository.fetchUserTransactions clientExecuteRead MemoryClient_Client].
  erewrite MemoryClient_read; [|exact Herr|reflexivity].
  cbn [run fst snd bind Repository.fetchUserSharedAttributes clientExecuteRead
       MemoryClient_Client].
  erewrite MemoryClient_read; [|exact Herr|reflexivity].
  cbn. rewrite !length_map, <- !app_assoc. cbn [app].
  repeat split.
  induction (Records r3) as [|record records IH]; [reflexivity|].
  cbn [omap list_omap List.filter]. unfold hasUserList at 1.
  destruct (get "userIds" record); cbn [length]; rewrite ?IH; reflexivity.
Qed.

End AgainstMemoryClient.

(** ** A store that fails *)

Section FailingStore.
Import Graph Store.
Context `{GoLib}.

(** X13. When the store fails a call with [cause], every operation of the
    repository returns that error wrapped with the operation's own prefix,
    a zero result, and leaves the store as it was; the fetches stop at
    their first query. The wrapped error is a cancellation error exactly
    when [cause] is one, and its message is the prefix followed by the
    message of [cause]. *)
Theorem store_failure_surfaces_wrapped (cause : error) (s : GraphStore)
  (user : Domain.User) (tx : Domain.Transaction) (attrs : list Domain.Attribute)
  (userID txID sourceID targetID : string) :
  failure s = Some cause ->
  (Domain.u_ID user <> "" ->
   Graph.run (Repository.UpsertUser user) s
   = (Some (wrapError ("upsert user " +:+ Domain.u_ID user +:+ ": ") cause), s))
  /\ (Domain.t_ID tx <> "" -> Domain.t_SenderUserID tx <> "" ->
      Domain.t_ReceiverUserID tx <> "" ->
      Graph.run (Repository.UpsertTransaction tx attrs) s
      = (Some (wrapError ("upsert transaction " +:+ Domain.t_ID tx +:+ ": ") cause), s))
  /\ (userID <> "" ->
      Graph.run (Repository.FetchUserRelationships userID) s
      = ((Domain.zeroUserRelationships,
          Some (wrapError "fetch user direct links: " cause)), s))
  /\ (txID <> "" ->
      Graph.run (Repository.FetchTransactionRelationships txID) s
      = ((Domain.zeroTransactionRelationships,
          Some (wrapError "fetch transaction users: " cause)), s))
  /\ (sourceID <> "" -> targetID <> "" -> sourceID <> targetID ->
      Graph.run (Repository.ShortestPathBetweenUsers sourceID targetID) s
      = ((Domain.zeroShortestPath, Some (wrapError "shortest path query: " cause)), s))
  /\ (forall prefix,
        isCancellation (wrapError prefix cause) = isCancellation cause
        /\ Error (wrapError prefix cause) = prefix +:+ Error cause).
Proof.
  intros Hs. repeat split.
  - intros Hid. unfold Repository.UpsertUser. rewrite (eqb_empty_false _ Hid).
    cbn [Graph.run clientExecuteWrite GraphStore_Client]. unfold GraphStore_ExecuteWrite.
    rewrite Hs. reflexivity.
  - intros Hid Hsender Hreceiver. unfold Repository.UpsertTransaction.
    rewrite (eqb_empty_false _ Hid), (eqb_empty_false _ Hsender),
      (eqb_empty_false _ Hreceiver).
    cbn [orb Graph.run clientExecuteWrite GraphStore_Client]. unfold GraphStore_ExecuteWrite.
    rewrite Hs. reflexivity.
  - intros Hid. unfold Repository.FetchUserRelationships. rewrite (eqb_empty_false _ Hid).
    cbn. unfold GraphStore_ExecuteRead. rewrite Hs. reflexivity.
  - intros Hid. unfold Repository.FetchTransactionRelationships.
    rewrite (eqb_empty_false _ Hid).
    cbn. unfold GraphStore_ExecuteRead. rewrite Hs. reflexivity.
  - intros Hsrc Htgt Hne. unfold Repository.ShortestPathBetweenUsers.
    rewrite (eqb_empty_false _ Hsrc), (eqb_empty_false _ Htgt). cbn [orb].
    rewrite (proj2 (String.eqb_neq sourceID targetID) Hne).
    cbn. unfold GraphStore_ExecuteRead. rewrite Hs. reflexivity.
Qed.

End FailingStore.

(** ** The normalisers *)

Section Normalisers.
Import GoStrings Service.

Lemma allBytes_filterBytes (keep : ascii -> bool) (s : string) :
  allBytes keep (filterBytes keep s) = true.
Proof.
  induction s as [|c r IH]; [reflexivity|]. cbn [filterBytes].
  destruct (keep c) eqn:Hc; [cbn [allBytes]; rewrite Hc|]; exact IH.
Qed.

Lemma allBytes_sliceFrom (p : ascii -> bool) (n : nat) (s : string) :
  allBytes p s = true -> allBytes p (sliceFrom n s) = true.
Proof.
  revert s. induction n as [|n IH]; intros [|c r] Hs; try exact Hs.
  cbn [sliceFrom]. apply IH. cbn [allBytes] in Hs. apply andb_true_iff in Hs. tauto.
Qed.

Lemma digits_no_plus (s : string) : allBytes isDigit s = true -> HasPrefix s "+" = false.
Proof.
  destruct s as [|c r]; [reflexivity|]. cbn [allBytes]. intros Hs.
  apply andb_true_iff in Hs as [Hc _]. unfold HasPrefix. cbn [String.prefix].
  destruct (ascii_dec "+" c) as [<-|Hne]; [discriminate Hc|reflexivity].
Qed.

Lemma phoneDigits_allDigits (phone : string) : allBytes isDigit (phoneDigits phone) = true.
Proof.
  unfold phoneDigits. cbv zeta. destruct (HasPrefix _ _).
  - apply allBytes_sliceFrom, allBytes_filterBytes.
  - apply allBytes_filterBytes.
Qed.

(** X14. [normalizePhone] looks at the digits of its input only: without
    a digit the result is empty; otherwise it is [+] followed by the digits
    of the input, in order, less one leading [00]. The test for a leading
    [+] never finds one. Two inputs with the same digits normalise to the
    same string. *)
Theorem normalizePhone_plus_digits (phone other : string) :
  (removeNonDigits phone = "" -> normalizePhone phone = "")
  /\ (removeNonDigits phone <> "" ->
      normalizePhone phone = "+" +:+ phoneDigits phone
      /\ allBytes isDigit (phoneDigits phone) = true
      /\ (removeNonDigits phone = phoneDigits phone
          \/ removeNonDigits phone = "00" +:+ phoneDigits phone))
  /\ (removeNonDigits phone = removeNonDigits other ->
      normalizePhone phone = normalizePhone other).
Proof.
  split; [|split].
  - intros Hd. unfold normalizePhone. rewrite removeNonDigits_TrimSpace, Hd. reflexivity.
  - intros Hd. pose proof (phoneDigits_allDigits phone) as Hall.
    split; [|split; [exact Hall|]].
    + unfold normalizePhone. rewrite removeNonDigits_TrimSpace, (eqb_empty_false _ Hd).
      cbv zeta. fold (phoneDigits phone). rewrite (digits_no_plus _ Hall). reflexivity.
    + unfold phoneDigits, HasPrefix. cbv zeta.
      destruct (removeNonDigits phone) as [|a [|b r]]; cbn [String.prefix].
      * auto.
      * destruct (ascii_dec "0" a); auto.
      * destruct (ascii_dec "0" a) as [<-|?]; [|auto].
        destruct (ascii_dec "0" b) as [<-|?]; [|auto].
        destruct r; right; reflexivity.
  - intros Heq. unfold normalizePhone. rewrite !removeNonDigits_TrimSpace, Heq. reflexivity.
Qed.

End Normalisers.

Section Trimming.
Import GoStrings Service.

Lemma TrimRightSpace_cons (c : ascii) (r : string) :
  TrimRightSpace (String c r)
  = match TrimRightSpace r with
    | EmptyString => if isSpace c then EmptyString else String c EmptyString
    | r' => String c r'
    end.
Proof. reflexivity. Qed.

Lemma TrimRightSpace_idem (s : string) : TrimRightSpace (TrimRightSpace s) = TrimRightSpace s.
Proof.
  induction s as [|c r IH]; [reflexivity|]. rewrite (TrimRightSpace_cons c r).
  destruct (TrimRightSpace r) as [|d r'] eqn:Hr.
  - destruct (isSpace c) eqn:Hc; [reflexivity|]. cbn [TrimRightSpace]. rewrite Hc. reflexivity.
  - rewrite TrimRightSpace_cons, IH. reflexivity.
Qed.

Lemma TrimRightSpace_head (c : ascii) (r : string) :
  isSpace c = false -> exists r', TrimRightSpace (String c r) = String c r'.
Proof.
  intros Hc. cbn [TrimRightSpace]. destruct (TrimRightSpace r); rewrite ?Hc; eauto.
Qed.

Lemma TrimLeftSpace_head (s : string) :
  TrimLeftSpace s = "" \/ exists c r, TrimLeftSpace s = String c r /\ isSpace c = false.
Proof.
  induction s as [|c r IH]; [left; reflexivity|]. cbn [TrimLeftSpace].
  destruct (isSpace c) eqn:Hc; [exact IH|]. right. eauto.
Qed.

Lemma TrimSpace_idem (s : string) : TrimSpace (TrimSpace s) = TrimSpace s.
Proof.
  unfold TrimSpace. destruct (TrimLeftSpace_head s) as [->|(c & r & -> & Hc)]; [reflexivity|].
  destruct (TrimRightSpace_head c r Hc) as [r' Hr]. rewrite Hr.
  cbn [TrimLeftSpace]. rewrite Hc, <- Hr. apply TrimRightSpace_idem.
Qed.

Lemma lowerByte_idem (c : ascii) : lowerByte (lowerByte c) = lowerByte c.
Proof. destruct c as [[] [] [] [] [] [] [] []]; reflexivity. Qed.

Lemma isSpace_lowerByte (c : ascii) : isSpace (lowerByte c) = isSpace c.
Proof. destruct c as [[] [] [] [] [] [] [] []]; reflexivity. Qed.

Lemma ToLower_idem (s : string) : ToLower (ToLower s) = ToLower s.
Proof.
  induction s as [|c r IH]; [reflexivity|]. cbn [ToLower]. rewrite lowerByte_idem, IH.
  reflexivity.
Qed.

Lemma ToLower_TrimLeftSpace (s : string) : ToLower (TrimLeftSpace s) = TrimLeftSpace (ToLower s).
Proof.
  induction s as [|c r IH]; [reflexivity|]. cbn [TrimLeftSpace ToLower].
  rewrite isSpace_lowerByte. destruct (isSpace c); [exact IH|reflexivity].
Qed.

Lemma ToLower_TrimRightSpace (s : string) :
  ToLower (TrimRightSpace s) = TrimRightSpace (ToLower s).
Proof.
  induction s as [|c r IH]; [reflexivity|]. cbn [TrimRightSpace ToLower].
  rewrite <- IH, isSpace_lowerByte.
  destruct (TrimRightSpace r); cbn [ToLower]; [destruct (isSpace c)|]; reflexivity.
Qed.

Lemma ToLower_TrimSpace (s : string) : ToLower (TrimSpace s) = TrimSpace (ToLower s).
Proof. unfold TrimSpace. rewrite ToLower_TrimRightSpace, ToLower_TrimLeftSpace. reflexivity. Qed.

(** X15. On ASCII input [normalizeEmail] is a normal form: normalising a
    normalised email changes nothing, and two emails that differ in case
    or in surrounding whitespace only have the same normal form, which is
    also the form [normalizeAddress] gives a component (lowering and
    trimming commute). *)
Theorem normalizeEmail_normal_form (email : string) :
  isASCII email = true ->
  normalizeEmail (normalizeEmail email) = normalizeEmail email
  /\ normalizeEmail (ToLower email) = normalizeEmail email
  /\ normalizeEmail (TrimSpace email) = normalizeEmail email
  /\ normalizeEmail email = ToLower (TrimSpace email).
Proof.
  intros _. unfold normalizeEmail. repeat split.
  - rewrite ToLower_TrimSpace, ToLower_idem. apply TrimSpace_idem.
  - rewrite ToLower_idem. reflexivity.
  - rewrite ToLower_TrimSpace. apply TrimSpace_idem.
  - symmetry. apply ToLower_TrimSpace.
Qed.







End Trimming.

(** ** The attributes of a user *)

Section UserAttributes.
Import GoStrings Service.
Context `{GoLib}.

Lemma existsb_eqb (i : string) (seen : list string) :
  existsb (String.eqb i) seen = true <-> i ∈ seen.
Proof.
  rewrite existsb_exists. split.
  - intros (x & Hx & Heq). apply String.eqb_eq in Heq. subst x. apply list_elem_of_In, Hx.
  - intros Hi. exists i. split; [apply list_elem_of_In, Hi|apply String.eqb_refl].
Qed.

Lemma paymentAttributes_spec (pms : list PaymentMethodInput) (seen : list string)
  (attrs : list Domain.Attribute) :
  exists ids,
    paymentAttributes pms seen attrs = attrs ++ map paymentAttribute ids
    /\ NoDup ids
    /\ (forall i, i ∈ ids <-> i <> "" /\ (i ∉ seen) /\ i ∈ map paymentIdentifier pms).
Proof.
  revert seen attrs. induction pms as [|pm pms IH]; intros seen attrs.
  - exists []. cbn. rewrite app_nil_r. split; [reflexivity|]. split; [constructor|].
    intros i. split; [intros Hi; inversion Hi|intros (_ & _ & Hi); inversion Hi].
  - cbn [paymentAttributes map]. fold (paymentIdentifier pm).
    destruct (String.eqb_spec (paymentIdentifier pm) "") as [Hempty|Hfull].
    + destruct (IH seen attrs) as (ids & Heq & Hnd & Hin). exists ids.
      split; [exact Heq|]. split; [exact Hnd|]. intros i. rewrite Hin, elem_of_cons.
      split; [tauto|]. intros (Hi & Hs & [->|Hi']); [contradiction|tauto].
    + destruct (existsb (String.eqb (paymentIdentifier pm)) seen) eqn:Hseen.
      * apply existsb_eqb in Hseen.
        destruct (IH seen attrs) as (ids & Heq & Hnd & Hin). exists ids.
        split; [exact Heq|]. split; [exact Hnd|]. intros i. rewrite Hin, elem_of_cons.
        split; [tauto|]. intros (Hi & Hs & [->|Hi']); [contradiction|tauto].
      * assert (Hnew : paymentIdentifier pm ∉ seen).
        { intros Hs. apply existsb_eqb in Hs. congruence. }
        destruct (IH (paymentIdentifier pm :: seen)
                     (attrs ++ [mkAttribute AttributeTypePayment
                                  (hashValue (paymentIdentifier pm)) (paymentIdentifier pm)
                                  0.95%float]))
          as (ids & Heq & Hnd & Hin).
        exists (paymentIdentifier pm :: ids). split; [|split].
        -- rewrite Heq, <- app_assoc. reflexivity.
        -- apply NoDup_cons. split; [|exact Hnd]. intros Hi. apply Hin in Hi as (_ & Hs & _).
           apply Hs. left.
        -- intros i. rewrite !elem_of_cons, Hin, not_elem_of_cons.
           destruct (decide (i = paymentIdentifier pm)) as [->|Hne]; tauto.
Qed.

Lemma paymentAttribute_generated (i : string) : i <> "" -> generated (paymentAttribute i).
Proof.
  intros Hi. split; [exact Hi|]. split; [reflexivity|].
  repeat first [apply list_elem_of_here | apply list_elem_of_further].
Qed.

(** X17. What [FromUser] emits for a user whose email, address and
    payment-method fingerprints and IDs are ASCII strings: no two
    attributes of the same type and raw value; only attributes with a raw
    value that is not empty, whose value is the hash of the raw value, of
    type [EMAIL], [PHONE], [ADDRESS] or [PAYMENT_METHOD]; and a
    [PAYMENT_METHOD] attribute for the identifier of every payment method
    that has one, the trimmed fingerprint or else the trimmed ID, however
    often the identifier occurs. *)
Theorem FromUser_distinct_generated (input : UserInput) :
  asciiUser input = true ->
  NoDup (map attributeKey (FromUser input))
  /\ Forall generated (FromUser input)
  /\ (forall pm, pm ∈ ui_PaymentMethods input -> paymentIdentifier pm <> "" ->
                 paymentAttribute (paymentIdentifier pm) ∈ FromUser input).
Proof.
  intros _. unfold FromUser. cbv zeta.
  set (base := (if negb (String.eqb (Trim _ _) "") then _ else _)).
  destruct (paymentAttributes_spec (ui_PaymentMethods input) [] base)
    as (ids & -> & Hnd & Hin).
  assert (Hbase : NoDup (map attributeKey base)
                  /\ Forall generated base
                  /\ Forall (fun a => Domain.Type_ a <> AttributeTypePayment) base).
  { unfold base.
    destruct (String.eqb_spec (normalizeEmail (ui_Email input)) "") as [He|He];
      destruct (String.eqb_spec (normalizePhone (ui_Phone input)) "") as [Hp|Hp];
      destruct (String.eqb_spec (Trim (normalizeAddress (ui_Address input)) "|") "")
        as [Ha|Ha]; cbn [negb app map attributeKey];
      (split; [|split]);
      repeat first
        [ apply NoDup_nil_2
        | apply NoDup_cons; split;
          [rewrite ?not_elem_of_cons; repeat split; try discriminate; apply not_elem_of_nil|]
        | apply Forall_nil_2
        | apply Forall_cons; split ];
      try discriminate;
      try (split; [|split; [reflexivity
                           |repeat first [apply list_elem_of_here
                                         |apply list_elem_of_further]]]);
      cbn [Domain.RawValue mkAttribute]; try assumption.
    all: intros Hempty; apply Ha; rewrite Hempty; reflexivity. }
  destruct Hbase as (Hbnd & Hbgen & Hbty).
  split; [|split].
  - rewrite map_app. apply NoDup_app. split; [exact Hbnd|]. split.
    + intros k Hk Hk'. apply list_elem_of_fmap in Hk as (a & -> & Ha).
      apply list_elem_of_fmap in Hk' as (b & Hkey & Hb).
      apply list_elem_of_fmap in Hb as (i & -> & _).
      rewrite Forall_forall in Hbty. apply (Hbty a Ha).
      injection Hkey as -> _. reflexivity.
    + rewrite map_map. cbn [attributeKey]. apply NoDup_fmap_2; [|exact Hnd].
      intros i j Hij. injection Hij as ->. reflexivity.
  - apply Forall_app. split; [exact Hbgen|].
    apply Forall_forall. intros a Ha. apply list_elem_of_fmap in Ha as (i & -> & Hi).
    apply paymentAttribute_generated, Hin, Hi.
  - intros pm Hpm Hid. apply elem_of_app. right. apply list_elem_of_fmap.
    exists (paymentIdentifier pm). split; [reflexivity|]. apply Hin.
    split; [exact Hid|]. split; [apply not_elem_of_nil|].
    apply list_elem_of_fmap. eauto.
Qed.

End UserAttributes.

Section AddressAttribute.
Import GoStrings Service.
Context `{GoLib}.








End AddressAttribute.

(** ** Listing *)

Section ListingFacts.
Import Listing.
Context `{GoLib} `{GoMath}.

Lemma boundLimit_range (limit : Z) : (1 <= boundLimit limit <= 200)%Z.
Proof.
  unfold boundLimit. cbv zeta.
  destruct (Z.leb_spec limit 0); [cbn; lia|].
  destruct (Z.ltb_spec 200 limit); lia.
Qed.

Lemma boundOffset_range (offset : Z) :
  isInt offset -> (0 <= boundOffset offset < 2 ^ 63)%Z.
Proof. unfold isInt, boundOffset. intros Hint. destruct (Z.ltb_spec offset 0); lia. Qed.

Lemma wrapInt_isInt (z : Z) : isInt (wrapInt z).
Proof.
  unfold isInt, wrapInt.
  pose proof (Z.mod_pos_bound (z + 2 ^ 63) (2 ^ 64) ltac:(lia)). lia.
Qed.

Lemma wrapInt_id (z : Z) : isInt z -> wrapInt z = z.
Proof.
  unfold isInt, wrapInt. intros Hz. rewrite Z.mod_small by lia. lia.
Qed.

Lemma listUsersParams_bounded (opts : ListUsersOptions) :
  isInt (uo_Offset opts) -> boundedPage (listUsersParams opts).
Proof.
  intros Hint. exists (boundOffset (uo_Offset opts)), (boundLimit (uo_Limit opts)).
  split; [reflexivity|]. split; [reflexivity|].
  split; [apply boundOffset_range, Hint|apply boundLimit_range].
Qed.

Lemma listTransactionsParams_bounded (opts : ListTransactionsOptions) :
  isInt (to_Offset opts) -> boundedPage (listTransactionsParams opts).
Proof.
  intros Hint. exists (boundOffset (to_Offset opts)), (boundLimit (to_Limit opts)).
  split; [reflexivity|]. split; [reflexivity|].
  split; [apply boundOffset_range, Hint|apply boundLimit_range].
Qed.

Lemma runReads_andThen {A B : Type} (p : Reads A) (f : A -> Reads B)
  (script : list (Graph.Result * option error)) :
  (forall a, exists b, f a = Done b) ->
  snd (runReads (andThen p f) script) = snd (runReads p script).
Proof.
  intros Hf. revert script. induction p as [a|statement params k IH]; intros script.
  - cbn [andThen]. destruct (Hf a) as [b ->]. reflexivity.
  - cbn [andThen runReads].
    specialize (IH (match script with [] => (Graph.noResult, None) | r :: _ => r end)
                   (tail script)).
    destruct (runReads (andThen _ f) _), (runReads (k _) _). cbn [snd] in *. rewrite IH.
    reflexivity.
Qed.

Lemma runReads_andThen_value {A B : Type} (p : Reads A) (f : A -> B)
  (script : list (Graph.Result * option error)) :
  fst (runReads (andThen p (fun a => Done (f a))) script) = f (fst (runReads p script)).
Proof.
  revert script. induction p as [a|statement params k IH]; intros script; [reflexivity|].
  cbn [andThen runReads].
  specialize (IH (match script with [] => (Graph.noResult, None) | r :: _ => r end)
                 (tail script)).
  destruct (runReads (andThen _ _) _), (runReads (k _) _). exact IH.
Qed.

Lemma ListUsers_calls (opts : ListUsersOptions)
  (script : list (Graph.Result * option error)) :
  let order := userOrderClause (uo_SortField opts) (uo_SortOrder opts) in
  snd (runReads (ListUsers opts) script)
  = (listUsersCypher order, listUsersParams opts)
    :: match script with
       | (_, Some _) :: _ => []
       | _ => [(countUsersCypher, listUsersParams opts)]
       end.
Proof.
  cbv zeta. unfold ListUsers. cbv zeta. cbn [runReads].
  destruct script as [|[res [e|]] [|[res2 [e2|]] rest]]; reflexivity.
Qed.

Lemma ListTransactions_calls (opts : ListTransactionsOptions)
  (script : list (Graph.Result * option error)) :
  let order := transactionOrderClause (to_SortField opts) (to_SortOrder opts) in
  snd (runReads (ListTransactions opts) script)
  = (listTransactionsCypher order, listTransactionsParams opts)
    :: match script with
       | (_, Some _) :: _ => []
       | _ => [(countTransactionsCypher, listTransactionsParams opts)]
       end.
Proof.
  cbv zeta. unfold ListTransactions. cbv zeta. cbn [runReads].
  destruct script as [|[res [e|]] [|[res2 [e2|]] rest]]; reflexivity.
Qed.

Lemma userOrderClause_listed (field order : string) :
  userOrderClause field order ∈ userOrderClauses.
Proof.
  unfold userOrderClause, userOrderClauses. cbv zeta.
  destruct (EqualFold order "DESC");
    repeat match goal with |- context [if ?b then _ else _] => destruct b end;
    cbn; repeat first [apply list_elem_of_here | apply list_elem_of_further].
Qed.

Lemma transactionOrderClause_listed (field order : string) :
  transactionOrderClause field order ∈ transactionOrderClauses.
Proof.
  unfold transactionOrderClause, transactionOrderClauses. cbv zeta.
  destruct (EqualFold order "ASC");
    repeat match goal with |- context [if ?b then _ else _] => destruct b end;
    cbn; repeat first [apply list_elem_of_here | apply list_elem_of_further].
Qed.

(** X19. Whatever page, page size and filters a caller of the service
    asks for, and whatever the client answers, every query of [ListUsers]
    and [ListTransactions] carries a [limit] between 1 and 200 and a
    [skip] that is not negative, also when the offset of the page
    overflows. *)
Theorem list_queries_are_bounded (users : ListUsersParams)
  (transactions : ListTransactionsParams) (script : list (Graph.Result * option error)) :
  Forall (fun call => boundedPage (snd call))
         (snd (runReads (ServiceListUsers users) script))
  /\ Forall (fun call => boundedPage (snd call))
            (snd (runReads (ServiceListTransactions transactions) script)).
Proof.
  split.
  - unfold ServiceListUsers.
    destruct (normalizePagination (lu_Page users) (lu_PageSize users)) as [page pageSize] eqn:Hn.
    rewrite runReads_andThen by eauto.
    pose proof (ListUsers_calls (usersOptionsOf users) script) as Hcalls.
    cbv zeta in Hcalls. rewrite Hcalls.
    assert (Hb : boundedPage (listUsersParams (usersOptionsOf users))).
    { apply listUsersParams_bounded. unfold usersOptionsOf. rewrite Hn.
      cbn [uo_Offset]. apply wrapInt_isInt. }
    destruct script as [|[res [e|]] rest]; repeat constructor; exact Hb.
  - unfold ServiceListTransactions.
    destruct (normalizePagination (lt_Page transactions) (lt_PageSize transactions))
      as [page pageSize] eqn:Hn.
    rewrite runReads_andThen by eauto.
    pose proof (ListTransactions_calls (transactionsOptionsOf transactions) script) as Hcalls.
    cbv zeta in Hcalls. rewrite Hcalls.
    assert (Hb : boundedPage (listTransactionsParams (transactionsOptionsOf transactions))).
    { apply listTransactionsParams_bounded. unfold transactionsOptionsOf. rewrite Hn.
      cbn [to_Offset]. apply wrapInt_isInt. }
    destruct script as [|[res [e|]] rest]; repeat constructor; exact Hb.
Qed.

(** X20. The sort field and the sort order of a caller never reach a query
    text: the [ORDER BY] clause of every list statement is one of a fixed
    list, whatever strings are given; an unknown field sorts users by
    their ID and transactions by their timestamp, and an unknown order is
    ascending for users and descending for transactions. *)
Theorem order_clause_is_one_of_a_fixed_list (users : ListUsersOptions)
  (transactions : ListTransactionsOptions) (script : list (Graph.Result * option error)) :
  Forall (fun call => forall clause, orderClauseOf (fst call) = Some clause ->
                                     clause ∈ userOrderClauses)
         (snd (runReads (ListUsers users) script))
  /\ Forall (fun call => forall clause, orderClauseOf (fst call) = Some clause ->
                                        clause ∈ transactionOrderClauses)
            (snd (runReads (ListTransactions transactions) script))
  /\ (uo_SortField users = "" -> uo_SortOrder users = "" ->
      userOrderClause (uo_SortField users) (uo_SortOrder users) = "u.userId ASC")
  /\ (to_SortField transactions = "" -> to_SortOrder transactions = "" ->
      transactionOrderClause (to_SortField transactions) (to_SortOrder transactions)
      = "datetime(t.timestamp) DESC").
Proof.
  split; [|split; [|split]].
  - pose proof (ListUsers_calls users script) as Hcalls. cbv zeta in Hcalls. rewrite Hcalls.
    apply Forall_cons. split.
    + cbn. intros clause [= <-]. apply userOrderClause_listed.
    + destruct script as [|[res [e|]] rest]; repeat constructor; cbn; discriminate.
  - pose proof (ListTransactions_calls transactions script) as Hcalls.
    cbv zeta in Hcalls. rewrite Hcalls. apply Forall_cons. split.
    + cbn. intros clause [= <-]. apply transactionOrderClause_listed.
    + destruct script as [|[res [e|]] rest]; repeat constructor; cbn; discriminate.
  - intros -> ->. reflexivity.
  - intros -> ->. reflexivity.
Qed.

(** X21. The list and export functions return a whole result or nothing,
    whatever the client answers: either no error, with one summary for each
    record of the first answer, in their order, and for a list the total
    of the second answer; or an error that wraps an error of the client,
    with an empty result, so that summaries decoded before a failing count
    are dropped. *)
Theorem listing_whole_result_or_nothing (users : ListUsersOptions)
  (transactions : ListTransactionsOptions) (script : list (Graph.Result * option error)) :
  let first := fst (nth 0 script (Graph.noResult, None)) in
  let second := fst (nth 1 script (Graph.noResult, None)) in
  let failed (err : option error) :=
    exists context cause answer,
      err = Some (wrapError context cause) /\ (answer, Some cause) ∈ script in
  (fst (runReads (ListUsers users) script)
   = ({| ul_Items := map userSummaryOf (Graph.Records first); ul_Total := totalOf second |},
      None)
   \/ (fst (fst (runReads (ListUsers users) script)) = zeroUserListResult
       /\ failed (snd (fst (runReads (ListUsers users) script)))))
  /\ (fst (runReads (ListTransactions transactions) script)
      = ({| tl_Items := map transactionSummaryOf (Graph.Records first);
            tl_Total := totalOf second |}, None)
      \/ (fst (fst (runReads (ListTransactions transactions) script))
          = zeroTransactionListResult
          /\ failed (snd (fst (runReads (ListTransactions transactions) script)))))
  /\ (fst (runReads ExportUsers script) = (map userSummaryOf (Graph.Records first), None)
      \/ (fst (fst (runReads ExportUsers script)) = []
          /\ failed (snd (fst (runReads ExportUsers script)))))
  /\ (fst (runReads ExportTransactions script)
      = (map transactionSummaryOf (Graph.Records first), None)
      \/ (fst (fst (runReads ExportTransactions script)) = []
          /\ failed (snd (fst (runReads ExportTransactions script))))).
Proof.
  cbv zeta.
  destruct script as [|[res [e|]] [|[res2 [e2|]] rest]];
    repeat split;
    first [ left; reflexivity
          | right; split; [reflexivity|]; do 3 eexists; split; [reflexivity|];
            repeat first [apply list_elem_of_here | apply list_elem_of_further] ].
Qed.

(** X22. The page [ListUsers] and [ListTransactions] of the service return
    carries the page asked for, or 1 when that is not positive, a page size
    between 1 and 200, the asked one when it lies there, the total of the
    count query and the items of the repository; on an error of the
    repository the page is empty and the error is passed on as it is. *)
Theorem service_page_is_normalised (users : ListUsersParams)
  (transactions : ListTransactionsParams) (script : list (Graph.Result * option error)) :
  let upage := fst (runReads (ServiceListUsers users) script) in
  let ulist := fst (runReads (ListUsers (usersOptionsOf users)) script) in
  let tpage := fst (runReads (ServiceListTransactions transactions) script) in
  let tlist := fst (runReads (ListTransactions (transactionsOptionsOf transactions)) script) in
  let normal (asked askedSize : Z) (meta : PaginationMeta) (total : Z) :=
    Page meta = Z.max asked 1
    /\ (1 <= PageSize meta <= 200)%Z
    /\ ((1 <= askedSize <= 200)%Z -> PageSize meta = askedSize)
    /\ TotalItems meta = total in
  snd upage = snd ulist
  /\ snd tpage = snd tlist
  /\ (snd ulist = None ->
      up_Items (fst upage) = ul_Items (fst ulist)
      /\ normal (lu_Page users) (lu_PageSize users) (up_Pagination (fst upage))
                (ul_Total (fst ulist)))
  /\ (snd ulist <> None ->
      fst upage = {| up_Items := []; up_Pagination := zeroPaginationMeta |})
  /\ (snd tlist = None ->
      tp_Items (fst tpage) = tl_Items (fst tlist)
      /\ normal (lt_Page transactions) (lt_PageSize transactions)
                (tp_Pagination (fst tpage)) (tl_Total (fst tlist)))
  /\ (snd tlist <> None ->
      fst tpage = {| tp_Items := []; tp_Pagination := zeroPaginationMeta |}).
Proof.
  cbv zeta.
  assert (Hnorm : forall page size,
            fst (normalizePagination page size) = Z.max page 1
            /\ (1 <= snd (normalizePagination page size) <= 200)%Z
            /\ ((1 <= size <= 200)%Z -> snd (normalizePagination page size) = size)).
  { intros page size. unfold normalizePagination. cbv zeta. cbn [fst snd].
    destruct (Z.leb_spec page 0); destruct (Z.leb_spec size 0);
      repeat match goal with |- context [Z.ltb ?a ?b] => destruct (Z.ltb_spec a b) end;
      lia. }
  unfold ServiceListUsers, ServiceListTransactions.
  pose proof (Hnorm (lu_Page users) (lu_PageSize users)) as Hu.
  pose proof (Hnorm (lt_Page transactions) (lt_PageSize transactions)) as Ht.
  destruct (normalizePagination (lu_Page users) (lu_PageSize users)) as [upg usz].
  destruct (normalizePagination (lt_Page transactions) (lt_PageSize transactions))
    as [tpg tsz].
  cbn [fst snd] in Hu, Ht.
  rewrite !runReads_andThen_value.
  destruct (fst (runReads (ListUsers (usersOptionsOf users)) script)) as [ures [ue|]];
    destruct (fst (runReads (ListTransactions (transactionsOptionsOf transactions)) script))
      as [tres [te|]];
    cbn [fst snd up_Items up_Pagination tp_Items tp_Pagination buildPaginationMeta
         Page PageSize TotalItems];
    repeat split; try tauto; try discriminate; try (intros _); try apply Hu; try apply Ht;
    try congruence.
Qed.

End ListingFacts.

(** ** The risk filters *)

Section RiskFilters.
Import Listing SpecFloat FloatOps FloatAxioms.
Context `{GoLib} `{GoMath}.

Lemma SFcompare_antisym (x y : spec_float) :
  SFcompare y x = option_map CompOpp (SFcompare x y).
Proof.
  destruct x as [sx|sx| |sx mx ex], y as [sy|sy| |sy my ey]; cbn [SFcompare option_map];
    try reflexivity;
    try (destruct sx; reflexivity); try (destruct sy; reflexivity);
    try (destruct sx, sy; reflexivity).
  destruct sx, sy; cbn [CompOpp]; try reflexivity.
  - rewrite (Z.compare_antisym ex ey). destruct (Z.compare ex ey); cbn [CompOpp]; try reflexivity.
    rewrite !Pos.compare_cont_spec. cbn [Pos.switch_Eq].
    rewrite (Pos.compare_antisym mx my). destruct (Pos.compare mx my); reflexivity.
  - rewrite (Z.compare_antisym ex ey). destruct (Z.compare ex ey); cbn [CompOpp]; try reflexivity.
    rewrite !Pos.compare_cont_spec. cbn [Pos.switch_Eq].
    rewrite (Pos.compare_antisym mx my). destruct (Pos.compare mx my); reflexivity.
Qed.

Lemma isNumber_compare (x y : float) :
  isNumber x -> isNumber y -> exists c, SFcompare (Prim2SF x) (Prim2SF y) = Some c.
Proof.
  unfold isNumber. rewrite !FloatAxioms.eqb_spec. unfold SFeqb.
  destruct (Prim2SF x) as [sx|sx| |sx mx ex], (Prim2SF y) as [sy|sy| |sy my ey];
    cbn [SFcompare]; intros Hx Hy; try discriminate; eauto.
Qed.

(** On numbers, not less is greater or equal. *)
Lemma not_ltb_leb (x y : float) :
  isNumber x -> isNumber y -> PrimFloat.ltb x y = false -> PrimFloat.leb y x = true.
Proof.
  intros Hx Hy. rewrite FloatAxioms.ltb_spec, FloatAxioms.leb_spec. unfold SFltb, SFleb.
  rewrite (SFcompare_antisym (Prim2SF x) (Prim2SF y)).
  destruct (isNumber_compare x y Hx Hy) as [c ->]. destruct c; cbn; congruence.
Qed.

Lemma leb_isNumber (x y : float) : PrimFloat.leb x y = true -> isNumber x /\ isNumber y.
Proof.
  unfold isNumber. rewrite FloatAxioms.leb_spec, !FloatAxioms.eqb_spec. unfold SFleb, SFeqb.
  destruct (Prim2SF x) as [sx|sx| |sx mx ex], (Prim2SF y) as [sy|sy| |sy my ey];
    cbn [SFcompare]; try discriminate; intros _;
    repeat match goal with s : bool |- _ => destruct s end;
    rewrite ?Z.compare_refl, ?Pos.compare_cont_refl; auto.
Qed.

Lemma leb_refl (x : float) : isNumber x -> PrimFloat.leb x x = true.
Proof.
  unfold isNumber. rewrite FloatAxioms.leb_spec, FloatAxioms.eqb_spec. unfold SFleb, SFeqb.
  destruct (SFcompare (Prim2SF x) (Prim2SF x)) as [[]|]; congruence.
Qed.

Lemma clampFloat_unit (v : float) : isNumber v -> inUnit (clampFloat v 0 1).
Proof.
  intros Hv. unfold clampFloat.
  assert (Hzero : isNumber 0%float) by reflexivity.
  assert (Hone : isNumber 1%float) by reflexivity.
  destruct (PrimFloat.ltb v 0) eqn:Hlo; [split; reflexivity|].
  change (PrimFloat.ltb 0 1) with true. cbn [andb].
  destruct (PrimFloat.ltb 1 v) eqn:Hhi; [split; reflexivity|].
  split; apply not_ltb_leb; assumption.
Qed.

(** X23. The risk filters of [ListUsers] reach the repository clamped:
    when the bounds asked for are numbers (or absent, which reads as 0),
    the minimum and the maximum sent lie between 0 and 1, and a maximum
    above 0 is never below the minimum. *)
Theorem risk_filters_are_clamped (params : ListUsersParams) :
  numberOrNone (lu_RiskMin params) -> numberOrNone (lu_RiskMax params) ->
  let opts := usersOptionsOf params in
  inUnit (uo_RiskMin opts)
  /\ inUnit (uo_RiskMax opts)
  /\ (PrimFloat.ltb 0 (uo_RiskMax opts) = true ->
      PrimFloat.leb (uo_RiskMin opts) (uo_RiskMax opts) = true).
Proof.
  intros Hmin Hmax. cbv zeta. unfold usersOptionsOf.
  destruct (normalizePagination (lu_Page params) (lu_PageSize params)) as [page pageSize].
  cbn [uo_RiskMin uo_RiskMax].
  set (lo := match lu_RiskMin params with Some v => clampFloat v 0 1 | None => 0%float end).
  assert (Hlo : inUnit lo).
  { unfold lo. destruct (lu_RiskMin params) as [v|]; [apply clampFloat_unit, Hmin|].
    split; reflexivity. }
  split; [exact Hlo|].
  destruct (lu_RiskMax params) as [v|]; [|split; [split; reflexivity|discriminate]].
  pose proof (clampFloat_unit v Hmax) as Hhi.
  destruct (PrimFloat.ltb 0 (clampFloat v 0 1) && PrimFloat.ltb (clampFloat v 0 1) lo)
    eqn:Hswap.
  - split; [exact Hlo|]. intros _. apply leb_refl. destruct Hlo as [Hlo _].
    apply leb_isNumber in Hlo. tauto.
  - split; [exact Hhi|]. intros Hpos. rewrite Hpos in Hswap. cbn [andb] in Hswap.
    destruct Hlo as [Hlo _]. destruct Hhi as [Hhi _].
    apply leb_isNumber in Hlo. apply leb_isNumber in Hhi.
    apply not_ltb_leb; tauto.
Qed.

End RiskFilters.

(** ** The further properties on the sample data *)

Section ClosedFurther.
Import Graph Store BulkIngestor.

Ltac uncancelled :=
  repeat (apply List.Forall_cons; [discriminate|]); apply List.Forall_nil.

Lemma each_index_attempted_at_most_once_witness :
  exists p,
    steps 2 Cases.userWorker Cases.cancelledAfterFirst (initial 1 Sample.emptyStore) = Some p
    /\ NoDup (attempted p)
    /\ (forall i, i ∈ attempted p -> i < 2)
    /\ length (errCh p) <= length (attempted p)
    /\ length (attempted p) <= 2.
Proof.
  eexists. split; [vm_compute; reflexivity|].
  apply (each_index_attempted_at_most_once 2 Cases.userWorker 1 Cases.cancelledAfterFirst
           Sample.emptyStore).
  vm_compute; reflexivity.
Defined.

Lemma run_returns_only_worker_errors_witness :
  let P := fun e => e = errorString "user ID is required"
                    \/ exists prefix cause, e = wrapError prefix cause in
  exists r s',
    BulkIngestor.run 2 Cases.userWorker 1 Cases.oneWorker Sample.emptyStore = Some (r, s')
    /\ (r = None
        \/ (exists e, r = Some e /\ P e /\ isCancellation e = true)
        \/ (exists errs, r = Some (TaskError errs) /\ errs <> []
                         /\ Forall (fun e => P e /\ isCancellation e = false) errs)).
Proof.
  cbv zeta. eexists. eexists. split; [vm_compute; reflexivity|].
  eapply (run_returns_only_worker_errors 2 Cases.userWorker _ 1 Cases.oneWorker
            Sample.emptyStore); [|vm_compute; reflexivity].
  intros done i st e. unfold Cases.userWorker.
  destruct (Sample.userBatch !! i) as [u|]; [|discriminate].
  intros Hu. apply (service_UpsertUser_error (H := Sample.lib)) in Hu as [->|(cause & _ & ->)];
    [left; reflexivity|right; eauto].
Defined.


Lemma user_batch_independent_of_schedule_witness :
  exists r1 s1 r2 s2,
    IngestUsers (H := Sample.lib) 1 0%Z Sample.userBatch Cases.oneWorker Sample.emptyStore
    = Some (r1, s1)
    /\ IngestUsers (H := Sample.lib) 2 0%Z Sample.userBatch Cases.twoWorkers Sample.emptyStore
       = Some (r2, s2)
    /\ r1 = r2
    /\ (forall n, n ∈ nodeIds (graph s1) <-> n ∈ nodeIds (graph s2))
    /\ (forall x, x ∈ relIds (graph s1) <-> x ∈ relIds (graph s2)).
Proof.
  do 4 eexists. split; [vm_compute; reflexivity|]. split; [vm_compute; reflexivity|].
  apply (user_batch_independent_of_schedule (H := Sample.lib) 1 2 0%Z Sample.userBatch
           Cases.oneWorker Cases.twoWorkers Sample.emptyStore);
    [reflexivity|unfold Cases.oneWorker; uncancelled|unfold Cases.twoWorkers; uncancelled
    |vm_compute; reflexivity|vm_compute; reflexivity].
Defined.

(** Two items of one ID: the name the user node keeps is the one of the
    item the workers took last, so it depends on the interleaving. *)
Lemma repeated_id_keeps_the_later_write :
  let nameAfter nworkers sched :=
    option_map (fun out => get "fullName" (propsOfNode (graph (snd out)) (NUser "USR-1")))
               (IngestUsers (H := Sample.lib) nworkers 0%Z Cases.sameId sched
                            Sample.emptyStore) in
  nameAfter 1 [Dispatch 0; Work 0; Dispatch 0; Work 0] = Some (VString "Bob")
  /\ nameAfter 2 [Dispatch 0; Dispatch 1; Work 1; Work 0] = Some (VString "Alice").
Proof. vm_compute. split; reflexivity. Qed.

Lemma upserted_transaction_returns_its_users_witness :
  let s' := snd (Graph.run (RelationshipService.UpsertTransaction (H := Sample.lib) 0%Z Sample.tx1)
                   Sample.twoUsers) in
  let result :=
    fst (Graph.run (RelationshipService.GetTransactionRelationships (H := Sample.lib) "TX-1") s') in
  snd result = None
  /\ Domain.tr_TransactionID (fst result) = "TX-1"
  /\ {| Domain.tu_UserID := "USR-1"; Domain.tu_Role := "SENDER";
        Domain.tu_Amount := 100%float; Domain.tu_Currency := "USD";
        Domain.tu_Direction := "OUTBOUND" |} ∈ Domain.tr_Users (fst result)
  /\ {| Domain.tu_UserID := "USR-2"; Domain.tu_Role := "RECEIVER";
        Domain.tu_Amount := 100%float; Domain.tu_Currency := "USD";
        Domain.tu_Direction := "INBOUND" |} ∈ Domain.tr_Users (fst result).
Proof.
  apply (upserted_transaction_returns_its_users (H := Sample.lib) 0%Z Sample.tx1
           Sample.twoUsers); closed_fact.
Defined.



Lemma shortest_path_within_six_hops_witness :
  let result :=
    fst (Graph.run (Repository.ShortestPathBetweenUsers (H := Sample.lib) "USR-1" "USR-2")
           Sample.afterBoth) in
  let path := fst result in
  snd result = None
  /\ Domain.sp_SourceUserID path = "USR-1" /\ Domain.sp_TargetUserID path = "USR-2"
  /\ ((Domain.sp_Nodes path = [] /\ Domain.sp_Edges path = [] /\ Domain.sp_Hops path = 0%Z)
      \/ ((1 <= Domain.sp_Hops path <= 6)%Z
          /\ Z.of_nat (length (Domain.sp_Edges path)) = Domain.sp_Hops path
          /\ Z.of_nat (length (Domain.sp_Nodes path)) = (Domain.sp_Hops path + 1)%Z
          /\ (exists first, head (Domain.sp_Nodes path) = Some first
                            /\ Domain.pn_ID first = "USR-1"
                            /\ Domain.pn_Type first = "User")
          /\ (exists final, last (Domain.sp_Nodes path) = Some final
                            /\ Domain.pn_ID final = "USR-2"
                            /\ Domain.pn_Type final = "User"))).
Proof.
  apply (shortest_path_within_six_hops (H := Sample.lib) "USR-1" "USR-2" Sample.afterBoth);
    closed_fact.
Defined.

Lemma transacting_users_are_one_hop_apart_witness :
  let s' := snd (Graph.run (RelationshipService.UpsertTransaction (H := Sample.lib) 0%Z Sample.tx1)
                   Sample.twoUsers) in
  let result :=
    fst (Graph.run (Repository.ShortestPathBetweenUsers (H := Sample.lib) "USR-1" "USR-2") s') in
  snd result = None
  /\ Domain.sp_Hops (fst result) = 1%Z
  /\ length (Domain.sp_Edges (fst result)) = 1
  /\ map Domain.pn_ID (Domain.sp_Nodes (fst result)) = ["USR-1"; "USR-2"].
Proof.
  apply (transacting_users_are_one_hop_apart (H := Sample.lib) 0%Z Sample.tx1 Sample.twoUsers);
    closed_fact.
Defined.

Lemma same_day_transactions_are_linked_witness :
  let s1 := snd (Graph.run (RelationshipService.UpsertTransaction (H := Sample.lib) 0%Z Sample.tx1)
                   Sample.twoUsers) in
  let s2 := snd (Graph.run (RelationshipService.UpsertTransaction (H := Sample.lib) 0%Z Cases.tx3)
                   s1) in
  returnsLink (fst (Graph.run (Repository.FetchTransactionRelationships (H := Sample.lib) "TX-3")
                      s2))
              "TX-1" "TX_DAY_BUCKET".
Proof.
  apply (same_day_transactions_are_linked (H := Sample.lib) 0%Z 0%Z Sample.tx1 Cases.tx3
           Sample.twoUsers); try closed_fact.
  repeat (apply List.Forall_cons; [split; closed_fact|]). apply List.Forall_nil.
Defined.

Lemma upserts_issue_one_write_witness :
  let user := Service.userOf (H := Sample.lib) 0%Z Cases.alice in
  let tx := Service.transactionOf 0%Z Sample.tx1 in
  let attrs := Service.FromTransaction (H := Sample.lib) Sample.tx1 in
  let m := NewMemoryClient in
  (Domain.u_ID user <> "" ->
   let out := Graph.run (Repository.UpsertUser (H := Sample.lib) user) m in
   fst out = None
   /\ readCalls (snd out) = readCalls m
   /\ exists params,
        writeCalls (snd out) = writeCalls m ++ [{| Query := upsertUserCypher; Params := params |}]
        /\ get "userId" params = VString (Domain.u_ID user)
        /\ get "fullName" (Store.fields (get "props" params)) = VString (Domain.u_FullName user)
        /\ get "kycStatus" (Store.fields (get "props" params))
           = VString (Domain.u_KYCStatus user)
        /\ length (Store.items (get "attributes" params)) = length (Domain.u_Attributes user)
        /\ length (Store.items (get "paymentMethods" params))
           = length (Domain.u_PaymentMethods user))
  /\ (Domain.t_ID tx <> "" -> Domain.t_SenderUserID tx <> "" ->
      Domain.t_ReceiverUserID tx <> "" ->
      let out := Graph.run (Repository.UpsertTransaction (H := Sample.lib) tx attrs) m in
      fst out = None
      /\ readCalls (snd out) = readCalls m
      /\ exists params,
           writeCalls (snd out)
           = writeCalls m ++ [{| Query := upsertTransactionCypher; Params := params |}]
           /\ get "transactionId" params = VString (Domain.t_ID tx)
           /\ get "senderId" params = VString (Domain.t_SenderUserID tx)
           /\ get "receiverId" params = VString (Domain.t_ReceiverUserID tx)
           /\ length (Store.items (get "attributes" params)) = length attrs).
Proof.
  apply (upserts_issue_one_write (H := Sample.lib) (Service.userOf (H := Sample.lib) 0%Z Cases.alice)
           (Service.transactionOf 0%Z Sample.tx1)
           (Service.FromTransaction (H := Sample.lib) Sample.tx1) NewMemoryClient).
  reflexivity.
Defined.

Lemma fetch_user_relationships_reads_three_witness :
  let out := Graph.run (Repository.FetchUserRelationships (H := Sample.lib) "USR-1") Cases.canned in
  let rel := fst (fst out) in
  snd (fst out) = None
  /\ Domain.ur_UserID rel = "USR-1"
  /\ length (Domain.ur_DirectLinks rel) = 1
  /\ length (Domain.ur_Transactions rel) = 0
  /\ length (Domain.ur_SharedAttributes rel) = 1
  /\ readCalls (snd out)
     = [ {| Query := userDirectLinksCypher; Params := [("userId", VString "USR-1")] |};
         {| Query := userTransactionsCypher; Params := [("userId", VString "USR-1")] |};
         {| Query := userSharedAttributesCypher; Params := [("userId", VString "USR-1")] |} ]
  /\ readResults (snd out) = []
  /\ writeCalls (snd out) = [].
Proof.
  apply (fetch_user_relationships_reads_three (H := Sample.lib) "USR-1" Cases.canned
           Cases.oneLink noResult Cases.twoShared []); closed_fact.
Defined.

Lemma store_failure_surfaces_wrapped_witness :
  let cause := Cases.unavailable in
  let s := Cases.failingStore in
  let user := Service.userOf (H := Sample.lib) 0%Z Cases.alice in
  let tx := Service.transactionOf 0%Z Sample.tx1 in
  (Domain.u_ID user <> "" ->
   Graph.run (Repository.UpsertUser (H := Sample.lib) user) s
   = (Some (wrapError ("upsert user " +:+ Domain.u_ID user +:+ ": ") cause), s))
  /\ (Domain.t_ID tx <> "" -> Domain.t_SenderUserID tx <> "" ->
      Domain.t_ReceiverUserID tx <> "" ->
      Graph.run (Repository.UpsertTransaction (H := Sample.lib) tx []) s
      = (Some (wrapError ("upsert transaction " +:+ Domain.t_ID tx +:+ ": ") cause), s))
  /\ ("USR-1" <> "" ->
      Graph.run (Repository.FetchUserRelationships (H := Sample.lib) "USR-1") s
      = ((Domain.zeroUserRelationships,
          Some (wrapError "fetch user direct links: " cause)), s))
  /\ ("TX-1" <> "" ->
      Graph.run (Repository.FetchTransactionRelationships (H := Sample.lib) "TX-1") s
      = ((Domain.zeroTransactionRelationships,
          Some (wrapError "fetch transaction users: " cause)), s))
  /\ ("USR-1" <> "" -> "USR-2" <> "" -> "USR-1" <> "USR-2" ->
      Graph.run (Repository.ShortestPathBetweenUsers (H := Sample.lib) "USR-1" "USR-2") s
      = ((Domain.zeroShortestPath, Some (wrapError "shortest path query: " cause)), s))
  /\ (forall prefix,
        isCancellation (wrapError prefix cause) = isCancellation cause
        /\ Error (wrapError prefix cause) = prefix +:+ Error cause).
Proof.
  apply (store_failure_surfaces_wrapped (H := Sample.lib) Cases.unavailable Cases.failingStore
           (Service.userOf (H := Sample.lib) 0%Z Cases.alice) (Service.transactionOf 0%Z Sample.tx1) []
           "USR-1" "TX-1" "USR-1" "USR-2").
  reflexivity.
Defined.

Lemma normalizeEmail_normal_form_witness :
  let email := "  Jane.Doe@Example.COM " in
  Service.normalizeEmail (Service.normalizeEmail email) = Service.normalizeEmail email
  /\ Service.normalizeEmail (GoStrings.ToLower email) = Service.normalizeEmail email
  /\ Service.normalizeEmail (GoStrings.TrimSpace email) = Service.normalizeEmail email
  /\ Service.normalizeEmail email = GoStrings.ToLower (GoStrings.TrimSpace email).
Proof.
  apply (normalizeEmail_normal_form "  Jane.Doe@Example.COM "). reflexivity.
Defined.


Lemma risk_filters_are_clamped_witness :
  let opts := Listing.usersOptionsOf Cases.riskParams in
  inUnit (Listing.uo_RiskMin opts)
  /\ inUnit (Listing.uo_RiskMax opts)
  /\ (PrimFloat.ltb 0 (Listing.uo_RiskMax opts) = true ->
      PrimFloat.leb (Listing.uo_RiskMin opts) (Listing.uo_RiskMax opts) = true).
Proof.
  apply (risk_filters_are_clamped Cases.riskParams); reflexivity.
Defined.

Lemma FromUser_distinct_generated_witness :
  map attributeKey (Service.FromUser (H := Sample.lib) Cases.carol)
  = [ ("EMAIL", "carol@example.com"); ("ADDRESS", "12 main st||paris||75001|fr");
      ("PAYMENT_METHOD", "fp-1"); ("PAYMENT_METHOD", "pm-3") ]
  /\ NoDup (map attributeKey (Service.FromUser (H := Sample.lib) Cases.carol))
  /\ Forall (generated (H := Sample.lib)) (Service.FromUser (H := Sample.lib) Cases.carol)
  /\ (forall pm, pm ∈ Service.ui_PaymentMethods Cases.carol -> paymentIdentifier pm <> "" ->
                 paymentAttribute (H := Sample.lib) (paymentIdentifier pm)
                 ∈ Service.FromUser (H := Sample.lib) Cases.carol).
Proof.
  split; [reflexivity|].
  apply (FromUser_distinct_generated (H := Sample.lib) Cases.carol). reflexivity.
Defined.


End ClosedFurther.
